(** * Encoding fixer: filename and content encoding repair

    A shallow embedding of [encoding_fixer.py] (class [EncodingFixer]) and
    [filename_unicode_fixer.py] (class [UnicodeFilenameFixer]).

    Python values are modelled as the code has them:
    - a [str] is the list of its code points ([list Z]);
    - a [bytes] object is the list of its bytes ([list Z], each in 0..255);
    - a [pathlib.Path] is the list of its components below the root;
    - the filesystem is a finite map from paths to nodes, and every method
      that touches it threads the world explicitly;
    - [print] appends an event to the world's standard output;
    - [os.walk] goes through the tree top-down and lists a directory when
      it reaches it; the order of a listing is a parameter, and the two
      scans are the loops of the source over that walk. *)

From stdpp Require Import base option list gmap strings.

Local Open Scope Z_scope.

(** ** Python strings *)

Module Py.

(** A [str]: the sequence of its code points. *)
Definition str := list Z.

(** [chr(i)]: [ValueError] outside [range(0x110000)]. *)
Definition chr (i : Z) : option Z :=
  if (0 <=? i) && (i <=? 0x10FFFF) then Some i else None.

(** ASCII text as a [str]. *)
Definition lit (s : string) : str :=
  (fun a => Z.of_nat (Ascii.nat_of_ascii a)) <$> String.list_ascii_of_string s.

(** [s.startswith(p)]. *)
Fixpoint startswith (p s : str) : bool :=
  match p, s with
  | [], _ => true
  | _ :: _, [] => false
  | a :: p', b :: s' => (a =? b) && startswith p' s'
  end.

(** [s.replace(old, new)]: every non-overlapping occurrence of [old], found
    left to right, is replaced by [new].  [skip] counts the characters of a
    match that are still to be passed over. *)
Fixpoint replace_from (old new : str) (skip : nat) (s : str) : str :=
  match s with
  | [] => []
  | c :: s' =>
      match skip with
      | S k => replace_from old new k s'
      | O =>
          if startswith old s
          then new ++ replace_from old new (length old - 1)%nat s'
          else c :: replace_from old new 0%nat s'
      end
  end.

Definition replace (old new s : str) : str :=
  match old with
  | [] => new ++ concat ((fun c => c :: new) <$> s)
  | _ :: _ => replace_from old new 0%nat s
  end.

(** [old in s]. *)
Fixpoint contains (old s : str) : bool :=
  startswith old s || match s with [] => false | _ :: s' => contains old s' end.

(** [s.encode('ascii')] succeeds exactly on 7-bit text. *)
Definition is_ascii (c : Z) : bool := (0 <=? c) && (c <? 0x80).

End Py.

(** ** The escape decoder ([UnicodeFilenameFixer.decode_unicode_escape]) *)

Module Escape.

(** The character class [[0-9a-fA-F]], with the value [int(_, 16)] gives it. *)
Definition hex_val (c : Z) : option Z :=
  if (0x30 <=? c) && (c <=? 0x39) then Some (c - 0x30)
  else if (0x61 <=? c) && (c <=? 0x66) then Some (c - 0x61 + 10)
  else if (0x41 <=? c) && (c <=? 0x46) then Some (c - 0x41 + 10)
  else None.

Definition is_hex (c : Z) : bool := bool_decide (is_Some (hex_val c)).

(** [int(hex_code, 16)] on a run of digits; [None] stands for [ValueError]. *)
Definition int16 (ds : Py.str) : option Z :=
  foldl (fun acc c => a ← acc; d ← hex_val c; Some (16 * a + d)) (Some 0) ds.

(** The pattern [#U([0-9a-fA-F]{4})] matched at the head of [s]: the text
    of group 1. *)
Definition match_escape (s : Py.str) : option Py.str :=
  match s with
  | c0 :: c1 :: h1 :: h2 :: h3 :: h4 :: _ =>
      if (c0 =? 0x23) && (c1 =? 0x55) && forallb is_hex [h1; h2; h3; h4]
      then Some [h1; h2; h3; h4] else None
  | _ => None
  end.

(** [replace_unicode_match]: the character for group 1, or the whole match
    when the conversion raises [ValueError]. *)
Definition replace_unicode_match (group0 group1 : Py.str) : Py.str :=
  match int16 group1 ≫= Py.chr with
  | Some u => [u]
  | None => group0
  end.

(** [re.sub(pattern, replace_unicode_match, filename)]. *)
Fixpoint sub_from (skip : nat) (s : Py.str) : Py.str :=
  match s with
  | [] => []
  | c :: s' =>
      match skip with
      | S k => sub_from k s'
      | O =>
          match match_escape s with
          | Some g1 => replace_unicode_match (take 6 s) g1 ++ sub_from 5 s'
          | None => c :: sub_from 0 s'
          end
      end
  end.

Definition decode_unicode_escape (filename : Py.str) : Py.str :=
  sub_from 0 filename.

(** [re.search(r'#U[0-9a-fA-F]{4}', name)] finds a match. *)
Fixpoint has_escape (s : Py.str) : bool :=
  match s with
  | [] => false
  | _ :: s' => bool_decide (is_Some (match_escape s)) || has_escape s'
  end.

End Escape.

(** ** Codecs

    The decoders of Python's codec machinery.  A decoder looks at the bytes
    that remain and either produces text from the first [n] of them or
    reports that the first [n] cannot be mapped; the error handler named in
    the call ([errors='strict'], ['ignore'], ['replace']) decides what an
    unmappable run becomes.  A step passes over at least one byte. *)

Module Codec.

Inductive step :=
  | Emit (out : Py.str) (n : nat)
  | Invalid (n : nat).

(** A decoder carries a state from one step to the next (a byte order
    learned from a byte-order mark, say). *)
Record decoder := Decoder {
  dstate : Type;
  dinit : dstate;
  dstep : dstate -> list Z -> dstate * step;
}.

Definition stateless (f : list Z -> step) : decoder :=
  Decoder unit tt (fun _ bs => (tt, f bs)).

(** Decoding with a handler that turns every unmappable run into [sub]:
    [errors='ignore'] is [sub = []], [errors='replace'] is [sub = [U+FFFD]]. *)
Fixpoint decode_from (d : decoder) (sub : Py.str) (st : dstate d) (skip : nat)
    (bs : list Z) : Py.str :=
  match bs with
  | [] => []
  | _ :: bs' =>
      match skip with
      | S k => decode_from d sub st k bs'
      | O =>
          match dstep d st bs with
          | (st', Emit out n) => out ++ decode_from d sub st' (n - 1)%nat bs'
          | (st', Invalid n) => sub ++ decode_from d sub st' (n - 1)%nat bs'
          end
      end
  end.

Definition decode_ignore (d : decoder) (bs : list Z) : Py.str :=
  decode_from d [] (dinit d) 0%nat bs.
Definition decode_replace (d : decoder) (bs : list Z) : Py.str :=
  decode_from d [0xFFFD] (dinit d) 0%nat bs.

(** [latin1]: every byte is the code point of the same value. *)
Definition latin1 : decoder := stateless (fun bs =>
  match bs with
  | b :: _ => Emit [b] 1
  | [] => Emit [] 1
  end).

(** [ascii]. *)
Definition ascii : decoder := stateless (fun bs =>
  match bs with
  | b :: _ => if Py.is_ascii b then Emit [b] 1 else Invalid 1
  | [] => Emit [] 1
  end).

(** [cp1252]: Latin-1 except for 0x80..0x9F, five of which are undefined. *)
Definition cp1252_high : list (Z * Z) :=
  [ (0x80, 0x20AC); (0x82, 0x201A); (0x83, 0x0192); (0x84, 0x201E);
    (0x85, 0x2026); (0x86, 0x2020); (0x87, 0x2021); (0x88, 0x02C6);
    (0x89, 0x2030); (0x8A, 0x0160); (0x8B, 0x2039); (0x8C, 0x0152);
    (0x8E, 0x017D); (0x91, 0x2018); (0x92, 0x2019); (0x93, 0x201C);
    (0x94, 0x201D); (0x95, 0x2022); (0x96, 0x2013); (0x97, 0x2014);
    (0x98, 0x02DC); (0x99, 0x2122); (0x9A, 0x0161); (0x9B, 0x203A);
    (0x9C, 0x0153); (0x9E, 0x017E); (0x9F, 0x0178) ].

Definition cp1252_char (b : Z) : option Z :=
  if (0x80 <=? b) && (b <=? 0x9F)
  then snd <$> List.find (fun e => fst e =? b) cp1252_high
  else Some b.

Definition cp1252 : decoder := stateless (fun bs =>
  match bs with
  | b :: _ => match cp1252_char b with Some u => Emit [u] 1 | None => Invalid 1 end
  | [] => Emit [] 1
  end).

(** The double-byte codecs ([gbk], [gb2312], [big5]): a byte below 0x80 is
    itself; otherwise the byte and its successor are looked up in the
    codec's table.  A pair the table does not map makes the lead byte
    unmappable, and a lead byte with no successor is an incomplete
    sequence.  The tables themselves are data of the Python runtime. *)
Definition dbcs (table : Z -> Z -> option Z) : decoder := stateless (fun bs =>
  match bs with
  | [] => Emit [] 1
  | c :: rest =>
      if c <? 0x80 then Emit [c] 1
      else match rest with
           | [] => Invalid 1
           | c2 :: _ => match table c c2 with Some u => Emit [u] 2 | None => Invalid 1 end
           end
  end).

(** [utf-16]: a byte-order mark fixes the byte order, little-endian
    without one.  A lone surrogate and an odd byte at the end are
    unmappable. *)
Definition unit16 (little : bool) (b0 b1 : Z) : Z :=
  if little then b0 + 256 * b1 else 256 * b0 + b1.

Definition utf16_unit (little : bool) (bs : list Z) : step :=
  match bs with
  | [] => Emit [] 1
  | [_] => Invalid 1
  | b0 :: b1 :: rest =>
      let u := unit16 little b0 b1 in
      if (u <? 0xD800) || (0xDFFF <? u) then Emit [u] 2
      else if 0xDC00 <=? u then Invalid 2
      else match rest with
           | c0 :: c1 :: _ =>
               let v := unit16 little c0 c1 in
               if (0xDC00 <=? v) && (v <=? 0xDFFF)
               then Emit [0x10000 + (u - 0xD800) * 0x400 + (v - 0xDC00)] 4
               else Invalid 2
           | _ => Invalid (2 + length rest)
           end
  end.

Definition utf16 : decoder :=
  Decoder (option bool) None (fun st bs =>
    match st with
    | Some little => (st, utf16_unit little bs)
    | None =>
        match bs with
        | 0xFF :: 0xFE :: _ => (Some true, Emit [] 2)
        | 0xFE :: 0xFF :: _ => (Some false, Emit [] 2)
        | _ => (Some true, utf16_unit true bs)
        end
    end).

(** [s.encode('latin1')]: [None] stands for [UnicodeEncodeError]. *)
Definition encode_latin1 (s : Py.str) : option (list Z) :=
  if forallb (fun c => (0 <=? c) && (c <=? 0xFF)) s then Some s else None.

(** One code point in UTF-8; surrogates and values past U+10FFFF cannot be
    encoded. *)
Definition utf8_char (c : Z) : option (list Z) :=
  if c <? 0 then None
  else if c <? 0x80 then Some [c]
  else if c <? 0x800 then Some [Z.lor 0xC0 (Z.shiftr c 6); Z.lor 0x80 (Z.land c 0x3F)]
  else if (0xD800 <=? c) && (c <=? 0xDFFF) then None
  else if c <? 0x10000 then
    Some [Z.lor 0xE0 (Z.shiftr c 12); Z.lor 0x80 (Z.land (Z.shiftr c 6) 0x3F);
          Z.lor 0x80 (Z.land c 0x3F)]
  else if c <=? 0x10FFFF then
    Some [Z.lor 0xF0 (Z.shiftr c 18); Z.lor 0x80 (Z.land (Z.shiftr c 12) 0x3F);
          Z.lor 0x80 (Z.land (Z.shiftr c 6) 0x3F); Z.lor 0x80 (Z.land c 0x3F)]
  else None.

(** [s.encode('utf-8')]: [None] stands for [UnicodeEncodeError]. *)
Fixpoint encode_utf8 (s : Py.str) : option (list Z) :=
  match s with
  | [] => Some []
  | c :: s' => b ← utf8_char c; bs ← encode_utf8 s'; Some (b ++ bs)
  end.

End Codec.

(** ** Paths ([pathlib.PurePosixPath]) *)

Module Pathlib.

(** An absolute path: its parts below the root. *)
Definition path := list Py.str.

(** [s.split('/')]. *)
Fixpoint split_slash (s : Py.str) : list Py.str :=
  match s with
  | [] => [[]]
  | c :: s' =>
      if c =? 0x2F then [] :: split_slash s'
      else match split_slash s' with
           | w :: ws => (c :: w) :: ws
           | [] => [[c]]
           end
  end.

(** The parts a string contributes: empty parts and [.] are dropped,
    [..] is kept. *)
Definition parts_of (s : Py.str) : list Py.str :=
  filter (fun w => w ≠ [] ∧ w ≠ Py.lit ".") (split_slash s).

(** [p / s]: a string that starts with a separator is absolute and
    replaces [p]. *)
Definition truediv (p : path) (s : Py.str) : path :=
  if Py.startswith [0x2F] s then parts_of s else p ++ parts_of s.

(** [p.parent] and [p.name] (lexical). *)
Definition parent (p : path) : path := removelast p.
Definition name (p : path) : Py.str := List.last p [].

End Pathlib.

Abbreviation path := Pathlib.path.
Infix "//" := Pathlib.truediv (at level 40, left associativity).

(** ** The world: filesystem and standard output *)

Inductive node :=
  | File (data : list Z)
  | Dir.

#[global] Instance node_eq_dec : EqDecision node.
Proof. solve_decision. Defined.

(** What the two programs print. *)
Inductive event :=
  | ErrorDetecting (file_path : path)
  | Attempting (filename : Py.str)
  | FixedFilename (filename new_filename : Py.str)
  | ErrorRenaming (filename : Py.str)
  | FailedConversion (from_enc : string) (filename : Py.str)
  | CouldNotFix (filename : Py.str)
  | FixedContent (name : Py.str) (detected : string)
  | ErrorFixingContent (file_path : path)
  | TargetExists (new_name : Py.str)
  | FixedItem (is_directory : bool) (original_name new_name : Py.str)
  | ErrorRenamingItem (is_directory : bool) (original_name : Py.str).

(** The filesystem maps resolved paths (no [..]) to nodes; the root is a
    directory and has no entry of its own.  [denied] lists the directories
    whose entries the process may not change and the files it may not
    open.  [renames] records every [rename] call issued, oldest first,
    and [stdout] every line printed. *)
Record world := World {
  fs : gmap path node;
  denied : gset path;
  renames : list (path * path);
  stdout : list event;
}.

Module Os.

(** The node at a resolved path. *)
Definition node_at (m : gmap path node) (q : path) : option node :=
  match q with
  | [] => Some Dir
  | _ => m !! q
  end.

Definition dir_at (m : gmap path node) (q : path) : bool :=
  bool_decide (node_at m q = Some Dir).

(** Path resolution: every part but the last is walked through an
    existing directory, [..] steps back to the parent. *)
Fixpoint resolve (m : gmap path node) (cur : path) (rest : path) : option path :=
  match rest with
  | [] => Some cur
  | c :: rest' =>
      if dir_at m cur then
        if bool_decide (c = Py.lit "..") then resolve m (Pathlib.parent cur) rest'
        else resolve m (cur ++ [c]) rest'
      else None
  end.

(** An embedded NUL is refused before any system call. *)
Definition has_nul (p : path) : bool := existsb (existsb (Z.eqb 0)) p.

Definition stat (w : world) (p : path) : option node :=
  if has_nul p then None
  else q ← resolve (fs w) [] p; node_at (fs w) q.

(** [Path.exists], [Path.is_file], [Path.is_dir]. *)
Definition exists_ (w : world) (p : path) : bool := bool_decide (is_Some (stat w p)).
Definition is_file (w : world) (p : path) : bool :=
  match stat w p with Some (File _) => true | _ => false end.
Definition is_dir (w : world) (p : path) : bool :=
  match stat w p with Some Dir => true | _ => false end.

(** Every entry at or below [s] moves to the same place below [d]. *)
Definition rekey (s d k : path) : path :=
  if bool_decide (s `prefix_of` k) then d ++ drop (length s) k else k.

Definition move (m : gmap path node) (s d : path) : gmap path node :=
  list_to_map ((fun e => (rekey s d e.1, e.2)) <$> map_to_list (delete d m)).

Definition empty_dir (m : gmap path node) (d : path) : bool :=
  forallb (fun e => negb (bool_decide (d `prefix_of` e.1 ∧ d ≠ e.1))) (map_to_list m).

(** The filesystem after [rename(src, dst)], or [None] when the call
    raises.  As in POSIX a file replaces an existing file and a directory
    replaces an existing empty directory; any other existing destination
    is an error. *)
Definition renamed (w : world) (src dst : path) : option (gmap path node) :=
  if has_nul src || has_nul dst then None
  else
    s ← resolve (fs w) [] src;
    d ← resolve (fs w) [] dst;
    n ← fs w !! s;
    if bool_decide (s = [] ∨ d = []) then None
    else if bool_decide (Pathlib.parent s ∈ denied w ∨ Pathlib.parent d ∈ denied w) then None
    else if bool_decide (s = d) then Some (fs w)
    else if bool_decide (s `prefix_of` d) then None
    else match fs w !! d, n with
         | None, _ => Some (move (fs w) s d)
         | Some (File _), File _ => Some (move (fs w) s d)
         | Some Dir, Dir => if empty_dir (fs w) d then Some (move (fs w) s d) else None
         | _, _ => None
         end.

(** [Path.rename]: [true] when it returned, [false] when it raised. *)
Definition rename (src dst : path) (w : world) : bool * world :=
  let w' := World (fs w) (denied w) (renames w ++ [(src, dst)]) (stdout w) in
  match renamed w src dst with
  | Some m => (true, World m (denied w) (renames w') (stdout w))
  | None => (false, w')
  end.

(** [open(p, 'rb').read()]: [None] when the call raises. *)
Definition read_bytes (w : world) (p : path) : option (list Z) :=
  if has_nul p then None
  else q ← resolve (fs w) [] p;
       if bool_decide (q ∈ denied w) then None
       else match node_at (fs w) q with Some (File data) => Some data | _ => None end.

(** [open(p, 'w')] truncates the file or creates it; [None] when it
    raises.  The result is the resolved path, to be written to. *)
Definition open_w (w : world) (p : path) : option path :=
  if has_nul p then None
  else q ← resolve (fs w) [] p;
       if bool_decide (q ∈ denied w) then None
       else match node_at (fs w) q with
            | Some (File _) => Some q
            | Some Dir => None
            | None => if bool_decide (Pathlib.parent q ∈ denied w) then None else Some q
            end.

Definition set_data (q : path) (data : list Z) (w : world) : world :=
  World (<[q := File data]> (fs w)) (denied w) (renames w) (stdout w).

Definition print (e : event) (w : world) : world :=
  World (fs w) (denied w) (renames w) (stdout w ++ [e]).

End Os.

(** ** Methods as state transformers *)

Definition M (S A : Type) : Type := S -> A * S.

Definition ret {S A} (a : A) : M S A := fun s => (a, s).

Definition bind {S A B} (m : M S A) (k : A -> M S B) : M S B :=
  fun s => let (a, s') := m s in k a s'.

Notation "'let!' x := m 'in' k" := (bind m (fun x => k))
  (at level 10, x name, m at level 200, k at level 200, only parsing).
Notation "'let!' '_' := m 'in' k" := (bind m (fun _ => k))
  (at level 10, m at level 200, k at level 200, only parsing).

(** A method runs on the object and the world. *)
Definition on_world {O A} (f : world -> A * world) : M (O * world) A :=
  fun s => let (a, w') := f s.2 in (a, (s.1, w')).

Definition ask {O A} (f : world -> A) : M (O * world) A :=
  fun s => (f s.2, s).

Definition print {O} (e : event) : M (O * world) unit :=
  fun s => (tt, (s.1, Os.print e s.2)).

Definition update {O} (f : O -> O) : M (O * world) unit :=
  fun s => (tt, (f s.1, s.2)).

(** ** [EncodingFixer] *)

Record EncodingFixer := {
  root_path : path;
  problematic_files : list (path * path);
  encoding_issues : list (path * string * string);
}.

(** The source encodings of [encodings_to_try], in the order of the list. *)
Inductive legacy := latin1 | cp1252 | gbk | gb2312 | big5.

Definition legacy_name (e : legacy) : string :=
  match e with
  | latin1 => "latin1"
  | cp1252 => "cp1252"
  | gbk => "gbk"
  | gb2312 => "gb2312"
  | big5 => "big5"
  end.

Definition encodings_to_try : list legacy := [latin1; cp1252; gbk; gb2312; big5].

(** [is_filename_valid]: [filename.encode('ascii')] does not raise. *)
Definition is_filename_valid (filename : Py.str) : bool := forallb Py.is_ascii filename.

(** The table [mojibake_fixes], in the order the dictionary lists it. *)
Definition mojibake_fixes : list (Py.str * Py.str) :=
  [ ([0xE6; 0x2013; 0x2021; 0xE4; 0xBB; 0xB6], [0x6587; 0x4EF6]);
    ([0xC3; 0xA9], [0xE9]);
    ([0xC3; 0xA8], [0xE8]);
    ([0xC3; 0x20], [0xE0]);
    ([0xC3; 0xB1], [0xF1]);
    ([0xC3; 0xA4], [0xE4]);
    ([0xC3; 0xB6], [0xF6]);
    ([0xC3; 0xBC], [0xFC]) ].

(** The loop over [mojibake_fixes.items()]. *)
Definition apply_fixes (fixes : list (Py.str * Py.str)) (filename : Py.str) : Py.str :=
  foldl (fun new_filename fix_ => Py.replace fix_.1 fix_.2 new_filename) filename fixes.

Definition fix_mojibake (filename : Py.str) : Py.str := apply_fixes mojibake_fixes filename.

(** [str.lower] on an encoding label. *)
Definition lower_ascii (a : Ascii.ascii) : Ascii.ascii :=
  let n := Ascii.nat_of_ascii a in
  if (65 <=? n)%nat && (n <=? 90)%nat then Ascii.ascii_of_nat (n + 32) else a.

Fixpoint lower (s : string) : string :=
  match s with
  | EmptyString => EmptyString
  | String a s' => String (lower_ascii a) (lower s')
  end.

(** Text mode with [newline=None] turns [\r\n] and [\r] into [\n] on
    reading; on writing [\n] becomes the line separator, which for the
    paths modelled here is [\n] itself. *)
Fixpoint universal_newlines (s : Py.str) : Py.str :=
  match s with
  | [] => []
  | c :: s' =>
      if c =? 0x0D then
        0x0A :: match s' with
                | d :: s'' => if d =? 0x0A then universal_newlines s'' else universal_newlines s'
                | [] => []
                end
      else c :: universal_newlines s'
  end.

Section EncodingFixer.

(** What the Python runtime and [chardet] supply: the tables of the three
    double-byte codecs, the codec registry behind [open(..., encoding=_)],
    and the answer [chardet.detect(raw)['encoding']]. *)
Variable gbk_table gb2312_table big5_table : Z -> Z -> option Z.
Variable lookup_codec : string -> option Codec.decoder.
Variable chardet_detect : list Z -> option string.

Definition decoder_of (e : legacy) : Codec.decoder :=
  match e with
  | latin1 => Codec.latin1
  | cp1252 => Codec.cp1252
  | gbk => Codec.dbcs gbk_table
  | gb2312 => Codec.dbcs gb2312_table
  | big5 => Codec.dbcs big5_table
  end.

Definition run := M (EncodingFixer * world).

Definition record_rename (old new : path) (self : EncodingFixer) : EncodingFixer :=
  {| root_path := root_path self;
     problematic_files := problematic_files self ++ [(old, new)];
     encoding_issues := encoding_issues self |}.

Definition record_content (p : path) (old new : string) (self : EncodingFixer) : EncodingFixer :=
  {| root_path := root_path self;
     problematic_files := problematic_files self;
     encoding_issues := encoding_issues self ++ [(p, old, new)] |}.

(** The [try] block around [file_path.rename(new_path)]: [true] when the
    rename went through, [false] when the [except] clause ran. *)
Definition try_rename (file_path new_path : path) (filename new_filename : Py.str) : run bool :=
  let! ok := on_world (Os.rename file_path new_path) in
  if ok then
    let! _ := update (record_rename file_path new_path) in
    let! _ := print (FixedFilename filename new_filename) in
    ret true
  else
    let! _ := print (ErrorRenaming filename) in
    ret false.

(** The loop over [encodings_to_try] and the lines after it. *)
Fixpoint brute_force (encs : list legacy) (file_path : path) : run (option path) :=
  let filename := Pathlib.name file_path in
  match encs with
  | [] => let! _ := print (CouldNotFix filename) in ret None
  | from_enc :: rest =>
      match Codec.encode_latin1 filename with
      | None =>
          let! _ := print (FailedConversion (legacy_name from_enc) filename) in
          brute_force rest file_path
      | Some decoded_bytes =>
          let decoded_name := Codec.decode_ignore (decoder_of from_enc) decoded_bytes in
          let new_path := Pathlib.parent file_path // decoded_name in
          let! taken := ask (fun w => Os.exists_ w new_path) in
          if bool_decide (decoded_name ≠ []) && is_filename_valid decoded_name && negb taken
          then
            let! ok := try_rename file_path new_path filename decoded_name in
            if ok then ret (Some new_path) else brute_force rest file_path
          else brute_force rest file_path
      end
  end.

(** The guard of the loop: the decoded name is not empty, is valid and names
    no existing entry. *)
Definition accepted (w : world) (file_path : path) (decoded_name : Py.str) : bool :=
  bool_decide (decoded_name ≠ []) && is_filename_valid decoded_name
  && negb (Os.exists_ w (Pathlib.parent file_path // decoded_name)).

(** The first candidate of [encs], in the order of the list, that passes
    the guard. *)
Fixpoint first_accepted (w : world) (file_path : path) (encs : list legacy) : option Py.str :=
  match encs with
  | [] => None
  | from_enc :: rest =>
      match Codec.encode_latin1 (Pathlib.name file_path) with
      | Some decoded_bytes =>
          let decoded_name := Codec.decode_ignore (decoder_of from_enc) decoded_bytes in
          if accepted w file_path decoded_name then Some decoded_name
          else first_accepted w file_path rest
      | None => first_accepted w file_path rest
      end
  end.

Definition fix_filename_encoding (file_path : path) : run (option path) :=
  let filename := Pathlib.name file_path in
  if is_filename_valid filename then ret None
  else
    let! _ := print (Attempting filename) in
    let new_filename := fix_mojibake filename in
    let new_path := Pathlib.parent file_path // new_filename in
    let! taken := ask (fun w => Os.exists_ w new_path) in
    if bool_decide (new_filename ≠ filename) && negb taken
    then
      let! ok := try_rename file_path new_path filename new_filename in
      ret (if ok then Some new_path else None)
    else brute_force encodings_to_try file_path.

Definition detect_encoding (file_path : path) : run (option string) :=
  let! raw := ask (fun w => Os.read_bytes w file_path) in
  match raw with
  | None => let! _ := print (ErrorDetecting file_path) in ret None
  | Some raw_data =>
      if bool_decide (raw_data = []) then ret None else ret (chardet_detect raw_data)
  end.

(** The second [try] block of [fix_file_content_encoding]: read with the
    detected encoding, write back as UTF-8. *)
Definition transcode (file_path : path) (detected_encoding : string) : run bool :=
  let! content := ask (fun w =>
      d ← lookup_codec detected_encoding;
      raw ← Os.read_bytes w file_path;
      Some (universal_newlines (Codec.decode_ignore d raw))) in
  match content with
  | None => let! _ := print (ErrorFixingContent file_path) in ret false
  | Some content =>
      let! target := ask (fun w => Os.open_w w file_path) in
      match target with
      | None => let! _ := print (ErrorFixingContent file_path) in ret false
      | Some q =>
          match Codec.encode_utf8 content with
          | None =>
              let! _ := on_world (fun w => (tt, Os.set_data q [] w)) in
              let! _ := print (ErrorFixingContent file_path) in
              ret false
          | Some out =>
              let! _ := on_world (fun w => (tt, Os.set_data q out w)) in
              let! _ := update (record_content file_path detected_encoding "utf-8") in
              let! _ := print (FixedContent (Pathlib.name file_path) detected_encoding) in
              ret true
          end
      end
  end.

Definition fix_file_content_encoding (file_path : path) : run bool :=
  let! is_file := ask (fun w => Os.is_file w file_path) in
  if negb is_file then ret false
  else
    let! sample := ask (fun w => take 1024 <$> Os.read_bytes w file_path) in
    match sample with
    | None => ret false
    | Some sample =>
        if bool_decide (0 ∈ sample) then ret false
        else
          let! detected_encoding := detect_encoding file_path in
          match detected_encoding with
          | None => ret false
          | Some enc =>
              if bool_decide (enc = "") || bool_decide (lower enc = "utf-8") then ret false
              else transcode file_path enc
          end
    end.

End EncodingFixer.

(** ** [UnicodeFilenameFixer] *)

Record UnicodeFilenameFixer := {
  fixer_root : path;
  fixed_files : list (path * path);
}.

Definition record_fixed (old new : path) (self : UnicodeFilenameFixer) : UnicodeFilenameFixer :=
  {| fixer_root := fixer_root self; fixed_files := fixed_files self ++ [(old, new)] |}.

Definition fix_pathname (p : path) : M (UnicodeFilenameFixer * world) bool :=
  let original_name := Pathlib.name p in
  if negb (Escape.has_escape original_name) then ret false
  else
    let new_name := Escape.decode_unicode_escape original_name in
    if bool_decide (new_name = original_name) then ret false
    else
      let new_path := Pathlib.parent p // new_name in
      let! taken := ask (fun w => Os.exists_ w new_path) in
      if taken then let! _ := print (TargetExists new_name) in ret false
      else
        let! ok := on_world (Os.rename p new_path) in
        if ok then
          let! _ := update (record_fixed p new_path) in
          let! is_directory := ask (fun w => Os.is_dir w p) in
          let! _ := print (FixedItem is_directory original_name new_name) in
          ret true
        else
          let! is_directory := ask (fun w => Os.is_dir w p) in
          let! _ := print (ErrorRenamingItem is_directory original_name) in
          ret false.

Definition fix_filename (file_path : path) : M (UnicodeFilenameFixer * world) bool :=
  fix_pathname file_path.

(** ** Walking a directory tree ([os.walk]) *)

Module Walk.

(** [s.rfind(c)]: the index of the last occurrence. *)
Fixpoint rfind (c : Z) (s : Py.str) : option nat :=
  match s with
  | [] => None
  | x :: s' =>
      match rfind c s' with
      | Some i => Some (S i)
      | None => if x =? c then Some 0%nat else None
      end
  end.

(** [p.suffix]: the name from its last dot on, when that dot is neither
    the first nor the last character. *)
Definition suffix (p : path) : Py.str :=
  let name := Pathlib.name p in
  match rfind 0x2E name with
  | Some i => if (0 <? i)%nat && (i <? length name - 1)%nat then drop i name else []
  | None => []
  end.

(** [s.lower() == '.txt']: the only characters that [str.lower] maps to
    [t] and [x] are those letters and their capitals. *)
Definition lower_is_txt (s : Py.str) : bool :=
  match s with
  | [c0; c1; c2; c3] =>
      (c0 =? 0x2E) && ((c1 =? 0x74) || (c1 =? 0x54))
      && ((c2 =? 0x78) || (c2 =? 0x58)) && ((c3 =? 0x74) || (c3 =? 0x54))
  | _ => false
  end.

(** The entries of the directory at the resolved path [q]: name and node. *)
Definition entries (m : gmap path node) (q : path) : list (Py.str * node) :=
  omap (fun e => if bool_decide (e.1 ≠ [] ∧ Pathlib.parent e.1 = q)
                 then Some (Pathlib.name e.1, e.2) else None)
       (map_to_list m).

(** What [os.scandir(top)] gives [os.walk]: the entries, in the order
    the system lists them; an [OSError], which [os.walk] swallows; or the
    [ValueError] for an embedded NUL, which it does not. *)
Inductive listing :=
  | Listed (l : list (Py.str * node))
  | NotListed
  | BadPath.

Definition scandir (order : list (Py.str * node) -> list (Py.str * node))
    (w : world) (top : path) : listing :=
  if Os.has_nul top then BadPath
  else match Os.resolve (fs w) [] top with
       | Some q => if Os.dir_at (fs w) q then Listed (order (entries (fs w) q)) else NotListed
       | None => NotListed
       end.

Definition is_dir_node (n : node) : bool := match n with Dir => true | File _ => false end.

(** The lists [dirs] and [files] of one step of the walk. *)
Definition dirs_of (l : list (Py.str * node)) : list Py.str :=
  fst <$> List.filter (fun e => is_dir_node e.2) l.
Definition files_of (l : list (Py.str * node)) : list Py.str :=
  fst <$> List.filter (fun e => negb (is_dir_node e.2)) l.

(** How a walk ends: it went through the tree, an exception left it, or
    the bound on its depth was reached. *)
Inductive outcome := Completed | Raised | Exhausted.

Section Walk.

Context {S : Type}.

(** The order in which the system lists a directory. *)
Variable order : list (Py.str * node) -> list (Py.str * node).

(** The body of the [for root, dirs, files in os.walk(...)] loop.  It
    returns the list [dirs] as it leaves it, which is where the walk goes
    next; [None] when it raises. *)
Variable body : path -> list Py.str -> list Py.str -> M (S * world) (option (list Py.str)).

(** [for dirname in dirs: yield from walk(join(top, dirname))]. *)
Fixpoint descend (visit : path -> M (S * world) outcome) (top : path) (dirs : list Py.str)
    : M (S * world) outcome :=
  match dirs with
  | [] => ret Completed
  | dirname :: rest =>
      let! o := visit (top // dirname) in
      match o with
      | Completed => descend visit top rest
      | _ => ret o
      end
  end.

(** The top-down walk: a directory is listed when the walk reaches it,
    the body runs on the listing, and the walk goes into the directories
    the body left in [dirs].  [depth] bounds the nesting. *)
Fixpoint walk (depth : nat) (top : path) : M (S * world) outcome :=
  match depth with
  | O => ret Exhausted
  | Datatypes.S depth' =>
      let! found := ask (fun w => scandir order w top) in
      match found with
      | BadPath => ret Raised
      | NotListed => ret Completed
      | Listed l =>
          let! dirs := body top (dirs_of l) (files_of l) in
          match dirs with
          | None => ret Raised
          | Some dirs => descend (walk depth') top dirs
          end
      end
  end.

End Walk.

End Walk.

(** ** The scans *)

(** The lines the scans print themselves. *)
Inductive line :=
  | ScanningDirectory (scan_path : path)
  | Dashes (n : nat)
  | FoundProblematic (file_path : path)
  | Equals (n : nat)
  | ScanCompleted
  | FixedFilenames (n : nat)
  | FixedContents (n : nat)
  | RenamedLine (old new : path)
  | ContentLine (file_path : path) (old_enc new_enc : string)
  | NoIssuesFound
  | ScanningForEscapes (scan_path : path)
  | ItemsProcessed (n : nat)
  | ItemsFixed (n : nat)
  | FixedItems
  | NoEscapesFound.

(** The local state of a scan: its two counters (used by
    [scan_and_fix_directory] only) and the lines it has printed, each
    with the number of lines the methods had printed before it, which is
    its place in the output. *)
Record locals := Locals {
  items_processed : nat;
  items_fixed : nat;
  report : list (nat * line);
}.

Definition scanning (O : Type) := M ((locals * O) * world).

(** A method call inside a scan. *)
Definition call {O A} (m : M (O * world) A) : scanning O A :=
  fun s => let '(a, (o, w)) := m (s.1.2, s.2) in (a, ((s.1.1, o), w)).

Definition say {O} (l : line) : scanning O unit :=
  fun s =>
    let loc := s.1.1 in
    (tt, ((Locals (items_processed loc) (items_fixed loc)
                  (report loc ++ [(length (stdout s.2), l)]), s.1.2), s.2)).

Definition self_ {O} : scanning O O := fun s => (s.1.2, s).

Definition local_ {O} : scanning O locals := fun s => (s.1.1, s).

Definition count_processed {O} : scanning O unit :=
  fun s =>
    let loc := s.1.1 in
    (tt, ((Locals (Datatypes.S (items_processed loc)) (items_fixed loc) (report loc), s.1.2), s.2)).

Definition count_fixed {O} : scanning O unit :=
  fun s =>
    let loc := s.1.1 in
    (tt, ((Locals (items_processed loc) (Datatypes.S (items_fixed loc)) (report loc), s.1.2), s.2)).

(** [for x in l: body(x)]. *)
Fixpoint for_each {S A} (f : A -> M S unit) (l : list A) : M S unit :=
  match l with
  | [] => ret tt
  | x :: l' => let! _ := f x in for_each f l'
  end.

(** [Path(target_path) if target_path else self.root_path]; a relative
    path is taken from the root. *)
Definition scan_path_of (target_path : option Py.str) (root : path) : path :=
  match target_path with
  | Some (c :: s) => [] // (c :: s)
  | _ => root
  end.

Section ScanDirectory.

Variable gbk_table gb2312_table big5_table : Z -> Z -> option Z.
Variable lookup_codec : string -> option Codec.decoder.
Variable chardet_detect : list Z -> option string.
Variable order : list (Py.str * node) -> list (Py.str * node).

(** The body of the loop over [files] in [EncodingFixer.scan_directory]. *)
Definition scan_file (root : path) (filename : Py.str) : scanning EncodingFixer unit :=
  let file_path := root // filename in
  let! _ :=
    if negb (is_filename_valid filename) then
      let! _ := say (FoundProblematic file_path) in
      let! _ := call (fix_filename_encoding gbk_table gb2312_table big5_table file_path) in
      ret tt
    else ret tt in
  if Walk.lower_is_txt (Walk.suffix file_path) then
    let! _ := call (fix_file_content_encoding lookup_codec chardet_detect file_path) in
    ret tt
  else ret tt.

Definition scan_directory_body (root : path) (dirs files : list Py.str)
    : scanning EncodingFixer (option (list Py.str)) :=
  let! _ := for_each (scan_file root) files in
  ret (Some dirs).

(** The lines after the walk. *)
Definition scan_directory_summary : scanning EncodingFixer unit :=
  let! _ := say (Equals 50) in
  let! _ := say ScanCompleted in
  let! self := self_ in
  let! _ :=
    match problematic_files self with
    | [] => ret tt
    | _ :: _ =>
        let! _ := say (FixedFilenames (length (problematic_files self))) in
        for_each (fun e => say (RenamedLine e.1 e.2)) (problematic_files self)
    end in
  let! _ :=
    match encoding_issues self with
    | [] => ret tt
    | _ :: _ =>
        let! _ := say (FixedContents (length (encoding_issues self))) in
        for_each (fun e => say (ContentLine e.1.1 e.1.2 e.2)) (encoding_issues self)
    end in
  match problematic_files self, encoding_issues self with
  | [], [] => say NoIssuesFound
  | _, _ => ret tt
  end.

(** [EncodingFixer.scan_directory]: how the walk ended and the lines the
    scan printed.  An exception leaves the method before the summary. *)
Definition scan_directory (depth : nat) (target_path : option Py.str)
    : M (EncodingFixer * world) (Walk.outcome * list (nat * line)) :=
  fun s =>
    let scan_path := scan_path_of target_path (root_path s.1) in
    let run : scanning EncodingFixer Walk.outcome :=
      let! _ := say (ScanningDirectory scan_path) in
      let! _ := say (Dashes 50) in
      let! o := Walk.walk order scan_directory_body depth scan_path in
      match o with
      | Walk.Completed => let! _ := scan_directory_summary in ret o
      | _ => ret o
      end in
    let '(o, ((loc, self), w)) := run ((Locals 0 0 [], s.1), s.2) in
    ((o, report loc), (self, w)).

End ScanDirectory.

Section ScanAndFix.

Variable order : list (Py.str * node) -> list (Py.str * node).

(** [dirs.index(dirname)]: [None] stands for [ValueError]. *)
Fixpoint index (x : Py.str) (l : list Py.str) : option nat :=
  match l with
  | [] => None
  | y :: l' => if bool_decide (y = x) then Some 0%nat else Datatypes.S <$> index x l'
  end.

(** [for dirname in dirs[:]]: [todo] is what is left of the copy, [dirs]
    the list that is updated in place. *)
Fixpoint fix_folders_loop (root : path) (todo dirs : list Py.str)
    : scanning UnicodeFilenameFixer (option (list Py.str)) :=
  match todo with
  | [] => ret (Some dirs)
  | dirname :: todo' =>
      let dir_path := root // dirname in
      let! _ := count_processed in
      let! fixed := call (fix_pathname dir_path) in
      if fixed then
        let! _ := count_fixed in
        match index dirname dirs with
        | Some i =>
            fix_folders_loop root todo' (<[i := Escape.decode_unicode_escape dirname]> dirs)
        | None => ret None
        end
      else fix_folders_loop root todo' dirs
  end.

Definition fix_file_item (root : path) (filename : Py.str) : scanning UnicodeFilenameFixer unit :=
  let file_path := root // filename in
  let! _ := count_processed in
  let! fixed := call (fix_pathname file_path) in
  if fixed then count_fixed else ret tt.

Definition scan_and_fix_body (fix_folders : bool) (root : path) (dirs files : list Py.str)
    : scanning UnicodeFilenameFixer (option (list Py.str)) :=
  let! dirs' := if fix_folders then fix_folders_loop root dirs dirs else ret (Some dirs) in
  match dirs' with
  | None => ret None
  | Some dirs' =>
      let! _ := for_each (fix_file_item root) files in
      ret (Some dirs')
  end.

Definition scan_and_fix_summary : scanning UnicodeFilenameFixer unit :=
  let! _ := say (Equals 60) in
  let! _ := say ScanCompleted in
  let! loc := local_ in
  let! _ := say (ItemsProcessed (items_processed loc)) in
  let! _ := say (ItemsFixed (items_fixed loc)) in
  let! self := self_ in
  match fixed_files self with
  | [] => say NoEscapesFound
  | _ :: _ =>
      let! _ := say FixedItems in
      for_each (fun e => say (RenamedLine e.1 e.2)) (fixed_files self)
  end.

(** [UnicodeFilenameFixer.scan_and_fix_directory]: how the walk ended,
    the two counters and the lines the scan printed. *)
Definition scan_and_fix_directory (depth : nat) (target_path : option Py.str)
    (fix_folders : bool) : M (UnicodeFilenameFixer * world) (Walk.outcome * locals) :=
  fun s =>
    let scan_path := scan_path_of target_path (fixer_root s.1) in
    let run : scanning UnicodeFilenameFixer Walk.outcome :=
      let! _ := say (ScanningForEscapes scan_path) in
      let! _ := say (Dashes 60) in
      let! o := Walk.walk order (scan_and_fix_body fix_folders) depth scan_path in
      match o with
      | Walk.Completed => let! _ := scan_and_fix_summary in ret o
      | _ => ret o
      end in
    let '(o, ((loc, self), w)) := run ((Locals 0 0 [], s.1), s.2) in
    ((o, loc), (self, w)).

End ScanAndFix.

(** ** Vocabulary of the properties *)

(** An escape sequence, [#U] and four hexadecimal digits, begins the
    string; no escape sequence occurs in it. *)
Definition escape_here (s : Py.str) : Prop :=
  exists h1 h2 h3 h4 rest,
    s = 0x23 :: 0x55 :: h1 :: h2 :: h3 :: h4 :: rest /\
    Forall (fun h => is_Some (Escape.hex_val h)) [h1; h2; h3; h4].

Definition escape_free (s : Py.str) : Prop :=
  forall pre post, s = pre ++ post -> ~ escape_here post.

(** No pattern of the table occurs in the name. *)
Definition pattern_free (fixes : list (Py.str * Py.str)) (s : Py.str) : bool :=
  forallb (fun fix_ => negb (Py.contains fix_.1 s)) fixes.

(** No character of [new] occurs in [q]. *)
Definition apart (new q : Py.str) : bool :=
  forallb (fun c => negb (existsb (Z.eqb c) q)) new.

(** The sequence that the rule for [U+00C3 U+00A4] turns into the first
    pattern of the table. *)
Definition latent_pattern : Py.str := [0xE6; 0x2013; 0x2021; 0xC3; 0xA4; 0xBB; 0xB6].

(** Every entry of the filesystem lies in a directory that exists. *)
Definition parents_exist (m : gmap path node) : bool :=
  forallb (fun e => Os.dir_at m (Pathlib.parent e.1)) (map_to_list m).

(** What a method may have done to the filesystem [fs w]: nothing, or one
    rename of [src] to a path at which nothing existed. *)
Definition renamed_at_most (w : world) (src : path) (m' : gmap path node) : Prop :=
  m' = fs w \/ exists dst, Os.exists_ w dst = false /\ Os.renamed w src dst = Some m'.

(** A name as a directory holds it: not empty, no separator, no NUL,
    neither [.] nor [..]. *)
Definition plain (x : Py.str) : bool :=
  bool_decide (x ≠ [] ∧ x ≠ Py.lit "." ∧ x ≠ Py.lit ".." ∧ (0x2F ∉ x) ∧ (0 ∉ x)).

(** Every part of every path of the filesystem is such a name. *)
Definition names_plain (m : gmap path node) : bool :=
  forallb (fun e => forallb plain e.1) (map_to_list m).

(** Where a path leads, whatever the filesystem: [..] steps back. *)
Fixpoint norm (cur rest : path) : path :=
  match rest with
  | [] => cur
  | c :: rest' =>
      if bool_decide (c = Py.lit "..") then norm (Pathlib.parent cur) rest'
      else norm (cur ++ [c]) rest'
  end.

(** The longest path of the filesystem. *)
Definition height (m : gmap path node) : nat :=
  max_list ((fun e => length e.1) <$> map_to_list m).

(** A part as [pathlib] keeps it: not empty, not [.], no separator. *)
Definition part_ok (x : Py.str) : Prop := x ≠ [] ∧ x ≠ Py.lit "." ∧ (0x2F ∉ x).

(** A path the walk can be given: parts as [pathlib] keeps them, and no
    NUL. *)
Definition walkable (top : path) : Prop := Forall part_ok top ∧ Os.has_nul top = false.

(** What a repair of the name of [p] may have done to the filesystem:
    nothing, or one rename of [p] to a new name beside it, at a path at
    which nothing existed. *)
Definition renamed_beside (w : world) (p : path) (m' : gmap path node) : Prop :=
  m' = fs w \/
  exists new_name,
    Os.exists_ w (Pathlib.parent p // new_name) = false /\
    Os.renamed w p (Pathlib.parent p // new_name) = Some m'.

(** Printing lines of the scan touches neither the world nor the object
    nor the counters. *)
Definition quiet {O A} (m : scanning O A) : Prop :=
  forall s, (m s).2.2 = s.2 /\ (m s).2.1.2 = s.1.2 /\
            items_processed (m s).2.1.1 = items_processed s.1.1 /\
            items_fixed (m s).2.1.1 = items_fixed s.1.1.

(** The shape of a filesystem that only files are renamed in: names are
    plain, entries lie in existing directories, and the directories are
    those of [m0]. *)
Definition same_dirs (m0 m : gmap path node) : Prop :=
  names_plain m = true /\ parents_exist m = true /\
  forall k, m !! k = Some Dir <-> m0 !! k = Some Dir.

(** The tally of a scan: the items counted as fixed are the entries
    added to [fixed_files], and each of them was counted as processed. *)
Definition tallied (self0 : UnicodeFilenameFixer) (s : (locals * UnicodeFilenameFixer) * world)
    : Prop :=
  names_plain (fs s.2) = true /\
  (items_fixed s.1.1 <= items_processed s.1.1)%nat /\
  exists added,
    fixed_files s.1.2 = fixed_files self0 ++ added /\ items_fixed s.1.1 = length added.

(** One item of either loop: the counters and the call. *)
Definition item (p : path) : scanning UnicodeFilenameFixer bool :=
  let! _ := count_processed in
  let! fixed := call (fix_pathname p) in
  if fixed then let! _ := count_fixed in ret true else ret false.

(** No name of the filesystem holds an escape sequence. *)
Definition no_escapes (m : gmap path node) : bool :=
  forallb (fun e => forallb (fun x => negb (Escape.has_escape x)) e.1) (map_to_list m).

(** Nothing but the counter of processed items has changed. *)
Definition untouched (self : UnicodeFilenameFixer) (w : world)
    (s : (locals * UnicodeFilenameFixer) * world) : Prop :=
  s.2 = w /\ s.1.2 = self /\ items_fixed s.1.1 = 0%nat.

(** ** A sample environment

    Closed examples need the three parameters filled in.  The double-byte
    tables are left empty: the examples decode only byte strings in which
    no pair is mapped by the runtime's tables either.  The registry knows
    the codecs modelled above.  The detector answers as [chardet] does
    where its answer follows from a rule and not from statistics: a UTF-16
    byte-order mark, and data with neither high bytes nor escape
    sequences; elsewhere it detects nothing. *)

Module Sample.

Definition unmapped : Z -> Z -> option Z := fun _ _ => None.

Definition codecs (enc : string) : option Codec.decoder :=
  let l := lower enc in
  if bool_decide (l = "ascii"%string) then Some Codec.ascii
  else if bool_decide (l = "latin-1"%string \/ l = "iso-8859-1"%string) then Some Codec.latin1
  else if bool_decide (l = "cp1252"%string \/ l = "windows-1252"%string) then Some Codec.cp1252
  else if bool_decide (l = "utf-16"%string) then Some Codec.utf16
  else None.

Definition chardet (raw : list Z) : option string :=
  if (Py.startswith [0xFF; 0xFE] raw && negb (Py.startswith [0xFF; 0xFE; 0; 0] raw))
     || (Py.startswith [0xFE; 0xFF] raw && negb (Py.startswith [0xFE; 0xFF; 0; 0] raw))
  then Some "UTF-16"%string
  else if forallb Py.is_ascii raw && negb (bool_decide (0x1B ∈ raw))
          && negb (Py.contains [0x7E; 0x7B] raw)
  then Some "ascii"%string
  else None.

Definition d : Py.str := Py.lit "d".

Definition tree (entries : list (path * node)) (locked : list path) : world :=
  World (list_to_map entries) (list_to_set locked) [] [].

Definition fixer : EncodingFixer := Build_EncodingFixer [d] [] [].
Definition ufixer : UnicodeFilenameFixer := Build_UnicodeFilenameFixer [d] [].

End Sample.

(** * Properties *)

(** ** The escape decoder *)

Section EscapeFacts.
Import Escape.

Lemma hex_val_range c d : hex_val c = Some d -> 0 <= d <= 15.
Proof.
  unfold hex_val. repeat case_match; intros [= <-]; lia.
Qed.

Lemma is_hex_val c d : hex_val c = Some d -> is_hex c = true.
Proof. intros H. unfold is_hex. rewrite H. reflexivity. Qed.

Lemma sub_from_skip k s : sub_from k s = sub_from 0 (drop k s).
Proof.
  revert k. induction s as [|c s IH]; intros [|k]; try reflexivity.
  simpl. apply IH.
Qed.

Lemma decode_nil : decode_unicode_escape [] = [].
Proof. reflexivity. Qed.

Lemma decode_plain c s :
  match_escape (c :: s) = None ->
  decode_unicode_escape (c :: s) = c :: decode_unicode_escape s.
Proof. intros H. unfold decode_unicode_escape. cbn [sub_from]. rewrite H. reflexivity. Qed.

Lemma decode_escape h1 h2 h3 h4 d1 d2 d3 d4 rest :
  hex_val h1 = Some d1 -> hex_val h2 = Some d2 ->
  hex_val h3 = Some d3 -> hex_val h4 = Some d4 ->
  decode_unicode_escape (0x23 :: 0x55 :: h1 :: h2 :: h3 :: h4 :: rest)
  = (4096 * d1 + 256 * d2 + 16 * d3 + d4) :: decode_unicode_escape rest.
Proof.
  intros H1 H2 H3 H4. unfold decode_unicode_escape.
  pose proof (hex_val_range _ _ H1). pose proof (hex_val_range _ _ H2).
  pose proof (hex_val_range _ _ H3). pose proof (hex_val_range _ _ H4).
  cbn [sub_from]. unfold match_escape.
  cbn [forallb]. rewrite (is_hex_val _ _ H1), (is_hex_val _ _ H2), (is_hex_val _ _ H3), (is_hex_val _ _ H4).
  cbn [andb Z.eqb Pos.eqb].
  unfold replace_unicode_match, int16. cbn [foldl]. rewrite H1, H2, H3, H4. cbn [mbind option_bind].
  unfold Py.chr.
  replace (16 * (16 * (16 * (16 * 0 + d1) + d2) + d3) + d4) with (4096 * d1 + 256 * d2 + 16 * d3 + d4) by lia.
  rewrite andb_true_intro by (split; [apply Z.leb_le | apply Z.leb_le]; lia).
  cbn [app]. f_equal.
Qed.

Lemma decode_no_escape s : has_escape s = false -> decode_unicode_escape s = s.
Proof.
  unfold decode_unicode_escape. induction s as [|c s IH]; [reflexivity|].
  cbn [has_escape sub_from]. intros [Hm Hs]%orb_false_elim.
  apply bool_decide_eq_false in Hm.
  destruct (match_escape (c :: s)) as [g|] eqn:E.
  - exfalso. apply Hm. eauto.
  - f_equal. auto.
Qed.

End EscapeFacts.

(** ** The mojibake table *)

Lemma replace_from_absent old new s :
  Py.contains old s = false -> Py.replace_from old new 0 s = s.
Proof.
  induction s as [|c s IH]; [reflexivity|].
  cbn [Py.contains Py.replace_from]. intros [H1 H2]%orb_false_elim.
  rewrite H1. f_equal. auto.
Qed.

Lemma replace_absent old new s :
  old <> [] -> Py.contains old s = false -> Py.replace old new s = s.
Proof.
  intros Hne H. destruct old as [|a old]; [congruence|].
  apply replace_from_absent, H.
Qed.

Lemma apply_fixes_absent fixes s :
  Forall (fun fix_ => fix_.1 <> []) fixes ->
  pattern_free fixes s = true -> apply_fixes fixes s = s.
Proof.
  unfold apply_fixes. induction fixes as [|f fixes IH]; [reflexivity|].
  intros Hne [H1 H2]%andb_prop. inversion Hne as [|? ? Hf Hne']; subst.
  cbn [foldl]. rewrite replace_absent by (auto using negb_true_iff; now apply negb_true_iff).
  auto.
Qed.

Lemma mojibake_patterns_nonempty : Forall (fun fix_ : Py.str * Py.str => fix_.1 <> []) mojibake_fixes.
Proof. repeat constructor; discriminate. Qed.

Lemma latin1_decode bs : Codec.decode_ignore Codec.latin1 bs = bs.
Proof.
  unfold Codec.decode_ignore. induction bs as [|b bs IH]; [reflexivity|].
  cbn. f_equal. exact IH.
Qed.

Lemma encode_latin1_id s bs : Codec.encode_latin1 s = Some bs -> bs = s.
Proof. unfold Codec.encode_latin1. case_match; congruence. Qed.

(** ** The filesystem interface *)

Lemma stat_ext w1 w2 p : fs w1 = fs w2 -> Os.stat w1 p = Os.stat w2 p.
Proof. unfold Os.stat. intros ->. reflexivity. Qed.

Lemma exists_ext w1 w2 p : fs w1 = fs w2 -> Os.exists_ w1 p = Os.exists_ w2 p.
Proof. unfold Os.exists_. intros H. rewrite (stat_ext _ _ _ H). reflexivity. Qed.

Lemma rename_raised src dst w w' :
  Os.rename src dst w = (false, w') ->
  Os.renamed w src dst = None /\ fs w' = fs w /\ denied w' = denied w /\
  renames w' = renames w ++ [(src, dst)] /\ stdout w' = stdout w.
Proof.
  unfold Os.rename. destruct (Os.renamed w src dst); intros [= <-]. auto.
Qed.

Lemma rename_returned src dst w w' :
  Os.rename src dst w = (true, w') ->
  Os.renamed w src dst = Some (fs w') /\ denied w' = denied w /\
  renames w' = renames w ++ [(src, dst)] /\ stdout w' = stdout w.
Proof.
  unfold Os.rename. destruct (Os.renamed w src dst); intros [= <-]. auto.
Qed.

(** ** Occurrences of a pattern under [str.replace] *)

Section Replace.

Lemma startswith_app p t : Py.startswith p (p ++ t) = true.
Proof. induction p as [|a p IH]; [reflexivity|]. cbn. rewrite Z.eqb_refl. exact IH. Qed.

Lemma startswith_split p s : Py.startswith p s = true -> s = p ++ drop (length p) s.
Proof.
  revert s. induction p as [|a p IH]; intros [|b s]; cbn; try discriminate; try reflexivity.
  intros [->%Z.eqb_eq H]%andb_prop. f_equal. auto.
Qed.

Lemma startswith_cons a p b s :
  Py.startswith (a :: p) (b :: s) = (a =? b) && Py.startswith p s.
Proof. reflexivity. Qed.

Lemma contains_cons q c s : Py.contains q s = true -> Py.contains q (c :: s) = true.
Proof. intros H. cbn [Py.contains]. rewrite H. apply orb_true_r. Qed.

Lemma contains_drop q k s : Py.contains q (drop k s) = true -> Py.contains q s = true.
Proof.
  revert k. induction s as [|c s IH]; intros [|k]; cbn [drop]; auto.
  intros H. apply contains_cons. eauto.
Qed.

Lemma contains_startswith q s : Py.startswith q s = true -> Py.contains q s = true.
Proof. intros H. destruct s; cbn [Py.contains]; rewrite H; reflexivity. Qed.

Lemma contains_unfold q c s :
  Py.contains q (c :: s) = Py.startswith q (c :: s) || Py.contains q s.
Proof. reflexivity. Qed.

Lemma contains_new_app q pre t :
  q <> [] -> Forall (fun c => c ∉ q) pre ->
  Py.contains q (pre ++ t) = true -> Py.contains q t = true.
Proof.
  intros Hq Hpre. induction Hpre as [|c pre Hc Hpre IH]; [auto|].
  cbn [app]. rewrite contains_unfold. intros [H|H]%orb_prop; [|auto].
  destruct q as [|a q]; [congruence|]. cbn in H.
  apply andb_prop in H as [->%Z.eqb_eq _]. exfalso. apply Hc. left.
Qed.

Variables old new : Py.str.
Hypothesis old_nonempty : old <> [].
Hypothesis new_nonempty : new <> [].

Local Abbreviation rep := (Py.replace_from old new).

Lemma replace_from_skip k s : rep k s = rep 0 (drop k s).
Proof.
  revert k. induction s as [|c s IH]; intros [|k]; try reflexivity.
  cbn [Py.replace_from drop]. apply IH.
Qed.

(** A pattern that shares no character with [new] begins in the result
    only where it begins in the text. *)
Lemma startswith_replace q k s :
  Forall (fun c => c ∉ q) new ->
  Py.startswith q (rep k s) = true -> Py.startswith q (drop k s) = true.
Proof.
  intros Hnew. revert k q Hnew.
  induction s as [|c s IH]; intros k q Hnew.
  - destruct k; cbn; auto.
  - destruct k as [|k]; cbn [Py.replace_from drop]; [|apply IH; exact Hnew].
    destruct q as [|a q]; [reflexivity|].
    destruct (Py.startswith old (c :: s)).
    + destruct new as [|r new'] eqn:En; [congruence|].
      cbn [app Py.startswith]. intros [->%Z.eqb_eq _]%andb_prop.
      inversion Hnew as [|? ? Hr _]; subst. exfalso. apply Hr. left.
    + cbn [Py.startswith]. intros [Hac H]%andb_prop. rewrite Hac. cbn [andb].
      apply (IH 0%nat q); [|exact H].
      eapply Forall_impl; [exact Hnew|]. intros x Hx Hin. apply Hx. now right.
Qed.

(** The same for occurrences anywhere. *)
Lemma contains_replace q k s :
  q <> [] -> Forall (fun c => c ∉ q) new ->
  Py.contains q (rep k s) = true -> Py.contains q (drop k s) = true.
Proof.
  intros Hq Hnew. revert k.
  induction s as [|c s IH]; intros k.
  - destruct k; cbn; auto.
  - destruct k as [|k]; cbn [drop]; [|cbn [Py.replace_from]; apply IH].
    intros H.
    assert (Hhead : Py.startswith q (rep 0 (c :: s)) = true -> Py.contains q (c :: s) = true).
    { intros Hs. apply contains_startswith. apply (startswith_replace q 0 (c :: s) Hnew Hs). }
    cbn [Py.replace_from] in H, Hhead.
    destruct (Py.startswith old (c :: s)).
    + apply (contains_new_app q new _ Hq Hnew) in H.
      apply contains_cons. eapply contains_drop. apply IH. exact H.
    + rewrite contains_unfold in H. apply orb_prop in H as [H|H]; [auto|].
      apply contains_cons. apply (IH 0%nat). exact H.
Qed.

(** After the replacement no occurrence of [old] is left, when [new]
    shares no character with it. *)
Lemma startswith_old_replace k s :
  Forall (fun c => c ∉ old) new -> Py.startswith old (rep k s) = false.
Proof.
  intros Hnew. revert k. induction s as [|c s IH]; intros k.
  - destruct k, old; cbn; congruence.
  - destruct k as [|k]; cbn [Py.replace_from]; [|apply IH].
    destruct (Py.startswith old (c :: s)) eqn:Hm.
    + destruct new as [|r new'] eqn:En; [congruence|].
      destruct old as [|a old'] eqn:Eo; [congruence|].
      cbn [app Py.startswith]. apply andb_false_iff. left. apply Z.eqb_neq. intros ->.
      inversion Hnew as [|? ? Hr _]; subst. apply Hr. left.
    + destruct (Py.startswith old (c :: rep 0 s)) eqn:Hs; [|reflexivity].
      assert (Py.startswith old (rep 0 (c :: s)) = true) as Hs'.
      { cbn [Py.replace_from]. rewrite Hm. exact Hs. }
      apply (startswith_replace old 0 (c :: s) Hnew) in Hs'. cbn [drop] in Hs'. congruence.
Qed.

Lemma contains_old_replace k s :
  Forall (fun c => c ∉ old) new -> Py.contains old (rep k s) = false.
Proof.
  intros Hnew. destruct (Py.contains old (rep k s)) eqn:H; [|reflexivity]. exfalso.
  revert k H. induction s as [|c s IH]; intros k H.
  - destruct k, old; cbn in H; congruence.
  - destruct k as [|k]; [|cbn [Py.replace_from] in H; eauto].
    pose proof (startswith_old_replace 0 (c :: s) Hnew) as Hhead.
    cbn [Py.replace_from] in H, Hhead.
    destruct (Py.startswith old (c :: s)).
    + apply (contains_new_app old new _ old_nonempty Hnew) in H. eauto.
    + rewrite contains_unfold, Hhead in H. cbn [orb] in H. eauto.
Qed.

End Replace.

Section ReplaceByOne.

Variable old : Py.str.
Variable r : Z.
Hypothesis old_nonempty : old <> [].

Local Abbreviation rep1 := (Py.replace_from old [r]).

Lemma startswith_app_both p q t : Py.startswith (p ++ q) (p ++ t) = Py.startswith q t.
Proof. induction p as [|a p IH]; [reflexivity|]. cbn. rewrite Z.eqb_refl. exact IH. Qed.

Lemma matched_split c s :
  Py.startswith old (c :: s) = true -> c :: s = old ++ drop (length old - 1) s.
Proof.
  intros H. rewrite (startswith_split _ _ H) at 1. f_equal.
  destruct old as [|a old']; [congruence|]. cbn [length drop Nat.sub].
  rewrite Nat.sub_0_r. reflexivity.
Qed.

(** Where a pattern that holds the new character once begins in the
    result, either it began there in the text or the pattern with [old]
    in place of that character did. *)
Lemma startswith_replace_made q1 q2 k s :
  r ∉ q1 -> r ∉ q2 ->
  Py.startswith (q1 ++ r :: q2) (rep1 k s) = true ->
  Py.startswith (q1 ++ r :: q2) (drop k s) = true \/
  Py.startswith (q1 ++ old ++ q2) (drop k s) = true.
Proof.
  intros H1 H2. revert k q1 H1.
  assert (Hq2 : Forall (fun c => c ∉ q2) [r]) by (repeat constructor; exact H2).
  assert (Hn : [r] <> []) by discriminate.
  induction s as [|c s IH]; intros k q1 H1.
  - destruct k, q1; cbn; discriminate.
  - destruct k as [|k]; cbn [Py.replace_from drop]; [|apply IH; exact H1].
    destruct (Py.startswith old (c :: s)) eqn:Hm.
    + destruct q1 as [|a q1].
      * cbn [app Py.startswith]. intros [_ H]%andb_prop.
        apply (startswith_replace old [r] Hn q2 _ s Hq2) in H.
        right. rewrite (matched_split _ _ Hm), startswith_app_both. exact H.
      * cbn [app Py.startswith]. intros [->%Z.eqb_eq _]%andb_prop.
        exfalso. apply H1. left.
    + destruct q1 as [|a q1].
      * cbn [app Py.startswith]. intros [Hrc H]%andb_prop.
        apply (startswith_replace old [r] Hn q2 0 s Hq2) in H. cbn [drop] in H.
        left. apply andb_true_intro. split; assumption.
      * cbn [app Py.startswith]. intros [Hac H]%andb_prop. rewrite Hac. cbn [andb].
        apply (IH 0%nat q1); [|exact H]. intros Hin. apply H1. now right.
Qed.

Lemma contains_replace_made q1 q2 k s :
  r ∉ q1 -> r ∉ q2 ->
  Py.contains (q1 ++ r :: q2) (rep1 k s) = true ->
  Py.contains (q1 ++ r :: q2) (drop k s) = true \/
  Py.contains (q1 ++ old ++ q2) (drop k s) = true.
Proof.
  intros H1 H2. revert k. induction s as [|c s IH]; intros k.
  - destruct k, q1; cbn; discriminate.
  - destruct k as [|k]; cbn [drop]; [|cbn [Py.replace_from]; apply IH].
    intros H.
    pose proof (startswith_replace_made q1 q2 0 (c :: s) H1 H2) as Hhead.
    cbn [drop] in Hhead.
    assert (Htail : forall k' t, rep1 0 (c :: s) = t :: rep1 k' s ->
              Py.contains (q1 ++ r :: q2) (c :: s) = true \/
              Py.contains (q1 ++ old ++ q2) (c :: s) = true).
    { intros k' t Ht. rewrite Ht, contains_unfold in H. rewrite Ht in Hhead.
      apply orb_prop in H as [H|H].
      - destruct (Hhead H); [left | right]; now apply contains_startswith.
      - destruct (IH _ H) as [H'|H']; [left | right];
          apply contains_cons; exact (contains_drop _ _ _ H'). }
    cbn [Py.replace_from] in Htail.
    destruct (Py.startswith old (c :: s)); eapply Htail; reflexivity.
Qed.

End ReplaceByOne.

(** The three ways an occurrence stays absent through one replacement. *)

Lemma apart_spec new q : apart new q = true -> Forall (fun c => c ∉ q) new.
Proof.
  unfold apart. rewrite forallb_forall, Forall_forall. intros H c Hc Hin.
  apply list_elem_of_In in Hc, Hin.
  specialize (H c Hc). apply negb_true_iff in H.
  assert (existsb (Z.eqb c) q = true); [|congruence].
  apply existsb_exists. exists c. split; [exact Hin | apply Z.eqb_refl].
Qed.

Lemma absent_kept old new q s :
  old <> [] -> new <> [] -> q <> [] -> apart new q = true ->
  Py.contains q s = false -> Py.contains q (Py.replace old new s) = false.
Proof.
  intros Ho Hn Hq Ha Hs. destruct old as [|a old']; [congruence|]. cbn [Py.replace].
  destruct (Py.contains q (Py.replace_from _ _ _ _)) eqn:H; [|reflexivity].
  apply (contains_replace _ _ Hn q 0 s Hq (apart_spec _ _ Ha)) in H. rewrite drop_0 in H. congruence.
Qed.

Lemma absent_after old new s :
  old <> [] -> new <> [] -> apart new old = true ->
  Py.contains old (Py.replace old new s) = false.
Proof.
  intros Ho Hn Ha. destruct old as [|a old'] eqn:E; [congruence|]. cbn [Py.replace].
  rewrite <- E in *. apply (contains_old_replace old new Ho Hn). apply apart_spec, Ha.
Qed.

Lemma absent_unless_made old r q1 q2 s :
  old <> [] -> apart [r] q1 = true -> apart [r] q2 = true ->
  Py.contains (q1 ++ r :: q2) s = false ->
  Py.contains (q1 ++ old ++ q2) s = false ->
  Py.contains (q1 ++ r :: q2) (Py.replace old [r] s) = false.
Proof.
  intros Ho H1%apart_spec H2%apart_spec Hs Hx.
  assert (Hr1 : r ∉ q1) by (inversion H1; assumption).
  assert (Hr2 : r ∉ q2) by (inversion H2; assumption).
  assert (Hrep : Py.replace old [r] s = Py.replace_from old [r] 0 s)
    by (destruct old; [congruence | reflexivity]).
  rewrite Hrep.
  destruct (Py.contains _ (Py.replace_from _ _ _ _)) eqn:H; [|reflexivity].
  apply (contains_replace_made old r Ho q1 q2 0 s Hr1 Hr2) in H.
  rewrite drop_0 in H. destruct H; congruence.
Qed.

Lemma fix_mojibake_leaves_no_pattern name :
  Py.contains latent_pattern name = false ->
  pattern_free mojibake_fixes (fix_mojibake name) = true.
Proof.
  intros HX. unfold fix_mojibake, apply_fixes, mojibake_fixes, pattern_free.
  cbn [foldl forallb fst snd].
  set (p1 := [0xE6; 0x2013; 0x2021; 0xE4; 0xBB; 0xB6]).
  repeat match goal with
         | |- _ && _ = true => apply andb_true_intro; split
         | |- negb _ = true => apply negb_true_iff
         end; try reflexivity.
  all: repeat first
    [ apply absent_after; [discriminate | discriminate | reflexivity]
    | apply absent_kept; [discriminate | discriminate | discriminate | reflexivity |]
    | apply (absent_unless_made [0xC3; 0xA4] 0xE4 [0xE6; 0x2013; 0x2021] [0xBB; 0xB6]);
      [discriminate | reflexivity | reflexivity | |] ].
  all: exact HX.
Qed.

Section EscapeSpec.
Import Escape.

Lemma is_hex_spec h : is_hex h = true <-> is_Some (hex_val h).
Proof. unfold is_hex. apply bool_decide_eq_true. Qed.

Lemma match_escape_here s : is_Some (match_escape s) <-> escape_here s.
Proof.
  unfold match_escape, escape_here. split.
  - intros [g Hg].
    destruct s as [|c0 [|c1 [|h1 [|h2 [|h3 [|h4 rest]]]]]]; try discriminate Hg.
    destruct (_ && _ && _) eqn:E in Hg; [|discriminate Hg].
    cbn [forallb] in E. rewrite !andb_true_iff, !Z.eqb_eq, !is_hex_spec in E.
    destruct E as [[-> ->] (? & ? & ? & ? & _)].
    exists h1, h2, h3, h4, rest. split; [reflexivity|]. repeat constructor; assumption.
  - intros (h1 & h2 & h3 & h4 & rest & -> & H).
    apply Forall_cons in H as [H1 H]. apply Forall_cons in H as [H2 H].
    apply Forall_cons in H as [H3 H]. apply Forall_cons in H as [H4 _].
    apply is_hex_spec in H1, H2, H3, H4.
    cbn [forallb]. rewrite H1, H2, H3, H4. cbn. eauto.
Qed.

Lemma match_escape_none s : match_escape s = None <-> ~ escape_here s.
Proof.
  rewrite <- match_escape_here. destruct (match_escape s) as [g|].
  - split; [discriminate | intros H; exfalso; apply H; eauto].
  - split; [intros _ [? ?]; discriminate | reflexivity].
Qed.

Lemma has_escape_free s : has_escape s = false <-> escape_free s.
Proof.
  unfold escape_free. induction s as [|c s IH].
  - split; [|reflexivity]. intros _ pre post Hs.
    symmetry in Hs. apply app_eq_nil in Hs as [_ ->].
    intros (h1 & h2 & h3 & h4 & rest & [=] & _).
  - cbn [has_escape]. rewrite orb_false_iff, bool_decide_eq_false, match_escape_here, IH.
    split.
    + intros [Hhere Hrest] [|a pre] post Hs.
      * cbn in Hs. subst post. exact Hhere.
      * cbn in Hs. injection Hs as -> ->. eapply Hrest. reflexivity.
    + intros H. split.
      * apply (H [] (c :: s)). reflexivity.
      * intros pre post ->. apply (H (c :: pre) post). reflexivity.
Qed.

End EscapeSpec.

(** ** Path repair in [EncodingFixer] *)

Lemma renamed_ext w1 w2 src dst :
  fs w1 = fs w2 -> denied w1 = denied w2 -> Os.renamed w1 src dst = Os.renamed w2 src dst.
Proof. unfold Os.renamed. intros -> ->. reflexivity. Qed.

(** [fix_pathname], with the state written out. *)
Lemma fix_pathname_unfold p self w :
  fix_pathname p (self, w) =
  let original_name := Pathlib.name p in
  if negb (Escape.has_escape original_name) then (false, (self, w))
  else
    let new_name := Escape.decode_unicode_escape original_name in
    if bool_decide (new_name = original_name) then (false, (self, w))
    else
      let new_path := Pathlib.parent p // new_name in
      if Os.exists_ w new_path then (false, (self, Os.print (TargetExists new_name) w))
      else
        match Os.rename p new_path w with
        | (true, w1) =>
            (true, (record_fixed p new_path self,
                    Os.print (FixedItem (Os.is_dir w1 p) original_name new_name) w1))
        | (false, w1) =>
            (false, (self, Os.print (ErrorRenamingItem (Os.is_dir w1 p) original_name) w1))
        end.
Proof.
  unfold fix_pathname. cbv zeta.
  destruct (negb _); [reflexivity|].
  destruct (bool_decide _); [reflexivity|].
  unfold bind at 1, ask at 1. cbn [snd].
  destruct (Os.exists_ w _); [reflexivity|].
  unfold bind at 1, on_world at 1. cbn [snd fst].
  destruct (Os.rename _ _ w) as [[|] w1]; reflexivity.
Qed.

(** The rename calls of [fix_pathname]: at most one, to a path where
    nothing existed; without a rename that went through the filesystem
    and the object stay as they were. *)
Lemma fix_pathname_trace p self w :
  let r := fix_pathname p (self, w) in
  exists calls,
    renames r.2.2 = renames w ++ calls /\
    Forall (fun c => c.1 = p /\ Os.exists_ w c.2 = false) calls /\
    (r.1 = false -> fs r.2.2 = fs w /\ r.2.1 = self).
Proof.
  intros r. subst r. rewrite fix_pathname_unfold. cbv zeta.
  destruct (negb _); [exists []; cbn; rewrite app_nil_r; auto|].
  destruct (bool_decide _); [exists []; cbn; rewrite app_nil_r; auto|].
  destruct (Os.exists_ w _) eqn:Hex; [exists []; cbn; rewrite app_nil_r; auto|].
  destruct (Os.rename _ _ w) as [[|] w1] eqn:Hr.
  - apply rename_returned in Hr as (Hfs & Hden & Hren & Hout).
    eexists [_]. cbn. split; [exact Hren|]. split; [|discriminate].
    constructor; [|constructor]. auto.
  - apply rename_raised in Hr as (Hnone & Hfs & Hden & Hren & Hout).
    eexists [_]. cbn. split; [exact Hren|]. split; [|auto].
    constructor; [|constructor]. auto.
Qed.

(** ** Renaming to a free path keeps every other entry *)

(** In a filesystem where [parents_exist] holds, every proper ancestor of
    an entry is a directory. *)
Lemma parent_exists m k n :
  parents_exist m = true -> m !! k = Some n ->
  Os.node_at m (Pathlib.parent k) = Some Dir.
Proof.
  unfold parents_exist. rewrite forallb_forall. intros H Hk.
  assert (Hin : In (k, n) (map_to_list m))
    by (apply list_elem_of_In, elem_of_map_to_list, Hk).
  specialize (H _ Hin). cbn in H. unfold Os.dir_at in H.
  apply bool_decide_eq_true in H. exact H.
Qed.

Lemma ancestors_exist m d suffix : forall n,
  parents_exist m = true -> suffix <> [] -> m !! (d ++ suffix) = Some n ->
  Os.node_at m d = Some Dir.
Proof.
  induction suffix as [|x suffix IH] using rev_ind; intros n Hm Hne Hk; [congruence|].
  pose proof (parent_exists _ _ _ Hm Hk) as Hp.
  unfold Pathlib.parent in Hp. rewrite app_assoc, removelast_last in Hp.
  destruct suffix as [|y suffix]; [rewrite app_nil_r in Hp; exact Hp|].
  apply (IH Dir Hm); [discriminate|].
  destruct d; exact Hp.
Qed.

Lemma node_at_none m d : ~ is_Some (Os.node_at m d) -> d <> [] /\ m !! d = None.
Proof.
  destruct d as [|c d]; cbn [Os.node_at]; intros H.
  - exfalso. apply H. eauto.
  - split; [discriminate|]. apply eq_None_not_Some, H.
Qed.

Lemma lookup_agree (m : gmap path node) k a b :
  m !! k = Some a -> m !! k = Some b -> a = b.
Proof. intros H1 H2. rewrite H1 in H2. injection H2 as ->. reflexivity. Qed.

Lemma lookup_absent (m : gmap path node) k a :
  m !! k = Some a -> m !! k = None -> False.
Proof. intros H1 H2. rewrite H1 in H2. discriminate H2. Qed.

(** A rename that goes through to a path at which nothing existed is a
    [move] to a key the filesystem does not have. *)
Lemma renamed_free_moves w src dst m' s :
  Os.exists_ w dst = false ->
  Os.renamed w src dst = Some m' ->
  Os.resolve (fs w) [] src = Some s ->
  exists d, d <> [] /\ fs w !! d = None /\ m' = Os.move (fs w) s d.
Proof.
  unfold Os.renamed, Os.exists_, Os.stat. intros Hfree%bool_decide_eq_false_1 Hren Hs.
  revert Hren Hfree. rewrite Hs. unfold mbind, option_bind.
  repeat (case_match; try (intros [=]; fail)).
  all: intros [= <-] Hfree.
  all: try (match goal with H : _ || _ = false |- _ =>
              apply orb_false_elim in H as [? ?]; congruence end).
  all: apply node_at_none in Hfree as [Hne Hd].
  all: try (exfalso; match goal with
              | H : bool_decide (_ = _) = true, H1 : _ !! _ = Some _ |- _ =>
                  apply bool_decide_eq_true in H; rewrite H in H1;
                  exact (lookup_absent _ _ _ H1 Hd)
              end).
  all: try congruence.
  all: eauto.
Qed.

(** Such a rename keeps every entry that is not at or below the source:
    nothing is replaced and nothing is merged. *)
Lemma renamed_keeps_others w src dst m' s k n :
  parents_exist (fs w) = true ->
  Os.exists_ w dst = false ->
  Os.renamed w src dst = Some m' ->
  Os.resolve (fs w) [] src = Some s ->
  fs w !! k = Some n -> ~ s `prefix_of` k ->
  m' !! k = Some n.
Proof.
  intros Hwf Hfree Hren Hs Hk Hout.
  destruct (renamed_free_moves _ _ _ _ _ Hfree Hren Hs) as (d & Hne & Hd & ->).
  unfold Os.move. rewrite delete_id by exact Hd.
  apply elem_of_list_to_map_1'.
  - intros y [[k' y'] [Heq Hin]]%list_elem_of_fmap. cbn in Heq. injection Heq as Hkey ->.
    apply elem_of_map_to_list in Hin. unfold Os.rekey in Hkey.
    destruct (bool_decide (s `prefix_of` k')); [|subst k'; exact (lookup_agree _ _ _ _ Hk Hin)].
    exfalso. subst k.
    destruct (drop (length s) k') as [|x suffix] eqn:Hsuf.
    + rewrite app_nil_r in Hk. exact (lookup_absent _ _ _ Hk Hd).
    + pose proof (ancestors_exist (fs w) d (x :: suffix) n Hwf ltac:(discriminate) Hk) as Hdir.
      destruct d as [|c d]; [congruence|]. cbn [Os.node_at] in Hdir.
      exact (lookup_absent _ _ _ Hdir Hd).
  - apply list_elem_of_fmap. exists (k, n). split.
    + cbn. unfold Os.rekey. rewrite bool_decide_eq_false_2 by exact Hout. reflexivity.
    + apply elem_of_map_to_list, Hk.
Qed.

Lemma renamed_resolves w src dst m' :
  Os.renamed w src dst = Some m' -> is_Some (Os.resolve (fs w) [] src).
Proof.
  unfold Os.renamed. destruct (_ || _); [discriminate|].
  destruct (Os.resolve (fs w) [] src); [eauto|discriminate].
Qed.

Lemma renamed_at_most_frame w src m' k n :
  parents_exist (fs w) = true ->
  renamed_at_most w src m' ->
  fs w !! k = Some n ->
  (forall s, Os.resolve (fs w) [] src = Some s -> ~ s `prefix_of` k) ->
  m' !! k = Some n.
Proof.
  intros Hwf [-> | (dst & Hfree & Hren)] Hk Hout; [exact Hk|].
  destruct (renamed_resolves _ _ _ _ Hren) as [s Hs].
  eapply renamed_keeps_others; eauto.
Qed.

(** The filesystem after [fix_pathname]: as it was, or with the entry
    renamed once to a path at which nothing existed. *)
Lemma fix_pathname_renames_at_most p self w :
  renamed_at_most w p (fs (fix_pathname p (self, w)).2.2).
Proof.
  rewrite fix_pathname_unfold. cbv zeta.
  destruct (negb _); [left; reflexivity|].
  destruct (bool_decide _); [left; reflexivity|].
  destruct (Os.exists_ w _) eqn:Hex; [left; reflexivity|].
  destruct (Os.rename _ _ w) as [[|] w1] eqn:Hr.
  - apply rename_returned in Hr as (Hfs & _). right. eauto.
  - apply rename_raised in Hr as (_ & Hfs & _). left. exact Hfs.
Qed.

Section PathRepair.

Variable gbk_table gb2312_table big5_table : Z -> Z -> option Z.

Local Abbreviation brute := (brute_force gbk_table gb2312_table big5_table).
Local Abbreviation fix_name := (fix_filename_encoding gbk_table gb2312_table big5_table).
Local Abbreviation dec := (decoder_of gbk_table gb2312_table big5_table).
Local Abbreviation first_cand := (first_accepted gbk_table gb2312_table big5_table).

Lemma accepted_ext w1 w2 p s : fs w1 = fs w2 -> accepted w1 p s = accepted w2 p s.
Proof. unfold accepted. intros H. rewrite (exists_ext _ _ _ H). reflexivity. Qed.

Lemma first_accepted_ext w1 w2 p encs :
  fs w1 = fs w2 -> first_cand w1 p encs = first_cand w2 p encs.
Proof.
  intros H. induction encs as [|e encs IH]; [reflexivity|].
  cbn [first_accepted]. rewrite IH. case_match; [|reflexivity].
  rewrite (accepted_ext _ _ _ _ H). reflexivity.
Qed.

(** One iteration of the loop, with the state written out. *)
Lemma brute_force_step e encs file_path self w :
  brute (e :: encs) file_path (self, w) =
  match Codec.encode_latin1 (Pathlib.name file_path) with
  | None =>
      brute encs file_path
        (self, Os.print (FailedConversion (legacy_name e) (Pathlib.name file_path)) w)
  | Some bs =>
      let decoded := Codec.decode_ignore (dec e) bs in
      let new_path := Pathlib.parent file_path // decoded in
      if accepted w file_path decoded then
        match Os.rename file_path new_path w with
        | (true, w1) =>
            (Some new_path,
             (record_rename file_path new_path self,
              Os.print (FixedFilename (Pathlib.name file_path) decoded) w1))
        | (false, w1) =>
            brute encs file_path (self, Os.print (ErrorRenaming (Pathlib.name file_path)) w1)
        end
      else brute encs file_path (self, w)
  end.
Proof.
  cbn [brute_force].
  destruct (Codec.encode_latin1 (Pathlib.name file_path)) as [bs|]; [|reflexivity].
  cbv zeta. unfold accepted, bind at 1, ask at 1. cbn [snd].
  destruct (_ && _ && _); [|reflexivity].
  unfold try_rename, bind at 1 2, on_world at 1. cbn [snd fst].
  destruct (Os.rename _ _ w) as [[|] w1]; reflexivity.
Qed.

Lemma brute_force_nil file_path self w :
  brute [] file_path (self, w) = (None, (self, Os.print (CouldNotFix (Pathlib.name file_path)) w)).
Proof. reflexivity. Qed.

(** The method, with the state written out. *)
Lemma fix_filename_encoding_unfold file_path self w :
  fix_name file_path (self, w) =
  let filename := Pathlib.name file_path in
  if is_filename_valid filename then (None, (self, w))
  else
    let w0 := Os.print (Attempting filename) w in
    let new_filename := fix_mojibake filename in
    let new_path := Pathlib.parent file_path // new_filename in
    if bool_decide (new_filename <> filename) && negb (Os.exists_ w new_path) then
      match Os.rename file_path new_path w0 with
      | (true, w1) =>
          (Some new_path,
           (record_rename file_path new_path self,
            Os.print (FixedFilename filename new_filename) w1))
      | (false, w1) => (None, (self, Os.print (ErrorRenaming filename) w1))
      end
    else brute encodings_to_try file_path (self, w0).
Proof.
  unfold fix_filename_encoding. cbv zeta.
  destruct (is_filename_valid (Pathlib.name file_path)); [reflexivity|].
  unfold bind at 1 2, print at 1, ask at 1. cbn [snd fst].
  rewrite (exists_ext (Os.print _ w) w) by reflexivity.
  destruct (_ && _); [|reflexivity].
  unfold try_rename, bind at 1 2, on_world at 1. cbn [snd fst].
  destruct (Os.rename _ _ _) as [[|] w1]; reflexivity.
Qed.

Lemma brute_force_latin1 rest file_path self w :
  is_filename_valid (Pathlib.name file_path) = false ->
  brute (latin1 :: rest) file_path (self, w)
  = brute rest file_path
      (self, match Codec.encode_latin1 (Pathlib.name file_path) with
             | Some _ => w
             | None => Os.print (FailedConversion "latin1" (Pathlib.name file_path)) w
             end).
Proof.
  intros Hbad. rewrite brute_force_step.
  destruct (Codec.encode_latin1 (Pathlib.name file_path)) as [bs|] eqn:E; [|reflexivity].
  apply encode_latin1_id in E. subst bs. cbv zeta.
  cbn [decoder_of]. rewrite latin1_decode.
  unfold accepted. rewrite Hbad, andb_false_r. reflexivity.
Qed.

(** What one run of the loop leaves behind: the rename calls it issued,
    each from [file_path] to a path that did not exist, the first of them
    for the first accepted candidate; the filesystem and the object are
    touched only by a rename that went through. *)
Lemma brute_force_trace file_path encs : forall self w,
  let r := brute encs file_path (self, w) in
  exists calls,
    renames r.2.2 = renames w ++ calls /\
    denied r.2.2 = denied w /\
    Forall (fun c => c.1 = file_path /\ Os.exists_ w c.2 = false) calls /\
    match first_cand w file_path encs with
    | Some decoded => exists more, calls = (file_path, Pathlib.parent file_path // decoded) :: more
    | None => calls = []
    end /\
    match r.1 with
    | None =>
        fs r.2.2 = fs w /\ r.2.1 = self /\
        Forall (fun c => Os.renamed w c.1 c.2 = None) calls
    | Some q =>
        Os.renamed w file_path q = Some (fs r.2.2) /\
        r.2.1 = record_rename file_path q self /\
        exists failed, calls = failed ++ [(file_path, q)] /\
          Forall (fun c => Os.renamed w c.1 c.2 = None) failed
    end.
Proof.
  induction encs as [|e encs IH]; intros self w r; subst r.
  - rewrite brute_force_nil. exists []. cbn. rewrite app_nil_r.
    repeat split; try constructor; auto.
  - rewrite brute_force_step. cbn [first_accepted].
    destruct (Codec.encode_latin1 (Pathlib.name file_path)) as [bs|] eqn:E.
    + cbv zeta. set (decoded := Codec.decode_ignore (dec e) bs).
      destruct (accepted w file_path decoded) eqn:Hacc; [|apply IH].
      assert (Hfree : Os.exists_ w (Pathlib.parent file_path // decoded) = false).
      { unfold accepted in Hacc. apply andb_prop in Hacc as [_ Hacc].
        now apply negb_true_iff in Hacc. }
      destruct (Os.rename file_path (Pathlib.parent file_path // decoded) w) as [[|] w1] eqn:Hr.
      * apply rename_returned in Hr as (Hfs & Hden & Hren & Hout).
        exists [(file_path, Pathlib.parent file_path // decoded)].
        cbn. repeat split; auto.
        -- eauto.
        -- exists []. split; [reflexivity | constructor].
      * apply rename_raised in Hr as (Hnone & Hfs & Hden & Hren & Hout).
        set (w2 := Os.print (ErrorRenaming (Pathlib.name file_path)) w1).
        assert (Hfs2 : fs w2 = fs w) by exact Hfs.
        assert (Hden2 : denied w2 = denied w) by exact Hden.
        assert (Hren2 : renames w2 = renames w ++ [(file_path, Pathlib.parent file_path // decoded)])
          by exact Hren.
        destruct (IH self w2) as (calls & Hc1 & Hc2 & Hc3 & _ & Hc5).
        exists ((file_path, Pathlib.parent file_path // decoded) :: calls).
        split; [rewrite Hc1, Hren2, <- app_assoc; reflexivity|].
        split; [congruence|].
        split.
        { constructor; [auto|].
          eapply Forall_impl; [exact Hc3|]. intros c [? ?]. split; [assumption|].
          rewrite <- (exists_ext _ _ _ Hfs2). assumption. }
        split; [eauto|].
        destruct (brute encs file_path (self, w2)).1 as [q|].
        -- destruct Hc5 as (Hq & Hself & failed & -> & Hfailed).
           rewrite (renamed_ext _ _ _ _ Hfs2 Hden2) in Hq.
           repeat split; auto.
           exists ((file_path, Pathlib.parent file_path // decoded) :: failed).
           split; [reflexivity|]. constructor; [exact Hnone|].
           eapply Forall_impl; [exact Hfailed|]. intros c Hc.
           rewrite <- (renamed_ext _ _ _ _ Hfs2 Hden2). exact Hc.
        -- destruct Hc5 as (Hq & Hself & Hfailed).
           repeat split; [congruence | assumption |].
           constructor; [exact Hnone|].
           eapply Forall_impl; [exact Hfailed|]. intros c Hc.
           rewrite <- (renamed_ext _ _ _ _ Hfs2 Hden2). exact Hc.
    + set (w2 := Os.print _ w).
      destruct (IH self w2) as (calls & Hc1 & Hc2 & Hc3 & Hc4 & Hc5).
      exists calls.
      rewrite (first_accepted_ext w2 w) in Hc4 by reflexivity.
      split; [exact Hc1|]. split; [exact Hc2|]. split; [exact Hc3|].
      split; [exact Hc4 | exact Hc5].
Qed.

Lemma accepted_true w file_path decoded :
  accepted w file_path decoded = true <->
  decoded <> [] /\ is_filename_valid decoded = true /\
  Os.exists_ w (Pathlib.parent file_path // decoded) = false.
Proof.
  unfold accepted. rewrite !andb_true_iff, bool_decide_eq_true, negb_true_iff. tauto.
Qed.

(** [first_accepted] picks the first candidate in the order of the list. *)
Lemma first_accepted_first w file_path bs pre e post :
  Codec.encode_latin1 (Pathlib.name file_path) = Some bs ->
  Forall (fun e' => accepted w file_path (Codec.decode_ignore (dec e') bs) = false) pre ->
  accepted w file_path (Codec.decode_ignore (dec e) bs) = true ->
  first_cand w file_path (pre ++ e :: post) = Some (Codec.decode_ignore (dec e) bs).
Proof.
  intros E Hpre Hacc. induction Hpre as [|e' pre He' Hpre IH].
  - cbn [app first_accepted]. rewrite E. cbv zeta. rewrite Hacc. reflexivity.
  - cbn [app first_accepted]. rewrite E. cbv zeta. rewrite He'. exact IH.
Qed.

Lemma first_accepted_none w file_path encs :
  (forall e bs, e ∈ encs -> Codec.encode_latin1 (Pathlib.name file_path) = Some bs ->
     accepted w file_path (Codec.decode_ignore (dec e) bs) = false) ->
  first_cand w file_path encs = None.
Proof.
  induction encs as [|e encs IH]; intros H; [reflexivity|].
  cbn [first_accepted].
  destruct (Codec.encode_latin1 (Pathlib.name file_path)) as [bs|] eqn:E.
  - cbv zeta. rewrite (H e bs) by (auto; left). apply IH.
    intros e' bs' He' [= <-]. apply H; [right; exact He' | reflexivity].
  - apply IH. intros e' bs' _ [=].
Qed.

(** C10: in the brute-force loop the Latin-1 candidate never renames.
    Encoding the name to Latin-1 either raises, or gives bytes that decode
    back to the name itself, which fails the validity check of the guard;
    in both cases the loop goes on to the rest of the list from the same
    filesystem, so a rename of this stage comes from a later candidate. *)
Theorem C10_latin1_candidate_never_renames file_path self w :
  is_filename_valid (Pathlib.name file_path) = false ->
  match Codec.encode_latin1 (Pathlib.name file_path) with
  | None =>
      brute encodings_to_try file_path (self, w)
      = brute [cp1252; gbk; gb2312; big5] file_path
          (self, Os.print (FailedConversion "latin1" (Pathlib.name file_path)) w)
  | Some bs =>
      Codec.decode_ignore (dec latin1) bs = Pathlib.name file_path /\
      accepted w file_path (Codec.decode_ignore (dec latin1) bs) = false /\
      brute encodings_to_try file_path (self, w)
      = brute [cp1252; gbk; gb2312; big5] file_path (self, w)
  end.
Proof.
  intros Hbad. unfold encodings_to_try. rewrite brute_force_latin1 by exact Hbad.
  destruct (Codec.encode_latin1 (Pathlib.name file_path)) as [bs|] eqn:E; [|reflexivity].
  apply encode_latin1_id in E. subst bs. cbn [decoder_of]. rewrite latin1_decode.
  repeat split. unfold accepted. rewrite Hbad, andb_false_r. reflexivity.
Qed.

(** C1 (as the code has it): a name that reaches the brute-force loop is
    renamed, or at least a rename is attempted, for the first candidate of
    the list whose decoded result is non-empty, pure ASCII and not the
    name of an existing entry; such a result differs from the name.  When
    that rename goes through it is the result.  With no such candidate
    nothing is renamed. *)
Theorem C1_first_valid_candidate_is_tried file_path self w :
  is_filename_valid (Pathlib.name file_path) = false ->
  fix_mojibake (Pathlib.name file_path) = Pathlib.name file_path \/
  Os.exists_ w (Pathlib.parent file_path // fix_mojibake (Pathlib.name file_path)) = true ->
  let r := fix_name file_path (self, w) in
  (forall bs pre e post,
     Codec.encode_latin1 (Pathlib.name file_path) = Some bs ->
     encodings_to_try = pre ++ e :: post ->
     Forall (fun e' => accepted w file_path (Codec.decode_ignore (dec e') bs) = false) pre ->
     let decoded := Codec.decode_ignore (dec e) bs in
     decoded <> [] -> is_filename_valid decoded = true ->
     Os.exists_ w (Pathlib.parent file_path // decoded) = false ->
     decoded <> Pathlib.name file_path /\
     (exists more,
        renames r.2.2 = renames w ++ (file_path, Pathlib.parent file_path // decoded) :: more) /\
     (is_Some (Os.renamed w file_path (Pathlib.parent file_path // decoded)) ->
        r.1 = Some (Pathlib.parent file_path // decoded))) /\
  ((forall e bs, e ∈ encodings_to_try ->
      Codec.encode_latin1 (Pathlib.name file_path) = Some bs ->
      accepted w file_path (Codec.decode_ignore (dec e) bs) = false) ->
   r.1 = None /\ renames r.2.2 = renames w /\ fs r.2.2 = fs w /\ r.2.1 = self).
Proof.
  intros Hbad Hreach r.
  assert (Hr : r = brute encodings_to_try file_path
                     (self, Os.print (Attempting (Pathlib.name file_path)) w)).
  { subst r. rewrite fix_filename_encoding_unfold. cbv zeta. rewrite Hbad.
    destruct Hreach as [-> | ->].
    - rewrite bool_decide_eq_false_2 by (intros H; now apply H). reflexivity.
    - rewrite andb_false_r. reflexivity. }
  set (w0 := Os.print (Attempting (Pathlib.name file_path)) w) in Hr.
  destruct (brute_force_trace file_path encodings_to_try self w0)
    as (calls & Hc1 & Hc2 & Hc3 & Hc4 & Hc5).
  cbv zeta in Hc1, Hc5. rewrite <- Hr in Hc1, Hc5.
  rewrite (first_accepted_ext w0 w) in Hc4 by reflexivity.
  change (renames w0) with (renames w) in Hc1.
  split.
  - intros bs pre e post E Hlist Hpre decoded Hne Hval Hfree.
    assert (Hacc : accepted w file_path decoded = true) by (apply accepted_true; auto).
    rewrite Hlist, (first_accepted_first _ _ _ _ _ _ E Hpre Hacc) in Hc4.
    destruct Hc4 as [more ->].
    split; [intros Heq; fold decoded in Heq; congruence|].
    split; [eauto|].
    intros [m Hm].
    destruct r.1 as [q|].
    + destruct Hc5 as (Hq & _ & failed & Hcalls & Hfailed).
      destruct failed as [|c failed].
      * cbn in Hcalls. unfold decoded. congruence.
      * cbn in Hcalls. injection Hcalls as <- _.
        inversion Hfailed as [|? ? Hn _]; subst. cbn in Hn.
        rewrite (renamed_ext w0 w) in Hn by reflexivity. unfold decoded in Hm. congruence.
    + destruct Hc5 as (_ & _ & Hfailed).
      inversion Hfailed as [|? ? Hn _]; subst. cbn in Hn.
      rewrite (renamed_ext w0 w) in Hn by reflexivity. unfold decoded in Hm. congruence.
  - intros Hnone. rewrite (first_accepted_none _ _ _ Hnone) in Hc4. subst calls.
    rewrite app_nil_r in Hc1.
    destruct r.1 as [q|].
    + destruct Hc5 as (_ & _ & failed & Hcalls & _). now destruct failed.
    + destruct Hc5 as (Hfs & Hself & _). auto.
Qed.

(** The filesystem after [fix_filename_encoding]: as it was, or with the
    entry renamed once to a path at which nothing existed. *)
Lemma fix_filename_encoding_renames_at_most p self w :
  renamed_at_most w p (fs (fix_name p (self, w)).2.2).
Proof.
  rewrite fix_filename_encoding_unfold. cbv zeta.
  destruct (is_filename_valid _); [left; reflexivity|].
  set (w0 := Os.print _ w).
  destruct (_ && _) eqn:Hguard.
  - apply andb_prop in Hguard as [_ Hfree%negb_true_iff].
    destruct (Os.rename _ _ w0) as [[|] w1] eqn:Hr.
    + apply rename_returned in Hr as (Hfs & _). right.
      rewrite (renamed_ext w0 w) in Hfs by reflexivity. eauto.
    + apply rename_raised in Hr as (_ & Hfs & _). left. exact Hfs.
  - destruct (brute_force_trace p encodings_to_try self w0)
      as (calls & Hc1 & Hc2 & Hc3 & Hc4 & Hc5).
    cbv zeta in Hc5.
    destruct (brute encodings_to_try p (self, w0)).1 as [q|].
    + destruct Hc5 as (Hq & _ & failed & -> & _). right. exists q. split; [|exact Hq].
      apply Forall_app in Hc3 as [_ Hlast]. inversion Hlast as [|? ? [_ Hfree] _]; subst.
      exact Hfree.
    + destruct Hc5 as (Hfs & _). left. exact Hfs.
Qed.


End PathRepair.

(** ** Decoding with an error handler *)

Lemma decode_from_skip d sub st k bs :
  Codec.decode_from d sub st k bs = Codec.decode_from d sub st 0 (drop k bs).
Proof.
  revert k. induction bs as [|b bs IH]; intros [|k]; try reflexivity.
  cbn [Codec.decode_from drop]. apply IH.
Qed.

(** What one step contributes: the text of a mapped run, the handler's
    substitute for an unmappable one. *)
Lemma decode_from_step d sub st b bs :
  Codec.decode_from d sub st 0 (b :: bs) =
  match Codec.dstep d st (b :: bs) with
  | (st', Codec.Emit out n) => out ++ Codec.decode_from d sub st' 0 (drop (n - 1) bs)
  | (st', Codec.Invalid n) => sub ++ Codec.decode_from d sub st' 0 (drop (n - 1) bs)
  end.
Proof.
  cbn [Codec.decode_from].
  destruct (Codec.dstep d st (b :: bs)) as [st' [out n|n]];
    rewrite decode_from_skip; reflexivity.
Qed.

(** ** Content repair in [EncodingFixer] *)

Lemma read_bytes_stat w p raw : Os.read_bytes w p = Some raw -> Os.stat w p = Some (File raw).
Proof.
  unfold Os.read_bytes, Os.stat. destruct (Os.has_nul p); [discriminate|].
  destruct (Os.resolve (fs w) [] p) as [q|]; [|discriminate]. cbn.
  destruct (bool_decide _); [discriminate|].
  destruct (Os.node_at (fs w) q) as [[data|]|]; congruence.
Qed.

Lemma read_bytes_open_w w p raw :
  Os.read_bytes w p = Some raw ->
  exists q, Os.resolve (fs w) [] p = Some q /\ Os.open_w w p = Some q.
Proof.
  unfold Os.read_bytes, Os.open_w. destruct (Os.has_nul p); [discriminate|].
  destruct (Os.resolve (fs w) [] p) as [q|]; [|discriminate]. cbn.
  destruct (bool_decide _); [discriminate|].
  destruct (Os.node_at (fs w) q) as [[data|]|]; [|discriminate..]. eauto.
Qed.

Section ContentRepair.

Variable lookup_codec : string -> option Codec.decoder.
Variable chardet_detect : list Z -> option string.

Local Abbreviation fix_content := (fix_file_content_encoding lookup_codec chardet_detect).

(** [detect_encoding], with the state written out. *)
Lemma detect_encoding_unfold p self w :
  detect_encoding chardet_detect p (self, w) =
  match Os.read_bytes w p with
  | None => (None, (self, Os.print (ErrorDetecting p) w))
  | Some raw_data => (if bool_decide (raw_data = []) then None else chardet_detect raw_data, (self, w))
  end.
Proof.
  unfold detect_encoding, bind at 1, ask at 1. cbn [snd].
  destruct (Os.read_bytes w p) as [raw|]; [|reflexivity].
  destruct (bool_decide _); reflexivity.
Qed.

(** [fix_file_content_encoding], with the state written out. *)
Lemma fix_file_content_encoding_unfold p self w :
  fix_content p (self, w) =
  if negb (Os.is_file w p) then (false, (self, w))
  else match Os.read_bytes w p with
       | None => (false, (self, w))
       | Some raw =>
           if bool_decide (0 ∈ take 1024 raw) then (false, (self, w))
           else match (if bool_decide (raw = []) then None else chardet_detect raw) with
                | None => (false, (self, w))
                | Some enc =>
                    if bool_decide (enc = "") || bool_decide (lower enc = "utf-8")
                    then (false, (self, w))
                    else transcode lookup_codec p enc (self, w)
                end
       end.
Proof.
  unfold fix_file_content_encoding, bind at 1, ask at 1. cbn [snd].
  destruct (negb _); [reflexivity|].
  unfold bind at 1, ask at 1. cbn [snd].
  destruct (Os.read_bytes w p) as [raw|] eqn:E; [|reflexivity]. cbn [fmap option_fmap option_map].
  destruct (bool_decide (0 ∈ _)); [reflexivity|].
  unfold bind at 1. rewrite detect_encoding_unfold, E.
  destruct (if bool_decide (raw = []) then None else chardet_detect raw) as [enc|];
    [|reflexivity].
  destruct (_ || _); reflexivity.
Qed.

(** The second [try] block on a readable file, with the state written out. *)
Lemma transcode_unfold p enc self w raw :
  Os.read_bytes w p = Some raw ->
  transcode lookup_codec p enc (self, w) =
  match lookup_codec enc with
  | None => (false, (self, Os.print (ErrorFixingContent p) w))
  | Some d =>
      match Os.open_w w p with
      | None => (false, (self, Os.print (ErrorFixingContent p) w))
      | Some q =>
          match Codec.encode_utf8 (universal_newlines (Codec.decode_ignore d raw)) with
          | None => (false, (self, Os.print (ErrorFixingContent p) (Os.set_data q [] w)))
          | Some out =>
              (true, (record_content p enc "utf-8" self,
                      Os.print (FixedContent (Pathlib.name p) enc) (Os.set_data q out w)))
          end
      end
  end.
Proof.
  intros E. unfold transcode, bind at 1, ask at 1. cbn [snd]. rewrite E.
  destruct (lookup_codec enc) as [d|]; [|reflexivity]. cbn [mbind option_bind].
  unfold bind at 1, ask at 1. cbn [snd].
  destruct (Os.open_w w p) as [q|]; [|reflexivity].
  destruct (Codec.encode_utf8 _); reflexivity.
Qed.

(** C8: a file with a NUL byte among its first 1024 bytes is taken for
    binary: the method returns [False] and leaves the world, the file's
    bytes included, and the object exactly as they were. *)
Theorem C8_nul_byte_means_binary p self w raw :
  Os.stat w p = Some (File raw) ->
  0 ∈ take 1024 raw ->
  fix_content p (self, w) = (false, (self, w)).
Proof.
  intros Hstat Hnul. rewrite fix_file_content_encoding_unfold.
  destruct (negb _); [reflexivity|].
  destruct (Os.read_bytes w p) as [raw'|] eqn:E; [|reflexivity].
  apply read_bytes_stat in E. assert (raw' = raw) as -> by congruence.
  rewrite bool_decide_eq_true_2 by exact Hnul. reflexivity.
Qed.



End ContentRepair.

(** ** Names without a separator *)

Lemma split_slash_plain s : 0x2F ∉ s -> Pathlib.split_slash s = [s].
Proof.
  induction s as [|c s IH]; [reflexivity|].
  intros H. apply not_elem_of_cons in H as [Hc Hs].
  cbn [Pathlib.split_slash]. rewrite (proj2 (Z.eqb_neq c 0x2F)) by congruence.
  rewrite IH by exact Hs. reflexivity.
Qed.

Lemma truediv_plain p s :
  0x2F ∉ s -> s <> [] -> s <> Py.lit "." -> p // s = p ++ [s].
Proof.
  intros Hsep Hne Hdot. unfold Pathlib.truediv, Pathlib.parts_of.
  rewrite split_slash_plain by exact Hsep.
  destruct s as [|c s]; [congruence|].
  apply not_elem_of_cons in Hsep as [Hc _].
  cbn [Py.startswith]. rewrite (proj2 (Z.eqb_neq 0x2F c)) by congruence. cbn [andb].
  rewrite filter_cons_True by (split; assumption). reflexivity.
Qed.

Lemma contains_single c s : Py.contains [c] s = false <-> c ∉ s.
Proof.
  induction s as [|b s IH].
  - cbn. split; [intros _; apply not_elem_of_nil | reflexivity].
  - rewrite contains_unfold, orb_false_iff, IH, not_elem_of_cons. cbn [Py.startswith].
    rewrite andb_true_r, Z.eqb_neq. tauto.
Qed.

Lemma fix_mojibake_no_separator name : 0x2F ∉ name -> 0x2F ∉ fix_mojibake name.
Proof.
  rewrite <- !contains_single. intros H.
  unfold fix_mojibake, apply_fixes, mojibake_fixes. cbn [foldl fst snd].
  repeat (apply absent_kept; [discriminate | discriminate | discriminate | reflexivity |]).
  exact H.
Qed.

(** X1: a name of ASCII characters only is clean, and
    [fix_filename_encoding] returns [None] for it without printing,
    renaming or recording anything. *)
Theorem X1_clean_name_is_left_alone gbk_table gb2312_table big5_table file_path self w :
  Forall (fun c => 0 <= c < 0x80) (Pathlib.name file_path) ->
  is_filename_valid (Pathlib.name file_path) = true /\
  fix_filename_encoding gbk_table gb2312_table big5_table file_path (self, w)
  = (None, (self, w)).
Proof.
  intros H.
  assert (Hv : is_filename_valid (Pathlib.name file_path) = true).
  { unfold is_filename_valid. apply forallb_forall. intros c Hc%list_elem_of_In.
    rewrite Forall_forall in H. specialize (H c Hc). unfold Py.is_ascii.
    apply andb_true_intro. split; [apply Z.leb_le | apply Z.ltb_lt]; lia. }
  split; [exact Hv|]. rewrite fix_filename_encoding_unfold. cbv zeta. rewrite Hv. reflexivity.
Qed.

(** X2: on a name with no escape sequence [fix_pathname] returns [False]
    without printing, renaming or recording anything. *)
Theorem X2_name_without_escape_is_left_alone p self w :
  escape_free (Pathlib.name p) ->
  fix_pathname p (self, w) = (false, (self, w)).
Proof.
  intros H%has_escape_free. rewrite fix_pathname_unfold. cbv zeta. rewrite H. reflexivity.
Qed.

(** X3: a new name with no separator in it, not empty and not [.], joined
    to the entry's parent gives a path in that same directory with that
    name; and the mojibake table never brings a separator into a name
    that had none.  So the mojibake strategy renames within the
    directory. *)
Theorem X3_separator_free_name_stays_in_directory file_path new_name :
  0x2F ∉ new_name -> new_name <> [] -> new_name <> Py.lit "." ->
  Pathlib.parent (Pathlib.parent file_path // new_name) = Pathlib.parent file_path /\
  Pathlib.name (Pathlib.parent file_path // new_name) = new_name /\
  (0x2F ∉ Pathlib.name file_path -> 0x2F ∉ fix_mojibake (Pathlib.name file_path)).
Proof.
  intros Hsep Hne Hdot. rewrite truediv_plain by assumption.
  unfold Pathlib.parent at 1, Pathlib.name at 1.
  rewrite removelast_last, last_last. repeat split. apply fix_mojibake_no_separator.
Qed.

(** C7: the escape decoder is a total function on strings that goes
    through its input from the left.  Where [#U] and four hexadecimal
    digits begin, the six characters become the one character with that
    code point and decoding goes on behind them; any other character is
    kept.  So a string with no such sequence comes back unchanged;
    [#U6d4b#U8bd5.txt] becomes U+6D4B U+8BD5 [.txt], and decoding that
    again changes nothing. *)
Theorem C7_escape_decoder :
  (forall h1 h2 h3 h4 d1 d2 d3 d4 rest,
     Escape.hex_val h1 = Some d1 -> Escape.hex_val h2 = Some d2 ->
     Escape.hex_val h3 = Some d3 -> Escape.hex_val h4 = Some d4 ->
     Escape.decode_unicode_escape (0x23 :: 0x55 :: h1 :: h2 :: h3 :: h4 :: rest)
     = (4096 * d1 + 256 * d2 + 16 * d3 + d4) :: Escape.decode_unicode_escape rest) /\
  (forall c s,
     ~ escape_here (c :: s) ->
     Escape.decode_unicode_escape (c :: s) = c :: Escape.decode_unicode_escape s) /\
  Escape.decode_unicode_escape [] = [] /\
  (forall s, escape_free s -> Escape.decode_unicode_escape s = s) /\
  Escape.decode_unicode_escape (Py.lit "#U6d4b#U8bd5.txt") = [0x6D4B; 0x8BD5] ++ Py.lit ".txt" /\
  Escape.decode_unicode_escape ([0x6D4B; 0x8BD5] ++ Py.lit ".txt")
  = [0x6D4B; 0x8BD5] ++ Py.lit ".txt".
Proof.
  split; [exact decode_escape|].
  split; [intros c s H; apply decode_plain, match_escape_none, H|].
  split; [reflexivity|].
  split; [intros s H; apply decode_no_escape, has_escape_free, H|].
  split; vm_compute; reflexivity.
Qed.

(** The decoder's equations at [#U0041b], which decodes to [Ab]. *)
Lemma C7_witness :
  Escape.decode_unicode_escape (Py.lit "#U0041b") = 0x41 :: Escape.decode_unicode_escape (Py.lit "b") /\
  Escape.decode_unicode_escape (Py.lit "b") = Py.lit "b".
Proof.
  destruct C7_escape_decoder as (Hesc & Hplain & _ & Hfree & _).
  split.
  - exact (Hesc 0x30 0x30 0x34 0x31 0 0 4 1 (Py.lit "b") eq_refl eq_refl eq_refl eq_refl).
  - apply Hfree. apply has_escape_free. reflexivity.
Defined.

(** C6 (as the code has it): applying the table a second time changes
    nothing, provided the name does not contain the sequence that the
    rule for U+00C3 U+00A4 turns into the table's first pattern; and a
    name in which no pattern of the table occurs is returned as it is. *)
Theorem C6_mojibake_twice_is_once name :
  (Py.contains latent_pattern name = false ->
   fix_mojibake (fix_mojibake name) = fix_mojibake name) /\
  (pattern_free mojibake_fixes name = true -> fix_mojibake name = name).
Proof.
  split; intros H.
  - apply apply_fixes_absent.
    + exact mojibake_patterns_nonempty.
    + apply fix_mojibake_leaves_no_pattern, H.
  - apply apply_fixes_absent; [exact mojibake_patterns_nonempty | exact H].
Qed.

(** The name [caf] U+00C3 U+00A9 is repaired to [caf] U+00E9, and a second
    application leaves that alone. *)
Lemma C6_witness :
  let name := Py.lit "caf" ++ [0xC3; 0xA9] in
  Py.contains latent_pattern name = false /\
  fix_mojibake name = Py.lit "caf" ++ [0xE9] /\
  fix_mojibake (fix_mojibake name) = fix_mojibake name.
Proof.
  intros name. split; [reflexivity|]. split; [reflexivity|].
  exact (proj1 (C6_mojibake_twice_is_once name) eq_refl).
Defined.

(** Applied to the latent sequence itself the table is not idempotent:
    the first application makes the first pattern, the second rewrites
    it. *)
Lemma C6_counterexample :
  fix_mojibake latent_pattern = [0xE6; 0x2013; 0x2021; 0xE4; 0xBB; 0xB6] /\
  fix_mojibake (fix_mojibake latent_pattern) = [0x6587; 0x4EF6] /\
  fix_mojibake (fix_mojibake latent_pattern) <> fix_mojibake latent_pattern.
Proof. vm_compute. repeat split. discriminate. Qed.

(** ** The escape decoder shortens what it changes *)

Section EscapeLength.
Import Escape.

Lemma int16_digits h1 h2 h3 h4 :
  forallb is_hex [h1; h2; h3; h4] = true ->
  exists u, int16 [h1; h2; h3; h4] ≫= Py.chr = Some u /\ 0 <= u <= 0xFFFF.
Proof.
  cbn [forallb]. rewrite !andb_true_iff, !is_hex_spec.
  intros ([d1 H1] & [d2 H2] & [d3 H3] & [d4 H4] & _).
  pose proof (hex_val_range _ _ H1). pose proof (hex_val_range _ _ H2).
  pose proof (hex_val_range _ _ H3). pose proof (hex_val_range _ _ H4).
  exists (4096 * d1 + 256 * d2 + 16 * d3 + d4). split; [|lia].
  unfold int16. cbn [foldl]. rewrite H1, H2, H3, H4. cbn [mbind option_bind].
  unfold Py.chr.
  replace (16 * (16 * (16 * (16 * 0 + d1) + d2) + d3) + d4)
    with (4096 * d1 + 256 * d2 + 16 * d3 + d4) by lia.
  rewrite andb_true_intro by (split; apply Z.leb_le; lia). reflexivity.
Qed.

(** A match is six characters long and becomes one character. *)
Lemma match_escape_replaced s g :
  match_escape s = Some g ->
  (6 <= length s)%nat /\ exists u, replace_unicode_match (take 6 s) g = [u] /\ 0 <= u <= 0xFFFF.
Proof.
  unfold match_escape.
  destruct s as [|c0 [|c1 [|h1 [|h2 [|h3 [|h4 rest]]]]]]; try discriminate.
  destruct (_ && _ && _) eqn:E; [|discriminate]. intros [= <-].
  apply andb_prop in E as [_ E].
  destruct (int16_digits _ _ _ _ E) as (u & Hu & Hr).
  split; [cbn [length]; lia|]. exists u. split; [|exact Hr].
  unfold replace_unicode_match. rewrite Hu. reflexivity.
Qed.

Lemma sub_from_length s : forall k, (length (sub_from k s) <= length s - k)%nat.
Proof.
  induction s as [|c s IH]; intros k; [cbn; lia|].
  destruct k as [|k]; cbn [sub_from length].
  - destruct (match_escape (c :: s)) as [g|] eqn:E.
    + apply match_escape_replaced in E as (Hlen & u & -> & _).
      cbn [length] in Hlen. specialize (IH 5%nat). cbn [app length]. lia.
    + specialize (IH 0%nat). cbn [length]. lia.
  - specialize (IH k). lia.
Qed.

Lemma sub_from_shorter s : forall k,
  has_escape (drop k s) = true -> (length (sub_from k s) + 5 <= length s - k)%nat.
Proof.
  induction s as [|c s IH]; intros k.
  - rewrite drop_nil. discriminate.
  - destruct k as [|k]; cbn [sub_from length drop].
    + destruct (match_escape (c :: s)) as [g|] eqn:E.
      * intros _. apply match_escape_replaced in E as (Hlen & u & -> & _).
        cbn [length] in Hlen. pose proof (sub_from_length s 5). cbn [app length]. lia.
      * cbn [has_escape]. rewrite E.
        rewrite bool_decide_eq_false_2 by (intros [? ?]; discriminate). cbn [orb].
        intros H. specialize (IH 0%nat). rewrite drop_0 in IH. specialize (IH H).
        cbn [length]. lia.
    + intros H. specialize (IH k H). lia.
Qed.

End EscapeLength.

(** X5: the escape decoder never lengthens a name, and a name in which
    an escape sequence occurs comes back at least five characters
    shorter.  So the decoder changes a name exactly when an escape
    sequence occurs in it, and the test [new_name == original_name] of
    [fix_pathname] never holds once the search for an escape sequence
    has succeeded. *)
Theorem X5_decoding_shortens_the_name s :
  (length (Escape.decode_unicode_escape s) <= length s)%nat /\
  (Escape.has_escape s = true ->
   (length (Escape.decode_unicode_escape s) + 5 <= length s)%nat /\
   Escape.decode_unicode_escape s <> s) /\
  (Escape.decode_unicode_escape s = s <-> Escape.has_escape s = false).
Proof.
  assert (Hshort : Escape.has_escape s = true ->
            (length (Escape.decode_unicode_escape s) + 5 <= length s)%nat).
  { intros H. pose proof (sub_from_shorter s 0) as Hs. rewrite drop_0 in Hs.
    specialize (Hs H). unfold Escape.decode_unicode_escape. lia. }
  split; [|split].
  - pose proof (sub_from_length s 0). unfold Escape.decode_unicode_escape. lia.
  - intros H. split; [exact (Hshort H)|].
    intros Heq. specialize (Hshort H). rewrite Heq in Hshort. lia.
  - split; [|apply decode_no_escape].
    intros Heq. destruct (Escape.has_escape s) eqn:H; [|reflexivity].
    specialize (Hshort eq_refl). rewrite Heq in Hshort. lia.
Qed.

(** ** What a rename to a free path does to the filesystem *)

Lemma parent_prefix (k : path) : Pathlib.parent k `prefix_of` k.
Proof.
  unfold Pathlib.parent. destruct k as [|x k] using rev_ind; [reflexivity|].
  rewrite removelast_last. apply prefix_app_r. reflexivity.
Qed.

Section Move.

Variable m : gmap path node.
Variables s d : path.
Hypothesis Hwf : parents_exist m = true.
Hypothesis Hfree : m !! d = None.
Hypothesis Hd : d <> [].
Hypothesis Hsd : ~ s `prefix_of` d.

Lemma move_lookup_inv k v :
  Os.move m s d !! k = Some v ->
  (~ s `prefix_of` k /\ m !! k = Some v) \/
  (exists suffix, k = d ++ suffix /\ m !! (s ++ suffix) = Some v).
Proof.
  unfold Os.move. rewrite delete_id by exact Hfree.
  intros H. apply elem_of_list_to_map_2 in H.
  apply list_elem_of_fmap in H as [[k0 v0] [Heq Hin]]. cbn in Heq.
  injection Heq as -> ->. apply elem_of_map_to_list in Hin.
  unfold Os.rekey. destruct (bool_decide (s `prefix_of` k0)) eqn:E.
  - apply bool_decide_eq_true in E as [suffix ->]. right. exists suffix.
    rewrite drop_app_length. auto.
  - apply bool_decide_eq_false in E. left. auto.
Qed.

Lemma move_lookup_other k v :
  ~ s `prefix_of` k -> m !! k = Some v -> Os.move m s d !! k = Some v.
Proof.
  intros Hout Hk. unfold Os.move. rewrite delete_id by exact Hfree.
  apply elem_of_list_to_map_1'.
  - intros y [[k' y'] [Heq Hin]]%list_elem_of_fmap. cbn in Heq. injection Heq as Hkey ->.
    apply elem_of_map_to_list in Hin. unfold Os.rekey in Hkey.
    destruct (bool_decide (s `prefix_of` k')); [|subst k'; exact (lookup_agree _ _ _ _ Hk Hin)].
    exfalso. subst k.
    destruct (drop (length s) k') as [|x suffix] eqn:Hsuf.
    + rewrite app_nil_r in Hk. exact (lookup_absent _ _ _ Hk Hfree).
    + pose proof (ancestors_exist m d (x :: suffix) v Hwf ltac:(discriminate) Hk) as Hdir.
      destruct d as [|c d']; [congruence|]. cbn [Os.node_at] in Hdir.
      exact (lookup_absent _ _ _ Hdir Hfree).
  - apply list_elem_of_fmap. exists (k, v). split.
    + cbn. unfold Os.rekey. rewrite bool_decide_eq_false_2 by exact Hout. reflexivity.
    + apply elem_of_map_to_list, Hk.
Qed.

Lemma move_lookup_moved suffix v :
  m !! (s ++ suffix) = Some v -> Os.move m s d !! (d ++ suffix) = Some v.
Proof.
  intros Hk. unfold Os.move. rewrite delete_id by exact Hfree.
  apply elem_of_list_to_map_1'.
  - intros y [[k' y'] [Heq Hin]]%list_elem_of_fmap. cbn in Heq. injection Heq as Hkey ->.
    apply elem_of_map_to_list in Hin. unfold Os.rekey in Hkey.
    destruct (bool_decide (s `prefix_of` k')) eqn:E.
    + apply bool_decide_eq_true in E as [suffix' ->].
      rewrite drop_app_length in Hkey. apply app_inv_head in Hkey. subst suffix'.
      exact (lookup_agree _ _ _ _ Hk Hin).
    + exfalso. subst k'. destruct suffix as [|x suffix].
      * rewrite app_nil_r in Hin. exact (lookup_absent _ _ _ Hin Hfree).
      * pose proof (ancestors_exist m d (x :: suffix) y' Hwf ltac:(discriminate) Hin) as Hdir.
        destruct d as [|c d']; [congruence|]. cbn [Os.node_at] in Hdir.
        exact (lookup_absent _ _ _ Hdir Hfree).
  - apply list_elem_of_fmap. exists (s ++ suffix, v). split.
    + cbn. unfold Os.rekey.
      rewrite bool_decide_eq_true_2 by (apply prefix_app_r; reflexivity).
      rewrite drop_app_length. reflexivity.
    + apply elem_of_map_to_list, Hk.
Qed.

(** Nothing is left at or below the source. *)
Lemma move_gone n suffix : m !! s = Some n -> Os.move m s d !! (s ++ suffix) = None.
Proof.
  intros Hs. apply eq_None_not_Some. intros [v Hv].
  apply move_lookup_inv in Hv as [[Hout _] | (suffix' & Heq & Hk)].
  - apply Hout, prefix_app_r. reflexivity.
  - assert (Hcmp : s `prefix_of` d \/ d `prefix_of` s).
    { apply (prefix_weak_total _ _ (s ++ suffix)).
      - apply prefix_app_r. reflexivity.
      - rewrite Heq. apply prefix_app_r. reflexivity. }
    destruct Hcmp as [H | [x Hx]]; [exact (Hsd H)|].
    destruct x as [|c x].
    + rewrite app_nil_r in Hx. subst s. apply Hsd. reflexivity.
    + subst s.
      pose proof (ancestors_exist m d (c :: x) n Hwf ltac:(discriminate) Hs) as Hdir.
      destruct d as [|c' d']; [congruence|]. cbn [Os.node_at] in Hdir.
      exact (lookup_absent _ _ _ Hdir Hfree).
Qed.

Lemma move_target n : m !! s = Some n -> Os.move m s d !! d = Some n.
Proof.
  intros Hs. pose proof (move_lookup_moved [] n) as H.
  rewrite !app_nil_r in H. exact (H Hs).
Qed.

Lemma move_source_gone n : m !! s = Some n -> Os.move m s d !! s = None.
Proof.
  intros Hs. pose proof (move_gone n [] Hs) as H.
  rewrite app_nil_r in H. exact H.
Qed.

Lemma move_keeps_dir q :
  ~ s `prefix_of` q -> Os.node_at m q = Some Dir -> Os.node_at (Os.move m s d) q = Some Dir.
Proof.
  destruct q as [|c q]; [reflexivity|]. cbn [Os.node_at].
  intros Hout Hq. apply move_lookup_other; assumption.
Qed.

(** The filesystem stays well formed. *)
Lemma move_parents_exist :
  s <> [] -> Os.dir_at m (Pathlib.parent d) = true ->
  parents_exist (Os.move m s d) = true.
Proof.
  intros Hs Hpd. unfold parents_exist. apply forallb_forall. intros [k v] Hin.
  apply list_elem_of_In, elem_of_map_to_list in Hin. cbn [fst].
  unfold Os.dir_at. apply bool_decide_eq_true.
  apply move_lookup_inv in Hin as [[Hout Hk] | (suffix & -> & Hk)].
  - apply move_keeps_dir.
    + intros H. apply Hout. etrans; [exact H | apply parent_prefix].
    + exact (parent_exists _ _ _ Hwf Hk).
  - destruct suffix as [|x suffix _] using rev_ind.
    + rewrite app_nil_r. apply move_keeps_dir.
      * intros H. apply Hsd. etrans; [exact H | apply parent_prefix].
      * apply bool_decide_eq_true in Hpd. exact Hpd.
    + pose proof (parent_exists _ _ _ Hwf Hk) as Hp.
      unfold Pathlib.parent in Hp |- *. rewrite app_assoc, removelast_last in Hp |- *.
      assert (Hne : s ++ suffix <> []) by (destruct s; [congruence | discriminate]).
      assert (Hne' : d ++ suffix <> []) by (destruct d; [congruence | discriminate]).
      destruct (s ++ suffix) as [|a l] eqn:E1; [congruence|].
      destruct (d ++ suffix) as [|a' l'] eqn:E2; [congruence|].
      cbn [Os.node_at] in Hp |- *. rewrite <- E2. apply move_lookup_moved.
      rewrite E1. exact Hp.
Qed.

(** Renaming a file changes no directory. *)
Lemma move_file_keeps_dirs data k :
  s <> [] -> m !! s = Some (File data) ->
  Os.move m s d !! k = Some Dir <-> m !! k = Some Dir.
Proof.
  intros Hne Hs.
  assert (Hleaf : forall suffix v, m !! (s ++ suffix) = Some v -> suffix = []).
  { intros suffix v Hk. destruct suffix as [|x suffix]; [reflexivity|]. exfalso.
    pose proof (ancestors_exist m s (x :: suffix) v Hwf ltac:(discriminate) Hk) as Hdir.
    destruct s as [|c s']; [congruence|]. cbn [Os.node_at] in Hdir.
    pose proof (lookup_agree _ _ _ _ Hs Hdir). discriminate. }
  split.
  - intros H. apply move_lookup_inv in H as [[_ Hk] | (suffix & -> & Hk)]; [exact Hk|].
    exfalso. pose proof (Hleaf _ _ Hk). subst suffix. rewrite app_nil_r in Hk.
    pose proof (lookup_agree _ _ _ _ Hs Hk). discriminate.
  - intros Hk. apply move_lookup_other; [|exact Hk].
    intros [suffix ->]. pose proof (Hleaf _ _ Hk). subst suffix. rewrite app_nil_r in Hk.
    pose proof (lookup_agree _ _ _ _ Hs Hk). discriminate.
Qed.

End Move.

(** ** Path resolution *)

(** Where a path resolves is fixed by the path; the filesystem decides
    only whether it resolves. *)
Lemma resolve_lexical m m' rest : forall cur r,
  Os.resolve m cur rest = Some r ->
  Os.resolve m' cur rest = None \/ Os.resolve m' cur rest = Some r.
Proof.
  induction rest as [|c rest IH]; intros cur r; cbn [Os.resolve]; [auto|].
  destruct (Os.dir_at m cur); [|discriminate].
  destruct (Os.dir_at m' cur); [|auto].
  destruct (bool_decide _); apply IH.
Qed.

Lemma resolve_same_dirs m m' rest : forall cur,
  (forall q, Os.dir_at m q = Os.dir_at m' q) ->
  Os.resolve m cur rest = Os.resolve m' cur rest.
Proof.
  induction rest as [|c rest IH]; intros cur H; cbn [Os.resolve]; [reflexivity|].
  rewrite <- H. destruct (Os.dir_at m cur); [|reflexivity].
  destruct (bool_decide _); apply IH, H.
Qed.

(** A resolved path lies in an existing directory. *)
Lemma resolve_parent_dir m rest : forall cur q,
  parents_exist m = true ->
  Os.dir_at m (Pathlib.parent cur) = true ->
  Os.resolve m cur rest = Some q ->
  Os.dir_at m (Pathlib.parent q) = true.
Proof.
  induction rest as [|c rest IH]; intros cur q Hwf Hcur; cbn [Os.resolve].
  - intros [= <-]. exact Hcur.
  - destruct (Os.dir_at m cur) eqn:Hdir; [|discriminate].
    destruct (bool_decide _).
    + apply IH; [exact Hwf|].
      unfold Os.dir_at in Hcur |- *. apply bool_decide_eq_true in Hcur.
      apply bool_decide_eq_true.
      destruct (Pathlib.parent cur) as [|a l] eqn:E; [reflexivity|].
      cbn [Os.node_at] in Hcur. exact (parent_exists _ _ _ Hwf Hcur).
    + apply IH; [exact Hwf|].
      unfold Pathlib.parent. rewrite removelast_last. exact Hdir.
Qed.

(** ** A rename that went through, to a path at which nothing existed *)

Local Ltac split_if E :=
  match goal with |- context [if ?b then _ else _] => destruct b eqn:E end; cbv iota.

Lemma renamed_free_inv w src dst m' :
  Os.exists_ w dst = false -> Os.renamed w src dst = Some m' ->
  exists s d n,
    Os.resolve (fs w) [] src = Some s /\ Os.resolve (fs w) [] dst = Some d /\
    fs w !! s = Some n /\ s <> [] /\ d <> [] /\ fs w !! d = None /\
    ~ s `prefix_of` d /\ m' = Os.move (fs w) s d.
Proof.
  unfold Os.renamed, Os.exists_, Os.stat. intros Hfree%bool_decide_eq_false_1.
  destruct (Os.has_nul src); [discriminate|]. cbn [orb].
  destruct (Os.has_nul dst); [discriminate|].
  destruct (Os.resolve (fs w) [] src) as [s|]; [|discriminate].
  destruct (Os.resolve (fs w) [] dst) as [d|]; [|discriminate].
  cbn [mbind option_bind] in Hfree |- *.
  apply node_at_none in Hfree as [Hd Hnone].
  unfold mbind, option_bind.
  match goal with |- context [match ?x with Some _ => _ | None => None end] =>
    destruct x as [n|] eqn:Hs end; cbv iota; [|intros [=]].
  split_if E1; [intros [=]|]. apply bool_decide_eq_false in E1.
  split_if E0; [intros [=]|].
  split_if E2.
  { apply bool_decide_eq_true in E2. subst d. exfalso. exact (lookup_absent _ _ _ Hs Hnone). }
  split_if E3; [intros [=]|]. apply bool_decide_eq_false in E3.
  intros H. exists s, d, n.
  assert (Hm : m' = Os.move (fs w) s d).
  { revert H. generalize (Os.move (fs w) s d). intros mv.
    match goal with |- context [match ?x with Some _ => _ | None => _ end] =>
      destruct x as [nd|] eqn:Hdd end; cbv iota.
    - exfalso. exact (lookup_absent _ _ _ Hdd Hnone).
    - intros [= <-]. reflexivity. }
  repeat split; auto.
Qed.

(** ** The state after a rename that went through *)

Lemma renamed_free_post w src dst m' :
  parents_exist (fs w) = true ->
  Os.exists_ w dst = false -> Os.renamed w src dst = Some m' ->
  exists s d n,
    Os.resolve (fs w) [] src = Some s /\ Os.resolve (fs w) [] dst = Some d /\
    fs w !! s = Some n /\ m' !! d = Some n /\ m' !! s = None /\
    parents_exist m' = true.
Proof.
  intros Hwf Hfree Hren.
  destruct (renamed_free_inv _ _ _ _ Hfree Hren)
    as (s & d & n & Hs & Hd & Hn & Hsne & Hdne & Hnone & Hsd & ->).
  exists s, d, n. split; [exact Hs|]. split; [exact Hd|]. split; [exact Hn|].
  split; [|split].
  - eapply move_target; eassumption.
  - eapply move_source_gone; eassumption.
  - apply move_parents_exist; try assumption.
    eapply resolve_parent_dir; [exact Hwf | | exact Hd]. reflexivity.
Qed.

(** The old path names nothing any more. *)
Lemma stale_after_rename w src dst w' :
  parents_exist (fs w) = true ->
  Os.exists_ w dst = false -> Os.renamed w src dst = Some (fs w') ->
  Os.stat w' src = None.
Proof.
  intros Hwf Hfree Hren.
  destruct (renamed_free_post _ _ _ _ Hwf Hfree Hren) as (s & d & n & Hs & _ & Hn & _ & Hgone & _).
  destruct (renamed_free_inv _ _ _ _ Hfree Hren) as (s' & _ & _ & Hs' & _ & _ & Hsne & _).
  assert (s' = s) as -> by congruence.
  unfold Os.stat. destruct (Os.has_nul src); [reflexivity|].
  destruct (resolve_lexical (fs w) (fs w') src [] s Hs) as [-> | ->]; [reflexivity|].
  cbn [mbind option_bind]. destruct s as [|c s]; [congruence|]. exact Hgone.
Qed.

(** ** [fix_pathname] when it reports a repair *)


(** ** [fix_filename_encoding] when it returns a path *)

Section PathRepairResult.

Variable gbk_table gb2312_table big5_table : Z -> Z -> option Z.

Local Abbreviation brute := (brute_force gbk_table gb2312_table big5_table).
Local Abbreviation fix_name := (fix_filename_encoding gbk_table gb2312_table big5_table).
Local Abbreviation dec := (decoder_of gbk_table gb2312_table big5_table).

(** The path the loop returns is the one of a candidate that passed the
    guard, and the line printed last names it. *)
Lemma brute_force_result p encs : forall self w q,
  (brute encs p (self, w)).1 = Some q ->
  exists e bs,
    e ∈ encs /\ Codec.encode_latin1 (Pathlib.name p) = Some bs /\
    let decoded := Codec.decode_ignore (dec e) bs in
    q = Pathlib.parent p // decoded /\ decoded <> [] /\ is_filename_valid decoded = true /\
    last (stdout (brute encs p (self, w)).2.2) = Some (FixedFilename (Pathlib.name p) decoded).
Proof.
  induction encs as [|e encs IH]; intros self w q.
  - rewrite brute_force_nil. discriminate.
  - rewrite brute_force_step.
    assert (Hrest : forall w',
      (brute encs p (self, w')).1 = Some q ->
      exists e' bs,
        e' ∈ e :: encs /\ Codec.encode_latin1 (Pathlib.name p) = Some bs /\
        let decoded := Codec.decode_ignore (dec e') bs in
        q = Pathlib.parent p // decoded /\ decoded <> [] /\ is_filename_valid decoded = true /\
        last (stdout (brute encs p (self, w')).2.2) = Some (FixedFilename (Pathlib.name p) decoded)).
    { intros w' H. destruct (IH _ _ _ H) as (e' & bs & Hin & Hrest).
      exists e', bs. split; [right; exact Hin | exact Hrest]. }
    destruct (Codec.encode_latin1 (Pathlib.name p)) as [bs|] eqn:E; [|apply Hrest].
    cbv zeta. destruct (accepted _ _ _) eqn:Hacc; [|apply Hrest].
    destruct (Os.rename _ _ w) as [[|] w1]; [|apply Hrest].
    cbn [fst snd]. intros [= <-]. exists e, bs.
    apply accepted_true in Hacc as (Hne & Hvalid & _).
    split; [left|]. split; [reflexivity|].
    split; [reflexivity|]. split; [exact Hne|]. split; [exact Hvalid|].
    cbn [Os.print stdout]. apply last_snoc.
Qed.

(** What a returned path is: the entry's directory joined with the
    repaired name of the mojibake table, or with a candidate of the loop
    that passed its guard; nothing existed there, and the rename to it
    went through. *)
Lemma fix_filename_encoding_result p self w q :
  let r := fix_name p (self, w) in
  r.1 = Some q ->
  is_filename_valid (Pathlib.name p) = false /\
  (exists new_name,
     q = Pathlib.parent p // new_name /\
     last (stdout r.2.2) = Some (FixedFilename (Pathlib.name p) new_name) /\
     (new_name = fix_mojibake (Pathlib.name p) /\ new_name <> Pathlib.name p \/
      new_name <> [] /\ is_filename_valid new_name = true /\
      exists e bs, e ∈ encodings_to_try /\
        Codec.encode_latin1 (Pathlib.name p) = Some bs /\
        new_name = Codec.decode_ignore (dec e) bs)) /\
  Os.exists_ w q = false /\
  Os.renamed w p q = Some (fs r.2.2) /\
  r.2.1 = record_rename p q self.
Proof.
  intros r Hq. subst r. revert Hq. rewrite fix_filename_encoding_unfold. cbv zeta.
  destruct (is_filename_valid (Pathlib.name p)) eqn:Hbad; [discriminate|].
  set (w0 := Os.print (Attempting (Pathlib.name p)) w).
  destruct (_ && _) eqn:Hguard.
  - apply andb_prop in Hguard as [Hchg%bool_decide_eq_true Hfree%negb_true_iff].
    destruct (Os.rename _ _ w0) as [[|] w1] eqn:Hr; [|discriminate].
    cbn [fst snd]. intros [= <-].
    apply rename_returned in Hr as (Hren & _).
    rewrite (renamed_ext w0 w) in Hren by reflexivity.
    split; [reflexivity|]. split.
    { eexists. split; [reflexivity|]. split; [apply last_snoc|]. left.
      split; [reflexivity | exact Hchg]. }
    auto.
  - intros Hq. split; [reflexivity|].
    destruct (brute_force_result _ _ _ _ _ Hq) as (e & bs & Hin & E & Hq' & Hne & Hvalid & Hlast).
    destruct (brute_force_trace gbk_table gb2312_table big5_table p encodings_to_try self w0)
      as (calls & _ & _ & Hfree & _ & Hres).
    cbv zeta in Hres. rewrite Hq in Hres.
    destruct Hres as (Hren & Hself & failed & -> & _).
    apply Forall_app in Hfree as [_ Hfree].
    inversion Hfree as [|? ? [_ Hfree'] _]; subst. cbn [snd] in Hfree'.
    rewrite (renamed_ext w0 w) in Hren by reflexivity.
    rewrite (exists_ext w0 w) in Hfree' by reflexivity.
    split; [|split; [exact Hfree' | split; [exact Hren | exact Hself]]].
    exists (Codec.decode_ignore (dec e) bs).
    split; [reflexivity|]. split; [exact Hlast|]. right.
    split; [exact Hne|]. split; [exact Hvalid|]. exists e, bs. auto.
Qed.


(** ** Names beyond Latin-1 *)

Lemma brute_force_beyond_latin1 p encs : forall self w,
  Codec.encode_latin1 (Pathlib.name p) = None ->
  brute encs p (self, w)
  = (None, (self, World (fs w) (denied w) (renames w)
                    (stdout w
                     ++ ((fun e => FailedConversion (legacy_name e) (Pathlib.name p)) <$> encs)
                     ++ [CouldNotFix (Pathlib.name p)]))).
Proof.
  intros self w E. revert w. induction encs as [|e encs IH]; intros w.
  - rewrite brute_force_nil. reflexivity.
  - rewrite brute_force_step, E, IH. cbn [Os.print fs denied renames stdout fmap list_fmap].
    rewrite <- app_assoc. reflexivity.
Qed.

(** X9: a name with a character above U+00FF cannot be encoded in
    Latin-1, so every pass of the loop ends in its [except] clause.
    Unless the mojibake table yields a new name that is free, the method
    prints its attempt, one failure line for each of the five encodings
    and the final line, and returns [None]; nothing is renamed and no
    rename is even tried. *)
Theorem X9_no_brute_force_beyond_latin1 p self w c :
  c ∈ Pathlib.name p -> 0xFF < c ->
  fix_mojibake (Pathlib.name p) = Pathlib.name p \/
  Os.exists_ w (Pathlib.parent p // fix_mojibake (Pathlib.name p)) = true ->
  let name := Pathlib.name p in
  fix_name p (self, w)
  = (None, (self, World (fs w) (denied w) (renames w)
                    (stdout w ++ [ Attempting name;
                                   FailedConversion "latin1" name;
                                   FailedConversion "cp1252" name;
                                   FailedConversion "gbk" name;
                                   FailedConversion "gb2312" name;
                                   FailedConversion "big5" name;
                                   CouldNotFix name ]))).
Proof.
  intros Hc Hbig Hmoji name. subst name.
  assert (E : Codec.encode_latin1 (Pathlib.name p) = None).
  { unfold Codec.encode_latin1. destruct (forallb _ _) eqn:F; [|reflexivity].
    rewrite forallb_forall in F. apply list_elem_of_In in Hc.
    specialize (F _ Hc). apply andb_prop in F as [_ F]. apply Z.leb_le in F. lia. }
  assert (Hbad : is_filename_valid (Pathlib.name p) = false).
  { unfold is_filename_valid. destruct (forallb _ _) eqn:F; [|reflexivity].
    rewrite forallb_forall in F. apply list_elem_of_In in Hc.
    specialize (F _ Hc). unfold Py.is_ascii in F.
    apply andb_prop in F as [_ F]. apply Z.ltb_lt in F. lia. }
  rewrite fix_filename_encoding_unfold. cbv zeta. rewrite Hbad.
  assert (Hguard : bool_decide (fix_mojibake (Pathlib.name p) <> Pathlib.name p)
                   && negb (Os.exists_ w (Pathlib.parent p // fix_mojibake (Pathlib.name p)))
                   = false).
  { destruct Hmoji as [H | H].
    - rewrite bool_decide_eq_false_2 by (intros Hn; exact (Hn H)). reflexivity.
    - rewrite H, andb_false_r. reflexivity. }
  rewrite Hguard, brute_force_beyond_latin1 by exact E.
  cbn [Os.print fs denied renames stdout fmap list_fmap encodings_to_try legacy_name].
  rewrite <- app_assoc. reflexivity.
Qed.

End PathRepairResult.

(** ** What the loop over the encodings can rename to *)

Lemma filter_ascii_valid s : is_filename_valid s = true -> List.filter Py.is_ascii s = s.
Proof.
  unfold is_filename_valid. induction s as [|c s IH]; [reflexivity|].
  cbn [forallb List.filter]. intros [Hc Hs]%andb_prop. rewrite Hc, IH by exact Hs. reflexivity.
Qed.

Lemma cp1252_char_high b u :
  Codec.cp1252_char b = Some u -> Py.is_ascii b = false -> Py.is_ascii u = false.
Proof.
  unfold Codec.cp1252_char. destruct (_ && _) eqn:R.
  - intros H _. destruct (List.find _ _) as [[b' u']|] eqn:F; [|discriminate].
    cbn in H. injection H as ->. apply find_some in F as [Hin _].
    assert (Hall : Forall (fun e => Py.is_ascii e.2 = false) Codec.cp1252_high)
      by (repeat constructor).
    rewrite Forall_forall in Hall. apply list_elem_of_In in Hin.
    exact (Hall _ Hin).
  - intros [= <-] H. exact H.
Qed.

Lemma cp1252_char_low b : Py.is_ascii b = true -> Codec.cp1252_char b = Some b.
Proof.
  unfold Py.is_ascii, Codec.cp1252_char. intros [H1 H2]%andb_prop.
  apply Z.ltb_lt in H2. rewrite (proj2 (Z.leb_gt 0x80 b)) by lia. reflexivity.
Qed.

Lemma cp1252_ascii bs :
  is_filename_valid (Codec.decode_ignore Codec.cp1252 bs) = true ->
  Codec.decode_ignore Codec.cp1252 bs = List.filter Py.is_ascii bs.
Proof.
  unfold Codec.decode_ignore. cbn [Codec.dinit Codec.cp1252 Codec.stateless].
  induction bs as [|b bs IH]; [reflexivity|].
  rewrite decode_from_step. cbn [Codec.dstep Codec.cp1252 Codec.stateless].
  cbn [List.filter]. destruct (Py.is_ascii b) eqn:Hb.
  - rewrite (cp1252_char_low _ Hb). cbn [Nat.sub drop app].
    unfold is_filename_valid. cbn [forallb]. intros [_ H]%andb_prop.
    f_equal. apply IH, H.
  - destruct (Codec.cp1252_char b) as [u|] eqn:E; cbn [Nat.sub drop app].
    + unfold is_filename_valid. cbn [forallb].
      rewrite (cp1252_char_high _ _ E Hb). discriminate.
    + exact IH.
Qed.

Lemma dbcs_ascii table bs :
  (forall a b u, table a b = Some u -> 0x80 <= u) ->
  is_filename_valid (Codec.decode_ignore (Codec.dbcs table) bs) = true ->
  Codec.decode_ignore (Codec.dbcs table) bs = List.filter Py.is_ascii bs.
Proof.
  intros Htable. unfold Codec.decode_ignore. cbn [Codec.dinit Codec.dbcs Codec.stateless].
  induction bs as [|c bs IH]; [reflexivity|].
  rewrite decode_from_step. cbn [Codec.dstep Codec.dbcs Codec.stateless].
  cbn [List.filter]. destruct (c <? 0x80) eqn:Hc.
  - cbn [Nat.sub drop app]. unfold is_filename_valid. cbn [forallb].
    intros [Hv H]%andb_prop. rewrite Hv. f_equal. apply IH, H.
  - assert (Hhigh : Py.is_ascii c = false).
    { unfold Py.is_ascii. rewrite Hc. apply andb_false_r. }
    rewrite Hhigh. destruct bs as [|c2 bs'].
    + reflexivity.
    + destruct (table c c2) as [u|] eqn:E.
      * unfold is_filename_valid. cbn [app forallb].
        apply Htable in E. unfold Py.is_ascii at 1.
        rewrite (proj2 (Z.ltb_ge u 0x80)) by lia. rewrite andb_false_r. discriminate.
      * cbn [Nat.sub drop app]. exact IH.
Qed.

Section AsciiCandidates.

Variable gbk_table gb2312_table big5_table : Z -> Z -> option Z.

(** The double-byte tables map to characters outside ASCII. *)
Hypothesis gbk_high : forall a b u, gbk_table a b = Some u -> 0x80 <= u.
Hypothesis gb2312_high : forall a b u, gb2312_table a b = Some u -> 0x80 <= u.
Hypothesis big5_high : forall a b u, big5_table a b = Some u -> 0x80 <= u.

Local Abbreviation fix_name := (fix_filename_encoding gbk_table gb2312_table big5_table).
Local Abbreviation dec := (decoder_of gbk_table gb2312_table big5_table).

Lemma candidate_ascii e bs :
  is_filename_valid (Codec.decode_ignore (dec e) bs) = true ->
  Codec.decode_ignore (dec e) bs = List.filter Py.is_ascii bs.
Proof.
  destruct e; cbn [decoder_of].
  - rewrite latin1_decode. intros H. symmetry. apply filter_ascii_valid, H.
  - apply cp1252_ascii.
  - apply dbcs_ascii, gbk_high.
  - apply dbcs_ascii, gb2312_high.
  - apply dbcs_ascii, big5_high.
Qed.

(** X8: the loop over the encodings can only delete characters.  With
    tables that map double bytes to characters outside ASCII, as those of
    the runtime do, a candidate that passes the validity check is the
    name with its non-ASCII characters removed, whichever encoding
    produced it.  So a path returned by [fix_filename_encoding] carries
    the name repaired by the mojibake table or the ASCII characters of
    the old name. *)
Theorem X8_brute_force_only_deletes p self w q :
  (fix_name p (self, w)).1 = Some q ->
  q = Pathlib.parent p // fix_mojibake (Pathlib.name p) \/
  q = Pathlib.parent p // List.filter Py.is_ascii (Pathlib.name p).
Proof.
  intros Hq.
  destruct (fix_filename_encoding_result _ _ _ p self w q Hq)
    as (_ & (new_name & -> & _ & Hnew) & _).
  destruct Hnew as [[-> _] | (_ & Hvalid & e & bs & _ & E & ->)]; [left; reflexivity|].
  right. apply encode_latin1_id in E. subst bs.
  rewrite (candidate_ascii _ _ Hvalid). reflexivity.
Qed.

End AsciiCandidates.

(** ** Content repair: what is refused, and what is never touched *)

Lemma read_bytes_lookup w p raw :
  Os.read_bytes w p = Some raw ->
  exists q, Os.resolve (fs w) [] p = Some q /\ q <> [] /\ fs w !! q = Some (File raw) /\
            Os.open_w w p = Some q.
Proof.
  unfold Os.read_bytes, Os.open_w. destruct (Os.has_nul p); [discriminate|].
  destruct (Os.resolve (fs w) [] p) as [q|]; [|discriminate]. cbn [mbind option_bind].
  destruct (bool_decide _); [discriminate|].
  destruct q as [|c q]; [discriminate|]. cbn [Os.node_at].
  match goal with |- context [match ?x with Some _ => _ | None => _ end] =>
    destruct x as [[data|]|] eqn:E end; cbv iota; [|intros [=]..].
  intros [= ->]. exists (c :: q). repeat split; auto; discriminate.
Qed.

Section ContentEdges.

Variable lookup_codec : string -> option Codec.decoder.
Variable chardet_detect : list Z -> option string.

Local Abbreviation fix_content := (fix_file_content_encoding lookup_codec chardet_detect).


(** X11: when the detector names an encoding the codec registry does
    not know, opening the file for reading raises; the method prints
    the error and returns [False], and the file keeps its bytes. *)
Theorem X11_unknown_codec_is_reported p self w raw enc :
  Os.read_bytes w p = Some raw ->
  raw <> [] -> 0 ∉ take 1024 raw ->
  chardet_detect raw = Some enc ->
  enc <> ""%string -> lower enc <> "utf-8"%string ->
  lookup_codec enc = None ->
  fix_content p (self, w) = (false, (self, Os.print (ErrorFixingContent p) w)).
Proof.
  intros E Hne Hnul Hdet Henc Hutf Hd. rewrite fix_file_content_encoding_unfold.
  pose proof (read_bytes_stat _ _ _ E) as Hstat.
  unfold Os.is_file. rewrite Hstat, E. cbn [negb].
  rewrite (bool_decide_eq_false_2 (0 ∈ _)) by exact Hnul.
  rewrite (bool_decide_eq_false_2 (raw = [])) by exact Hne.
  rewrite Hdet.
  rewrite (bool_decide_eq_false_2 (enc = _)) by exact Henc.
  rewrite (bool_decide_eq_false_2 (lower enc = _)) by exact Hutf.
  cbn [orb]. rewrite (transcode_unfold _ _ _ _ _ _ E), Hd. reflexivity.
Qed.

(** X12: whatever the outcome, content repair issues no rename, creates
    and removes no entry and leaves [problematic_files] alone: every
    entry but the file itself is as it was, and the file is still a
    file.  A run that returns [False] leaves the object unchanged; one
    that returns [True] adds one entry to [encoding_issues]. *)
Theorem X12_content_repair_frame p self w :
  let r := fix_content p (self, w) in
  renames r.2.2 = renames w /\ denied r.2.2 = denied w /\
  problematic_files r.2.1 = problematic_files self /\
  (forall k, fs r.2.2 !! k = fs w !! k \/
             Os.resolve (fs w) [] p = Some k /\
             exists old new, fs w !! k = Some (File old) /\ fs r.2.2 !! k = Some (File new)) /\
  (r.1 = false -> r.2.1 = self) /\
  (r.1 = true -> exists enc,
     encoding_issues r.2.1 = encoding_issues self ++ [(p, enc, "utf-8"%string)]).
Proof.
  intros r. subst r. rewrite fix_file_content_encoding_unfold.
  destruct (negb _); [cbn; repeat split; auto; discriminate|].
  destruct (Os.read_bytes w p) as [raw|] eqn:E; [|cbn; repeat split; auto; discriminate].
  destruct (bool_decide (0 ∈ _)); [cbn; repeat split; auto; discriminate|].
  destruct (if bool_decide (raw = []) then None else chardet_detect raw) as [enc|];
    [|cbn; repeat split; auto; discriminate].
  destruct (_ || _); [cbn; repeat split; auto; discriminate|].
  rewrite (transcode_unfold _ _ _ _ _ _ E).
  destruct (read_bytes_lookup _ _ _ E) as (q & Hq & Hqne & Hfile & Hopen).
  destruct (lookup_codec enc) as [d|]; [|cbn; repeat split; auto; discriminate].
  rewrite Hopen.
  destruct (Codec.encode_utf8 _) as [out|]; cbn [fst snd].
  - split; [reflexivity|]. split; [reflexivity|]. split; [reflexivity|].
    split; [|split; [discriminate | intros _; exists enc; reflexivity]].
    intros k. destruct (decide (k = q)) as [->|Hne].
    + right. split; [exact Hq|]. exists raw, out. split; [exact Hfile|].
      cbn [Os.print Os.set_data fs]. apply lookup_insert_eq.
    + left. cbn [Os.print Os.set_data fs]. apply lookup_insert_ne. congruence.
  - split; [reflexivity|]. split; [reflexivity|]. split; [reflexivity|].
    split; [|split; [reflexivity | discriminate]].
    intros k. destruct (decide (k = q)) as [->|Hne].
    + right. split; [exact Hq|]. exists raw, []. split; [exact Hfile|].
      cbn [Os.print Os.set_data fs]. apply lookup_insert_eq.
    + left. cbn [Os.print Os.set_data fs]. apply lookup_insert_ne. congruence.
Qed.

End ContentEdges.

(** ** Plain names, listings and resolution *)

Lemma plain_spec x :
  plain x = true <-> x ≠ [] ∧ x ≠ Py.lit "." ∧ x ≠ Py.lit ".." ∧ (0x2F ∉ x) ∧ (0 ∉ x).
Proof. unfold plain. apply bool_decide_eq_true. Qed.

Lemma names_plain_spec m :
  names_plain m = true <-> forall k v, m !! k = Some v -> Forall (fun x => plain x = true) k.
Proof.
  unfold names_plain. rewrite forallb_forall. split.
  - intros H k v Hk. apply Forall_forall. intros x Hx.
    assert (Hin : In (k, v) (map_to_list m)) by (apply list_elem_of_In, elem_of_map_to_list, Hk).
    specialize (H _ Hin). cbn in H. rewrite forallb_forall in H.
    apply H, list_elem_of_In, Hx.
  - intros H [k v] Hin. apply list_elem_of_In, elem_of_map_to_list in Hin.
    cbn. apply forallb_forall. intros x Hx. apply list_elem_of_In in Hx.
    specialize (H _ _ Hin). rewrite Forall_forall in H. apply H, Hx.
Qed.

Lemma parents_exist_spec m :
  parents_exist m = true <->
  forall k v, m !! k = Some v -> Os.node_at m (Pathlib.parent k) = Some Dir.
Proof.
  split.
  - intros H k v Hk. exact (parent_exists _ _ _ H Hk).
  - intros H. unfold parents_exist. apply forallb_forall. intros [k v] Hin.
    apply list_elem_of_In, elem_of_map_to_list in Hin. cbn.
    unfold Os.dir_at. apply bool_decide_eq_true. exact (H _ _ Hin).
Qed.

Lemma max_list_ge (l : list nat) n : n ∈ l -> (n <= max_list l)%nat.
Proof.
  intros Hin. induction Hin as [x l | x y l _ IH]; cbn [max_list].
  - apply Nat.le_max_l.
  - etrans; [exact IH | apply Nat.le_max_r].
Qed.

Lemma height_spec m k v : m !! k = Some v -> (length k <= height m)%nat.
Proof.
  intros Hk. unfold height. apply max_list_ge.
  apply list_elem_of_fmap. exists (k, v). split; [reflexivity|].
  apply elem_of_map_to_list, Hk.
Qed.

Lemma has_nul_app p q : Os.has_nul (p ++ q) = Os.has_nul p || Os.has_nul q.
Proof. unfold Os.has_nul. apply existsb_app. Qed.

Lemma plain_no_nul x : plain x = true -> existsb (Z.eqb 0) x = false.
Proof.
  intros (_ & _ & _ & _ & H)%plain_spec.
  destruct (existsb (Z.eqb 0) x) eqn:E; [|reflexivity]. exfalso.
  apply existsb_exists in E as (c & Hin & Hc). apply Z.eqb_eq in Hc. subst c.
  apply H, list_elem_of_In, Hin.
Qed.

Lemma plain_truediv top x : plain x = true -> top // x = top ++ [x].
Proof.
  intros (Hne & Hdot & _ & Hsep & _)%plain_spec. apply truediv_plain; assumption.
Qed.

Lemma has_nul_plain top x :
  Os.has_nul top = false -> plain x = true -> Os.has_nul (top // x) = false.
Proof.
  intros Htop Hx. rewrite (plain_truediv _ _ Hx), has_nul_app, Htop. cbn.
  rewrite (plain_no_nul _ Hx). reflexivity.
Qed.

Lemma parent_snoc (q : path) x : Pathlib.parent (q ++ [x]) = q.
Proof. unfold Pathlib.parent. apply removelast_last. Qed.

Lemma name_snoc (q : path) x : Pathlib.name (q ++ [x]) = x.
Proof. unfold Pathlib.name. apply last_last. Qed.

(** *** Listings *)

Lemma entries_spec m q x n :
  (x, n) ∈ Walk.entries m q <-> m !! (q ++ [x]) = Some n.
Proof.
  unfold Walk.entries. rewrite list_elem_of_omap. split.
  - intros [[k v] [Hin Hk]]. apply elem_of_map_to_list in Hin. cbn [fst snd] in Hk.
    destruct (bool_decide _) eqn:E; [|discriminate]. injection Hk as <- <-.
    apply bool_decide_eq_true in E as [Hne <-].
    unfold Pathlib.parent, Pathlib.name. rewrite <- app_removelast_last by exact Hne.
    exact Hin.
  - intros Hk. exists (q ++ [x], n). split; [apply elem_of_map_to_list, Hk|].
    cbn [fst snd]. rewrite bool_decide_eq_true_2.
    + rewrite name_snoc. reflexivity.
    + split; [destruct q; discriminate | apply parent_snoc].
Qed.

Lemma dirs_of_spec l x : x ∈ Walk.dirs_of l <-> (x, Dir) ∈ l.
Proof.
  unfold Walk.dirs_of. rewrite list_elem_of_fmap. split.
  - intros [[y n] [-> Hin]]. apply list_elem_of_In, filter_In in Hin as [Hin Hd].
    cbn in Hd. destruct n; [discriminate|]. apply list_elem_of_In, Hin.
  - intros Hin. exists (x, Dir). split; [reflexivity|].
    apply list_elem_of_In, filter_In. split; [apply list_elem_of_In, Hin | reflexivity].
Qed.

Lemma files_of_spec l x : x ∈ Walk.files_of l <-> exists data, (x, File data) ∈ l.
Proof.
  unfold Walk.files_of. rewrite list_elem_of_fmap. split.
  - intros [[y n] [-> Hin]]. apply list_elem_of_In, filter_In in Hin as [Hin Hd].
    cbn in Hd. destruct n as [data|]; [|discriminate]. exists data. apply list_elem_of_In, Hin.
  - intros [data Hin]. exists (x, File data). split; [reflexivity|].
    apply list_elem_of_In, filter_In. split; [apply list_elem_of_In, Hin | reflexivity].
Qed.

Lemma scandir_listed order w top l :
  Walk.scandir order w top = Walk.Listed l ->
  Os.has_nul top = false /\
  exists q, Os.resolve (fs w) [] top = Some q /\ Os.node_at (fs w) q = Some Dir /\
            l = order (Walk.entries (fs w) q).
Proof.
  unfold Walk.scandir. destruct (Os.has_nul top); [discriminate|].
  destruct (Os.resolve (fs w) [] top) as [q|]; [|discriminate].
  destruct (Os.dir_at (fs w) q) eqn:E; [|discriminate]. intros [= <-].
  split; [reflexivity|]. exists q. split; [reflexivity|]. split; [|reflexivity].
  apply bool_decide_eq_true in E. exact E.
Qed.

(** *** Resolution is lexical *)

Lemma resolve_norm m rest : forall cur q, Os.resolve m cur rest = Some q -> q = norm cur rest.
Proof.
  induction rest as [|c rest IH]; intros cur q; cbn [Os.resolve norm].
  - intros [= <-]. reflexivity.
  - destruct (Os.dir_at m cur); [|discriminate]. destruct (bool_decide _); apply IH.
Qed.

Lemma norm_app a b : forall cur, norm cur (a ++ b) = norm (norm cur a) b.
Proof.
  induction a as [|c a IH]; intros cur; [reflexivity|].
  cbn [app norm]. destruct (bool_decide _); apply IH.
Qed.

Lemma norm_snoc top x : x <> Py.lit ".." -> norm [] (top ++ [x]) = norm [] top ++ [x].
Proof.
  intros Hx. rewrite norm_app. cbn [norm].
  rewrite bool_decide_eq_false_2 by exact Hx. reflexivity.
Qed.

Lemma resolve_app m a b : forall cur,
  Os.resolve m cur (a ++ b) = match Os.resolve m cur a with
                              | Some q => Os.resolve m q b
                              | None => None
                              end.
Proof.
  induction a as [|c a IH]; intros cur; [reflexivity|].
  cbn [app Os.resolve]. destruct (Os.dir_at m cur).
  - destruct (bool_decide _); apply IH.
  - reflexivity.
Qed.

Lemma resolve_snoc m top q x :
  Os.resolve m [] top = Some q -> x <> Py.lit ".." -> Os.dir_at m q = true ->
  Os.resolve m [] (top ++ [x]) = Some (q ++ [x]).
Proof.
  intros Hq Hx Hd. rewrite resolve_app, Hq. cbn [Os.resolve].
  rewrite Hd, bool_decide_eq_false_2 by exact Hx. reflexivity.
Qed.

(** The parts of a resolved path are parts of the path. *)
Lemma resolve_parts (P : Py.str -> Prop) m rest : forall cur q,
  Os.resolve m cur rest = Some q ->
  Forall P cur -> Forall (fun x => x = Py.lit ".." \/ P x) rest -> Forall P q.
Proof.
  induction rest as [|c rest IH]; intros cur q; cbn [Os.resolve].
  - intros [= <-] H _. exact H.
  - destruct (Os.dir_at m cur); [|discriminate].
    intros Hq Hcur Hrest. apply Forall_cons in Hrest as [Hc Hrest].
    destruct (bool_decide (c = Py.lit "..")) eqn:E.
    + apply (IH _ _ Hq); [|exact Hrest].
      unfold Pathlib.parent. destruct cur as [|a cur] using rev_ind; [constructor|].
      rewrite removelast_last. apply Forall_app in Hcur as [H _]. exact H.
    + apply bool_decide_eq_false in E. destruct Hc as [Hc | Hc]; [congruence|].
      apply (IH _ _ Hq); [|exact Hrest].
      apply Forall_app. split; [exact Hcur | constructor; [exact Hc | constructor]].
Qed.

(** ** Invariants of a walk *)

Lemma bind_run {S A B} (m : M S A) (k : A -> M S B) s :
  bind m k s = k (m s).1 (m s).2.
Proof. unfold bind. destruct (m s). reflexivity. Qed.

Section WalkFacts.

Context {S : Type}.
Variable order : list (Py.str * node) -> list (Py.str * node).
Variable body : path -> list Py.str -> list Py.str -> M (S * world) (option (list Py.str)).

(** What holds of the state throughout, and of the directories walked. *)
Variable I : S * world -> Prop.
Variable G : path -> Prop.

Hypothesis G_nul : forall top, G top -> Os.has_nul top = false.

Lemma walk_unfold depth top s :
  Walk.walk order body (Datatypes.S depth) top s =
  match Walk.scandir order s.2 top with
  | Walk.BadPath => (Walk.Raised, s)
  | Walk.NotListed => (Walk.Completed, s)
  | Walk.Listed l =>
      match (body top (Walk.dirs_of l) (Walk.files_of l) s).1 with
      | None => (Walk.Raised, (body top (Walk.dirs_of l) (Walk.files_of l) s).2)
      | Some dirs =>
          Walk.descend (Walk.walk order body depth) top dirs
            (body top (Walk.dirs_of l) (Walk.files_of l) s).2
      end
  end.
Proof.
  cbn [Walk.walk]. unfold bind at 1, ask at 1.
  destruct (Walk.scandir order s.2 top) as [l| |]; try reflexivity.
  unfold bind. destruct (body top (Walk.dirs_of l) (Walk.files_of l) s) as [[dirs|] s1];
    reflexivity.
Qed.

Lemma descend_cons (visit : path -> M (S * world) Walk.outcome) top x dirs s :
  Walk.descend visit top (x :: dirs) s =
  match (visit (top // x) s).1 with
  | Walk.Completed => Walk.descend visit top dirs (visit (top // x) s).2
  | o => (o, (visit (top // x) s).2)
  end.
Proof.
  cbn [Walk.descend]. rewrite bind_run. destruct (visit (top // x) s).1; reflexivity.
Qed.

Section Safe.

(** The body keeps the invariant, does not raise, and leaves in [dirs]
    only names that lead to directories the walk may enter. *)
Hypothesis body_safe : forall top l s,
  I s -> G top -> Walk.scandir order s.2 top = Walk.Listed l ->
  exists dirs,
    (body top (Walk.dirs_of l) (Walk.files_of l) s).1 = Some dirs /\
    I (body top (Walk.dirs_of l) (Walk.files_of l) s).2 /\
    Forall (fun x => G (top // x)) dirs.

Lemma walk_safe depth : forall top s,
  I s -> G top ->
  (Walk.walk order body depth top s).1 <> Walk.Raised /\ I (Walk.walk order body depth top s).2.
Proof.
  induction depth as [|depth IH]; intros top s Hs Htop.
  - cbn. split; [discriminate | exact Hs].
  - rewrite walk_unfold.
    destruct (Walk.scandir order s.2 top) as [l| |] eqn:E.
    + destruct (body_safe top l s Hs Htop E) as (dirs & -> & Hs1 & Hdirs).
      revert Hs1. generalize (body top (Walk.dirs_of l) (Walk.files_of l) s).2.
      induction Hdirs as [|x dirs Hx Hdirs IHd]; intros s1 Hs1.
      * cbn. split; [discriminate | exact Hs1].
      * rewrite descend_cons. destruct (IH (top // x) s1 Hs1 Hx) as [Hno Hs2].
        destruct (Walk.walk order body depth (top // x) s1).1 eqn:Eo.
        -- apply IHd, Hs2.
        -- congruence.
        -- split; [discriminate | exact Hs2].
    + split; [discriminate | exact Hs].
    + unfold Walk.scandir in E. rewrite (G_nul _ Htop) in E.
      destruct (Os.resolve _ _ _) as [q|]; [destruct (Os.dir_at _ q)|]; discriminate.
Qed.

End Safe.

Section Completes.

(** When the body leaves [dirs] as the listing gave it and the
    directories of the filesystem stay within a height [D], a walk that
    may nest deep enough goes through. *)
Variable D : nat.

Hypothesis order_incl : forall l x, x ∈ order l -> x ∈ l.
Hypothesis I_plain : forall s, I s -> names_plain (fs s.2) = true.
Hypothesis I_height : forall s k, I s -> fs s.2 !! k = Some Dir -> (length k <= D)%nat.
Hypothesis G_snoc : forall top x, G top -> plain x = true -> G (top ++ [x]).
Hypothesis body_keeps : forall top l s,
  I s -> G top -> Walk.scandir order s.2 top = Walk.Listed l ->
  (body top (Walk.dirs_of l) (Walk.files_of l) s).1 = Some (Walk.dirs_of l) /\
  I (body top (Walk.dirs_of l) (Walk.files_of l) s).2.

Lemma walk_completes depth : forall top s,
  I s -> G top -> (1 <= depth)%nat -> (D + 2 <= depth + length (norm [] top))%nat ->
  (Walk.walk order body depth top s).1 = Walk.Completed /\
  I (Walk.walk order body depth top s).2.
Proof.
  induction depth as [|depth IH]; intros top s Hs Htop Hpos Hdeep; [lia|].
  rewrite walk_unfold.
  destruct (Walk.scandir order s.2 top) as [l| |] eqn:E.
  - destruct (body_keeps top l s Hs Htop E) as (-> & Hs1).
    apply scandir_listed in E as (_ & q & Hq & Hdir & ->).
    pose proof (resolve_norm _ _ _ _ Hq) as Hnorm. rewrite <- Hnorm in Hdeep.
    assert (Hq_short : (length q <= D)%nat).
    { destruct q as [|c q]; [cbn; lia|]. cbn [Os.node_at] in Hdir.
      exact (I_height _ _ Hs Hdir). }
    assert (Hnames : Forall (fun x => plain x = true)
                       (Walk.dirs_of (order (Walk.entries (fs s.2) q)))).
    { apply Forall_forall. intros x Hx.
      apply dirs_of_spec, order_incl, entries_spec in Hx.
      pose proof (proj1 (names_plain_spec _) (I_plain _ Hs) _ _ Hx) as Hk.
      apply Forall_app in Hk as [_ Hk]. apply Forall_cons in Hk as [Hk _]. exact Hk. }
    revert Hs1. generalize (body top (Walk.dirs_of (order (Walk.entries (fs s.2) q)))
                              (Walk.files_of (order (Walk.entries (fs s.2) q))) s).2.
    induction Hnames as [|x dirs Hx Hdirs IHd]; intros s1 Hs1.
    + cbn. auto.
    + rewrite descend_cons. rewrite (plain_truediv _ _ Hx).
      assert (Hx' : x <> Py.lit "..") by (apply plain_spec in Hx; tauto).
      destruct (IH (top ++ [x]) s1 Hs1 (G_snoc _ _ Htop Hx)) as [-> Hs2].
      * lia.
      * rewrite (norm_snoc _ _ Hx'), length_app. cbn [length]. rewrite <- Hnorm. lia.
      * apply IHd, Hs2.
  - auto.
  - unfold Walk.scandir in E. rewrite (G_nul _ Htop) in E.
    destruct (Os.resolve _ _ _) as [q|]; [destruct (Os.dir_at _ q)|]; discriminate.
Qed.

End Completes.

End WalkFacts.

(** ** Loops *)

Lemma for_each_cons {S A} (f : A -> M S unit) x l s :
  for_each f (x :: l) s = for_each f l (f x s).2.
Proof. cbn [for_each]. rewrite bind_run. reflexivity. Qed.

Lemma for_each_invariant {S A} (f : A -> M S unit) (P : A -> Prop) (I : S -> Prop) l :
  (forall x s, P x -> I s -> I (f x s).2) ->
  Forall P l -> forall s, I s -> I (for_each f l s).2.
Proof.
  intros Hf Hl. induction Hl as [|x l Hx Hl IH]; intros s Hs; [exact Hs|].
  rewrite for_each_cons. apply IH, Hf; assumption.
Qed.

(** ** Paths *)

Lemma split_slash_no_sep s : Forall (fun w => 0x2F ∉ w) (Pathlib.split_slash s).
Proof.
  induction s as [|c s IH]; cbn [Pathlib.split_slash].
  - constructor; [apply not_elem_of_nil | constructor].
  - destruct (c =? 0x2F) eqn:E.
    + constructor; [apply not_elem_of_nil | exact IH].
    + apply Z.eqb_neq in E. destruct (Pathlib.split_slash s) as [|w ws].
      * constructor; [|constructor]. apply not_elem_of_cons. split; [congruence|].
        apply not_elem_of_nil.
      * apply Forall_cons in IH as [Hw Hws]. constructor; [|exact Hws].
        apply not_elem_of_cons. split; [congruence | exact Hw].
Qed.

Lemma parts_of_ok s : Forall part_ok (Pathlib.parts_of s).
Proof.
  unfold Pathlib.parts_of. apply Forall_forall. intros w Hw.
  apply list_elem_of_filter in Hw as [[Hne Hdot] Hin].
  pose proof (split_slash_no_sep s) as H. rewrite Forall_forall in H.
  split; [exact Hne|]. split; [exact Hdot | exact (H _ Hin)].
Qed.

Lemma truediv_ok top s : Forall part_ok top -> Forall part_ok (top // s).
Proof.
  intros H. unfold Pathlib.truediv. destruct (Py.startswith _ _).
  - apply parts_of_ok.
  - apply Forall_app. split; [exact H | apply parts_of_ok].
Qed.

Lemma parent_ok (P : Py.str -> Prop) (p : path) : Forall P p -> Forall P (Pathlib.parent p).
Proof.
  intros H. unfold Pathlib.parent. destruct p as [|x p _] using rev_ind; [constructor|].
  rewrite removelast_last. apply Forall_app in H as [H _]. exact H.
Qed.

Lemma plain_ok x : plain x = true -> part_ok x.
Proof. intros H%plain_spec. unfold part_ok. tauto. Qed.

Lemma walkable_nul top : walkable top -> Os.has_nul top = false.
Proof. intros [_ H]. exact H. Qed.

Lemma walkable_snoc top x : walkable top -> plain x = true -> walkable (top ++ [x]).
Proof.
  intros [Hok Hnul] Hx. split.
  - apply Forall_app. split; [exact Hok | constructor; [apply plain_ok, Hx | constructor]].
  - rewrite has_nul_app, Hnul. cbn. rewrite (plain_no_nul _ Hx). reflexivity.
Qed.

Lemma has_nul_part (p : path) x : Os.has_nul p = false -> x ∈ p -> 0 ∉ x.
Proof.
  unfold Os.has_nul. intros H Hx H0.
  assert (E : existsb (existsb (Z.eqb 0)) p = true).
  { apply existsb_exists. exists x. split; [apply list_elem_of_In, Hx|].
    apply existsb_exists. exists 0. split; [apply list_elem_of_In, H0 | reflexivity]. }
  congruence.
Qed.

(** ** What a rename keeps *)

Lemma renamed_no_nul w src dst m' :
  Os.renamed w src dst = Some m' -> Os.has_nul src = false /\ Os.has_nul dst = false.
Proof.
  unfold Os.renamed. destruct (Os.has_nul src); [discriminate|].
  destruct (Os.has_nul dst); [discriminate|]. auto.
Qed.

(** The path a rename resolves its destination to is made of plain names. *)
Lemma renamed_target_plain w src dst m' d :
  Forall part_ok dst -> Os.renamed w src dst = Some m' ->
  Os.resolve (fs w) [] dst = Some d -> Forall (fun x => plain x = true) d.
Proof.
  intros Hok Hren Hd. apply renamed_no_nul in Hren as [_ Hnul].
  apply (resolve_parts _ _ _ _ _ Hd); [constructor|].
  apply Forall_forall. intros x Hx.
  destruct (decide (x = Py.lit "..")) as [->|Hdd]; [left; reflexivity|]. right.
  rewrite Forall_forall in Hok. destruct (Hok _ Hx) as (Hne & Hdot & Hsep).
  apply plain_spec. repeat split; try assumption. exact (has_nul_part _ _ Hnul Hx).
Qed.

Lemma move_names_plain m s d :
  m !! d = None -> names_plain m = true -> Forall (fun x => plain x = true) d ->
  names_plain (Os.move m s d) = true.
Proof.
  intros Hfree Hm Hd. apply names_plain_spec. intros k v Hk.
  rewrite names_plain_spec in Hm.
  apply (move_lookup_inv _ _ _ Hfree) in Hk as [[_ Hk] | (suffix & -> & Hk)].
  - exact (Hm _ _ Hk).
  - apply Forall_app. split; [exact Hd|].
    specialize (Hm _ _ Hk). apply Forall_app in Hm as [_ Hm]. exact Hm.
Qed.

Lemma renamed_beside_names_plain w p m' :
  Forall part_ok p -> names_plain (fs w) = true -> renamed_beside w p m' ->
  names_plain m' = true.
Proof.
  intros Hp Hm [-> | (new_name & Hfree & Hren)]; [exact Hm|].
  destruct (renamed_free_inv _ _ _ _ Hfree Hren)
    as (s & d & n & Hs & Hd & Hn & Hsne & Hdne & Hnone & Hsd & ->).
  apply move_names_plain; [exact Hnone | exact Hm|].
  apply (renamed_target_plain _ _ _ _ _ (truediv_ok _ _ (parent_ok _ _ Hp)) Hren Hd).
Qed.

Lemma renamed_beside_parents_exist w p m' :
  parents_exist (fs w) = true -> renamed_beside w p m' -> parents_exist m' = true.
Proof.
  intros Hwf [-> | (new_name & Hfree & Hren)]; [exact Hwf|].
  destruct (renamed_free_post _ _ _ _ Hwf Hfree Hren) as (_ & _ & _ & _ & _ & _ & _ & _ & H).
  exact H.
Qed.

(** Renaming something that is not a directory changes no directory. *)
Lemma renamed_beside_keeps_dirs w p m' :
  parents_exist (fs w) = true -> renamed_beside w p m' ->
  (forall s, Os.resolve (fs w) [] p = Some s -> fs w !! s <> Some Dir) ->
  forall k, m' !! k = Some Dir <-> fs w !! k = Some Dir.
Proof.
  intros Hwf [-> | (new_name & Hfree & Hren)] Hsrc k; [reflexivity|].
  destruct (renamed_free_inv _ _ _ _ Hfree Hren)
    as (s & d & n & Hs & Hd & Hn & Hsne & Hdne & Hnone & Hsd & ->).
  destruct n as [data|]; [|exfalso; exact (Hsrc _ Hs Hn)].
  apply (move_file_keeps_dirs _ _ _ Hwf Hnone Hdne Hsd data k Hsne Hn).
Qed.

(** ** What a change of bytes keeps *)

Section Shape.

Variables m m' : gmap path node.
Hypothesis Hshape : forall k,
  m' !! k = m !! k \/ exists old new, m !! k = Some (File old) /\ m' !! k = Some (File new).

Lemma shape_dirs k : m' !! k = Some Dir <-> m !! k = Some Dir.
Proof.
  destruct (Hshape k) as [-> | (old & new & H1 & H2)]; [reflexivity|].
  split; intros H.
  - pose proof (lookup_agree _ _ _ _ H H2). discriminate.
  - pose proof (lookup_agree _ _ _ _ H H1). discriminate.
Qed.

Lemma shape_some k v : m' !! k = Some v -> exists v0, m !! k = Some v0.
Proof.
  destruct (Hshape k) as [-> | (old & new & H1 & H2)]; eauto.
Qed.

Lemma shape_names_plain : names_plain m = true -> names_plain m' = true.
Proof.
  rewrite !names_plain_spec. intros H k v Hk.
  destruct (shape_some _ _ Hk) as [v0 Hk0]. exact (H _ _ Hk0).
Qed.

Lemma shape_parents_exist : parents_exist m = true -> parents_exist m' = true.
Proof.
  rewrite !parents_exist_spec. intros H k v Hk.
  destruct (shape_some _ _ Hk) as [v0 Hk0]. specialize (H _ _ Hk0).
  destruct (Pathlib.parent k) as [|c q]; [reflexivity|]. cbn [Os.node_at] in H |- *.
  apply shape_dirs. exact H.
Qed.

End Shape.

(** ** Steps of a scan *)

Lemma call_run {O A} (m : M (O * world) A) (s : (locals * O) * world) :
  call m s = ((m (s.1.2, s.2)).1, ((s.1.1, (m (s.1.2, s.2)).2.1), (m (s.1.2, s.2)).2.2)).
Proof. unfold call. destruct (m (s.1.2, s.2)) as [a [o w]]. reflexivity. Qed.

Lemma say_world {O} (l : line) (s : (locals * O) * world) :
  (say l s).2.2 = s.2 /\ (say l s).2.1.2 = s.1.2.
Proof. split; reflexivity. Qed.

Lemma quiet_ret {O A} (a : A) : quiet (O := O) (ret a).
Proof. intros s. repeat split. Qed.

Lemma quiet_say {O} l : quiet (O := O) (say l).
Proof. intros s. repeat split. Qed.

Lemma quiet_bind {O A B} (m : scanning O A) (k : A -> scanning O B) :
  quiet m -> (forall a, quiet (k a)) -> quiet (bind m k).
Proof.
  intros Hm Hk s. rewrite bind_run.
  destruct (Hk (m s).1 (m s).2) as (H1 & H2 & H3 & H4).
  destruct (Hm s) as (H5 & H6 & H7 & H8).
  repeat split; congruence.
Qed.

Lemma quiet_for_each {O A} (f : A -> scanning O unit) l :
  (forall x, quiet (f x)) -> quiet (for_each f l).
Proof.
  intros Hf. induction l as [|x l IH]; [apply quiet_ret|].
  cbn [for_each]. apply quiet_bind; [apply Hf | intros _; exact IH].
Qed.

Lemma quiet_self {O} : quiet (O := O) self_.
Proof. intros s. repeat split. Qed.

Lemma quiet_local {O} : quiet (O := O) local_.
Proof. intros s. repeat split. Qed.

Lemma quiet_scan_directory_summary : quiet scan_directory_summary.
Proof.
  unfold scan_directory_summary.
  apply quiet_bind; [apply quiet_say | intros _].
  apply quiet_bind; [apply quiet_say | intros _].
  apply quiet_bind; [apply quiet_self | intros self].
  apply quiet_bind.
  { destruct (problematic_files self); [apply quiet_ret|].
    apply quiet_bind; [apply quiet_say | intros _].
    apply quiet_for_each. intros x. apply quiet_say. }
  intros _. apply quiet_bind.
  { destruct (encoding_issues self); [apply quiet_ret|].
    apply quiet_bind; [apply quiet_say | intros _].
    apply quiet_for_each. intros x. apply quiet_say. }
  intros _. destruct (problematic_files self), (encoding_issues self);
    first [apply quiet_say | apply quiet_ret].
Qed.

Lemma quiet_scan_and_fix_summary : quiet scan_and_fix_summary.
Proof.
  unfold scan_and_fix_summary.
  apply quiet_bind; [apply quiet_say | intros _].
  apply quiet_bind; [apply quiet_say | intros _].
  apply quiet_bind; [apply quiet_local | intros loc].
  apply quiet_bind; [apply quiet_say | intros _].
  apply quiet_bind; [apply quiet_say | intros _].
  apply quiet_bind; [apply quiet_self | intros self].
  destruct (fixed_files self); [apply quiet_say|].
  apply quiet_bind; [apply quiet_say | intros _].
  apply quiet_for_each. intros x. apply quiet_say.
Qed.

(** ** Where the two repairs of a name rename to *)

Lemma fix_pathname_renames_beside p self w :
  renamed_beside w p (fs (fix_pathname p (self, w)).2.2).
Proof.
  rewrite fix_pathname_unfold. cbv zeta.
  destruct (negb _); [left; reflexivity|].
  destruct (bool_decide _); [left; reflexivity|].
  destruct (Os.exists_ w _) eqn:Hex; [left; reflexivity|].
  destruct (Os.rename _ _ w) as [[|] w1] eqn:Hr.
  - apply rename_returned in Hr as (Hfs & _). right. eauto.
  - apply rename_raised in Hr as (_ & Hfs & _). left. exact Hfs.
Qed.

Section Beside.

Variable gbk_table gb2312_table big5_table : Z -> Z -> option Z.
Local Abbreviation fix_name := (fix_filename_encoding gbk_table gb2312_table big5_table).

Lemma fix_filename_encoding_renames_beside p self w :
  renamed_beside w p (fs (fix_name p (self, w)).2.2).
Proof.
  destruct (fix_name p (self, w)).1 as [q|] eqn:Hq.
  - destruct (fix_filename_encoding_result _ _ _ p self w q Hq)
      as (_ & (new_name & -> & _) & Hfree & Hren & _).
    right. eauto.
  - left. revert Hq. rewrite fix_filename_encoding_unfold. cbv zeta.
    destruct (is_filename_valid _); [reflexivity|].
    set (w0 := Os.print _ w). destruct (_ && _).
    + destruct (Os.rename _ _ w0) as [[|] w1] eqn:Hr; [discriminate|].
      intros _. apply rename_raised in Hr as (_ & Hfs & _). exact Hfs.
    + intros Hq.
      destruct (brute_force_trace gbk_table gb2312_table big5_table p encodings_to_try self w0)
        as (calls & _ & _ & _ & _ & Hres).
      cbv zeta in Hres. rewrite Hq in Hres. destruct Hres as (Hfs & _). exact Hfs.
Qed.

End Beside.

(** ** The bytes content repair may change *)

Section ContentShape.

Variable lookup_codec : string -> option Codec.decoder.
Variable chardet_detect : list Z -> option string.

Lemma content_repair_shape p self w k :
  let r := fix_file_content_encoding lookup_codec chardet_detect p (self, w) in
  fs r.2.2 !! k = fs w !! k \/
  Os.resolve (fs w) [] p = Some k /\
  exists old new, fs w !! k = Some (File old) /\ fs r.2.2 !! k = Some (File new).
Proof.
  intros r. subst r. rewrite fix_file_content_encoding_unfold.
  destruct (negb _); [left; reflexivity|].
  destruct (Os.read_bytes w p) as [raw|] eqn:E; [|left; reflexivity].
  destruct (bool_decide (0 ∈ _)); [left; reflexivity|].
  destruct (if bool_decide (raw = []) then None else chardet_detect raw) as [enc|];
    [|left; reflexivity].
  destruct (_ || _); [left; reflexivity|].
  rewrite (transcode_unfold _ _ _ _ _ _ E).
  destruct (read_bytes_lookup _ _ _ E) as (q & Hq & Hqne & Hfile & Hopen).
  destruct (lookup_codec enc) as [d|]; [|left; reflexivity].
  rewrite Hopen.
  destruct (Codec.encode_utf8 _) as [out|]; cbn [fst snd Os.print Os.set_data fs].
  - destruct (decide (k = q)) as [->|Hne].
    + right. split; [exact Hq|]. exists raw, out. split; [exact Hfile|]. apply lookup_insert_eq.
    + left. apply lookup_insert_ne. congruence.
  - destruct (decide (k = q)) as [->|Hne].
    + right. split; [exact Hq|]. exists raw, []. split; [exact Hfile|]. apply lookup_insert_eq.
    + left. apply lookup_insert_ne. congruence.
Qed.

End ContentShape.

(** ** The two scans, with the state written out *)

Lemma scan_directory_run gbk_table gb2312_table big5_table lookup_codec chardet_detect
    order depth target_path self w :
  let scan_path := scan_path_of target_path (root_path self) in
  let s0 : (locals * EncodingFixer) * world :=
    (say (Dashes 50) (say (ScanningDirectory scan_path) ((Locals 0 0 [], self), w)).2).2 in
  let r1 := Walk.walk order
              (scan_directory_body gbk_table gb2312_table big5_table lookup_codec chardet_detect)
              depth scan_path s0 in
  let s2 := match r1.1 with
            | Walk.Completed => (scan_directory_summary r1.2).2
            | _ => r1.2
            end in
  scan_directory gbk_table gb2312_table big5_table lookup_codec chardet_detect
    order depth target_path (self, w)
  = ((r1.1, report s2.1.1), (s2.1.2, s2.2)).
Proof.
  intros scan_path s0 r1 s2. unfold scan_directory. cbn [fst snd].
  rewrite !bind_run. fold scan_path. fold s0. fold r1.
  subst s2. destruct r1.1.
  - rewrite bind_run. cbn [ret fst snd].
    destruct (scan_directory_summary r1.2) as [u [[loc self'] w']]. reflexivity.
  - cbn [ret]. destruct r1.2 as [[loc self'] w']. reflexivity.
  - cbn [ret]. destruct r1.2 as [[loc self'] w']. reflexivity.
Qed.

Lemma scan_and_fix_directory_run order depth target_path fix_folders self w :
  let scan_path := scan_path_of target_path (fixer_root self) in
  let s0 : (locals * UnicodeFilenameFixer) * world :=
    (say (Dashes 60) (say (ScanningForEscapes scan_path) ((Locals 0 0 [], self), w)).2).2 in
  let r1 := Walk.walk order (scan_and_fix_body fix_folders) depth scan_path s0 in
  let s2 := match r1.1 with
            | Walk.Completed => (scan_and_fix_summary r1.2).2
            | _ => r1.2
            end in
  scan_and_fix_directory order depth target_path fix_folders (self, w)
  = ((r1.1, s2.1.1), (s2.1.2, s2.2)).
Proof.
  intros scan_path s0 r1 s2. unfold scan_and_fix_directory. cbn [fst snd].
  rewrite !bind_run. fold scan_path. fold s0. fold r1.
  subst s2. destruct r1.1.
  - rewrite bind_run. cbn [ret fst snd].
    destruct (scan_and_fix_summary r1.2) as [u [[loc self'] w']]. reflexivity.
  - cbn [ret]. destruct r1.2 as [[loc self'] w']. reflexivity.
  - cbn [ret]. destruct r1.2 as [[loc self'] w']. reflexivity.
Qed.

(** ** [EncodingFixer.scan_directory] *)

Lemma same_dirs_renamed m0 w p m' :
  same_dirs m0 (fs w) -> Forall part_ok p -> renamed_beside w p m' ->
  (forall s, Os.resolve (fs w) [] p = Some s -> m0 !! s <> Some Dir) ->
  same_dirs m0 m'.
Proof.
  intros (Hn & Hp & Hd) Hok Hren Hsrc. split; [|split].
  - exact (renamed_beside_names_plain _ _ _ Hok Hn Hren).
  - exact (renamed_beside_parents_exist _ _ _ Hp Hren).
  - intros k. rewrite <- Hd. apply (renamed_beside_keeps_dirs _ _ _ Hp Hren).
    intros s Hs H. apply (Hsrc _ Hs). apply Hd. exact H.
Qed.

Lemma same_dirs_shape m0 m m' :
  same_dirs m0 m ->
  (forall k, m' !! k = m !! k \/
             exists old new, m !! k = Some (File old) /\ m' !! k = Some (File new)) ->
  same_dirs m0 m'.
Proof.
  intros (Hn & Hp & Hd) Hshape. split; [|split].
  - exact (shape_names_plain _ _ Hshape Hn).
  - exact (shape_parents_exist _ _ Hshape Hp).
  - intros k. rewrite <- Hd. apply shape_dirs, Hshape.
Qed.

Section ScanDirectoryFacts.

Variable gbk_table gb2312_table big5_table : Z -> Z -> option Z.
Variable lookup_codec : string -> option Codec.decoder.
Variable chardet_detect : list Z -> option string.
Variable order : list (Py.str * node) -> list (Py.str * node).

(** The system lists what the directory holds. *)
Hypothesis order_incl : forall l x, x ∈ order l -> x ∈ l.

Local Abbreviation scan_file' :=
  (scan_file gbk_table gb2312_table big5_table lookup_codec chardet_detect).
Local Abbreviation body :=
  (scan_directory_body gbk_table gb2312_table big5_table lookup_codec chardet_detect).

Lemma scan_file_same_dirs m0 top x (s : (locals * EncodingFixer) * world) :
  walkable top -> plain x = true ->
  m0 !! (norm [] top ++ [x]) <> Some Dir ->
  same_dirs m0 (fs s.2) -> same_dirs m0 (fs (scan_file' top x s).2.2).
Proof.
  intros [Htop _] Hx Hfile Hs. unfold scan_file. rewrite (plain_truediv _ _ Hx).
  assert (Hx' : x <> Py.lit "..") by (apply plain_spec in Hx; tauto).
  assert (Hp : Forall part_ok (top ++ [x])).
  { apply Forall_app. split; [exact Htop | constructor; [apply plain_ok, Hx | constructor]]. }
  assert (Hsrc : forall m q, Os.resolve m [] (top ++ [x]) = Some q -> m0 !! q <> Some Dir).
  { intros m q Hq. apply resolve_norm in Hq. rewrite (norm_snoc _ _ Hx') in Hq.
    subst q. exact Hfile. }
  assert (Hcontent : forall (b : bool) (s1 : (locals * EncodingFixer) * world),
            same_dirs m0 (fs s1.2) ->
            same_dirs m0 (fs ((if b then
                                 let! _ := call (fix_file_content_encoding lookup_codec
                                                   chardet_detect (top ++ [x])) in
                                 ret tt
                               else ret tt) s1).2.2)).
  { intros b s1 Hs1. destruct b; [|exact Hs1].
    rewrite bind_run, call_run. cbn [fst snd ret].
    apply (same_dirs_shape m0 (fs s1.2)); [exact Hs1|].
    intros k.
    destruct (content_repair_shape lookup_codec chardet_detect (top ++ [x]) s1.1.2 s1.2 k)
      as [H | (_ & H)]; [left; exact H | right; exact H]. }
  rewrite bind_run. apply Hcontent.
  destruct (negb (is_filename_valid x)); [|exact Hs].
  rewrite !bind_run, call_run. cbn [fst snd ret].
  apply (same_dirs_renamed m0 s.2 (top ++ [x])); [exact Hs | exact Hp | | apply Hsrc].
  apply fix_filename_encoding_renames_beside.
Qed.

Lemma scan_directory_body_keeps m0 top l (s : (locals * EncodingFixer) * world) :
  same_dirs m0 (fs s.2) -> walkable top ->
  Walk.scandir order s.2 top = Walk.Listed l ->
  (body top (Walk.dirs_of l) (Walk.files_of l) s).1 = Some (Walk.dirs_of l) /\
  same_dirs m0 (fs (body top (Walk.dirs_of l) (Walk.files_of l) s).2.2).
Proof.
  intros Hs Htop E. unfold scan_directory_body. rewrite bind_run. cbn [ret fst snd].
  split; [reflexivity|].
  apply scandir_listed in E as (_ & q & Hq & Hdir & ->).
  apply resolve_norm in Hq. subst q.
  apply (for_each_invariant _
           (fun x => plain x = true /\ m0 !! (norm [] top ++ [x]) <> Some Dir)
           (fun s' : (locals * EncodingFixer) * world => same_dirs m0 (fs s'.2))).
  - intros x s' [Hx Hfile] Hs'. apply scan_file_same_dirs; assumption.
  - apply Forall_forall. intros x Hx.
    apply files_of_spec in Hx as [data Hx]. apply order_incl, entries_spec in Hx.
    destruct Hs as (Hn & _ & Hd). split.
    + pose proof (proj1 (names_plain_spec _) Hn _ _ Hx) as Hk.
      apply Forall_app in Hk as [_ Hk]. apply Forall_cons in Hk as [Hk _]. exact Hk.
    + intros H. apply Hd in H. pose proof (lookup_agree _ _ _ _ Hx H). discriminate.
  - exact Hs.
Qed.


End ScanDirectoryFacts.

Section StalePath.

Variable gbk_table gb2312_table big5_table : Z -> Z -> option Z.
Variable lookup_codec : string -> option Codec.decoder.
Variable chardet_detect : list Z -> option string.

Local Abbreviation fix_name := (fix_filename_encoding gbk_table gb2312_table big5_table).

(** X14: in the loop of [scan_directory] the content of a file is
    repaired under the path the walk listed it at.  When the name of the
    file has just been repaired that path names nothing any more, so the
    content repair that follows does nothing: the iteration ends in the
    state the rename left, whatever the suffix and the bytes of the
    file. *)
Theorem X14_renamed_file_keeps_its_content root filename loc self w q :
  parents_exist (fs w) = true ->
  is_filename_valid filename = false ->
  (fix_name (root // filename) (self, w)).1 = Some q ->
  let r := fix_name (root // filename) (self, w) in
  let s := scan_file gbk_table gb2312_table big5_table lookup_codec chardet_detect
             root filename ((loc, self), w) in
  s.2.2 = r.2.2 /\ s.2.1.2 = r.2.1 /\
  encoding_issues s.2.1.2 = encoding_issues self /\
  report s.2.1.1 = report loc ++ [(length (stdout w), FoundProblematic (root // filename))].
Proof.
  intros Hwf Hbad Hq r s.
  destruct (fix_filename_encoding_result _ _ _ _ self w q Hq) as (_ & _ & Hfree & Hren & Hself).
  fold r in Hren, Hself.
  pose proof (stale_after_rename _ _ _ _ Hwf Hfree Hren) as Hstale.
  subst s. unfold scan_file. rewrite Hbad. cbn [negb].
  rewrite !bind_run, call_run. cbn [fst snd ret say]. fold r.
  assert (Hissues : encoding_issues r.2.1 = encoding_issues self) by (rewrite Hself; reflexivity).
  destruct (Walk.lower_is_txt _); [|cbn [fst snd]; auto].
  rewrite bind_run, call_run. cbn [fst snd ret].
  rewrite fix_file_content_encoding_unfold. unfold Os.is_file. rewrite Hstale.
  cbn [negb fst snd]. auto.
Qed.

End StalePath.

(** ** [UnicodeFilenameFixer.scan_and_fix_directory] *)

(** What [fix_pathname] leaves behind, by its result. *)
Lemma fix_pathname_result p self w :
  let r := fix_pathname p (self, w) in
  let new_path := Pathlib.parent p // Escape.decode_unicode_escape (Pathlib.name p) in
  if r.1
  then Os.exists_ w new_path = false /\ Os.renamed w p new_path = Some (fs r.2.2) /\
       r.2.1 = record_fixed p new_path self
  else fs r.2.2 = fs w /\ r.2.1 = self.
Proof.
  intros r new_path. subst r. rewrite fix_pathname_unfold. cbv zeta.
  destruct (negb _); [cbn; auto|].
  destruct (bool_decide _); [cbn; auto|].
  fold new_path. destruct (Os.exists_ w new_path) eqn:Hex; [cbn; auto|].
  destruct (Os.rename p new_path w) as [[|] w1] eqn:Hr; cbn [fst snd].
  - apply rename_returned in Hr as (Hfs & _). auto.
  - apply rename_raised in Hr as (_ & Hfs & _). auto.
Qed.

Lemma index_found x l : x ∈ l -> exists i, index x l = Some i /\ (i < length l)%nat.
Proof.
  induction l as [|y l IH]; [intros H; inversion H|].
  intros H. cbn [index]. destruct (bool_decide (y = x)) eqn:E.
  - exists 0%nat. split; [reflexivity | cbn; lia].
  - apply bool_decide_eq_false in E. apply elem_of_cons in H as [H | H]; [congruence|].
    destruct (IH H) as (i & -> & Hi). exists (Datatypes.S i). split; [reflexivity | cbn; lia].
Qed.

Lemma index_app_l x a b i : index x a = Some i -> index x (a ++ b) = Some i.
Proof.
  revert i. induction a as [|y a IH]; intros i; [discriminate|].
  cbn [app index]. destruct (bool_decide (y = x)); [auto|].
  destruct (index x a) as [j|]; [|discriminate]. rewrite (IH j eq_refl). auto.
Qed.

Section ScanAndFixFacts.

Variable order : list (Py.str * node) -> list (Py.str * node).
Hypothesis order_incl : forall l x, x ∈ order l -> x ∈ l.

Lemma item_tallied self0 p s :
  Forall part_ok p -> tallied self0 s ->
  tallied self0 (item p s).2 /\
  ((item p s).1 = true ->
   Os.has_nul (Pathlib.parent p // Escape.decode_unicode_escape (Pathlib.name p)) = false).
Proof.
  intros Hp (Hn & Hle & added & Hadd & Hfix). unfold item.
  rewrite !bind_run, call_run. cbn [count_processed fst snd].
  pose proof (fix_pathname_result p s.1.2 s.2) as Hres. cbv zeta in Hres.
  pose proof (fix_pathname_renames_beside p s.1.2 s.2) as Hren.
  pose proof (renamed_beside_names_plain _ _ _ Hp Hn Hren) as Hn'.
  destruct (fix_pathname p (s.1.2, s.2)) as [[|] [self' w']]; cbn [fst snd] in *.
  - destruct Hres as (_ & Hrenamed & ->).
    rewrite bind_run. cbn [count_fixed ret fst snd items_fixed items_processed].
    unfold tallied. cbn [fst snd items_fixed items_processed].
    split.
    + split; [exact Hn'|]. split; [lia|].
      exists (added ++ [(p, Pathlib.parent p // Escape.decode_unicode_escape (Pathlib.name p))]).
      cbn [record_fixed fixed_files]. rewrite Hadd, app_assoc, length_app. cbn [length].
      split; [reflexivity | lia].
    + intros _. apply renamed_no_nul in Hrenamed as [_ H]. exact H.
  - destruct Hres as (_ & ->). cbn [ret fst snd items_fixed items_processed].
    unfold tallied. cbn [fst snd items_fixed items_processed].
    split; [|discriminate].
    split; [exact Hn'|]. split; [lia|]. exists added. auto.
Qed.

Lemma fix_folders_loop_cons root x todo dirs s :
  fix_folders_loop root (x :: todo) dirs s =
  if (item (root // x) s).1 then
    match index x dirs with
    | Some i =>
        fix_folders_loop root todo (<[i := Escape.decode_unicode_escape x]> dirs)
          (item (root // x) s).2
    | None => (None, (item (root // x) s).2)
    end
  else fix_folders_loop root todo dirs (item (root // x) s).2.
Proof.
  cbn [fix_folders_loop]. unfold item. rewrite !bind_run.
  destruct (call (fix_pathname (root // x)) (count_processed s).2).1.
  - rewrite !bind_run. cbn [ret fst snd]. destruct (index x dirs); reflexivity.
  - reflexivity.
Qed.

Lemma fix_file_item_item root x s :
  fix_file_item root x s = (tt, (item (root // x) s).2).
Proof.
  unfold fix_file_item, item. rewrite !bind_run.
  destruct (call (fix_pathname (root // x)) (count_processed s).2).1.
  - rewrite bind_run. reflexivity.
  - reflexivity.
Qed.

(** The loop over the directories never fails to find the name it
    looks up, and leaves in [dirs] names the walk can follow. *)
Lemma fix_folders_loop_tallied self0 root todo : forall dirs s,
  walkable root -> Forall (fun x => plain x = true) todo ->
  Forall (fun x => walkable (root // x)) (dirs ++ todo) ->
  tallied self0 s ->
  exists dirs',
    (fix_folders_loop root todo (dirs ++ todo) s).1 = Some dirs' /\
    tallied self0 (fix_folders_loop root todo (dirs ++ todo) s).2 /\
    Forall (fun x => walkable (root // x)) dirs'.
Proof.
  induction todo as [|x todo IH]; intros dirs s Hroot Htodo Hdirs Hs.
  - cbn. rewrite app_nil_r in *. eauto.
  - apply Forall_cons in Htodo as [Hx Htodo].
    rewrite fix_folders_loop_cons.
    assert (Hp : Forall part_ok (root // x)).
    { rewrite (plain_truediv _ _ Hx). apply (walkable_snoc _ _ Hroot Hx). }
    destruct (item_tallied self0 (root // x) s Hp Hs) as [Hs1 Hnul].
    assert (Hshift : dirs ++ x :: todo = (dirs ++ [x]) ++ todo)
      by (rewrite <- app_assoc; reflexivity).
    destruct (item (root // x) s).1.
    + destruct (index_found x (dirs ++ [x])) as (i & Hi & Hi_lt).
      { apply elem_of_app. right. apply list_elem_of_singleton. reflexivity. }
      rewrite Hshift, (index_app_l _ _ _ _ Hi).
      rewrite insert_app_l by exact Hi_lt.
      apply IH; try assumption.
      rewrite <- insert_app_l by exact Hi_lt. rewrite <- Hshift.
        apply Forall_insert; [exact Hdirs|].
        split; [apply truediv_ok, Hroot|].
        specialize (Hnul eq_refl). rewrite (plain_truediv _ _ Hx), parent_snoc, name_snoc in Hnul.
        exact Hnul.
    + rewrite Hshift. apply IH; try assumption.
      rewrite <- Hshift. exact Hdirs.
Qed.

Lemma files_loop_tallied self0 root files s :
  walkable root -> Forall (fun x => plain x = true) files -> tallied self0 s ->
  tallied self0 (for_each (fix_file_item root) files s).2.
Proof.
  intros Hroot Hfiles Hs.
  apply (for_each_invariant _ (fun x => plain x = true) (tallied self0)); [|exact Hfiles | exact Hs].
  intros x s' Hx Hs'. rewrite fix_file_item_item. cbn [snd].
  apply item_tallied; [|exact Hs'].
  rewrite (plain_truediv _ _ Hx). apply (walkable_snoc _ _ Hroot Hx).
Qed.

Lemma listed_names_plain w top l :
  names_plain (fs w) = true -> Walk.scandir order w top = Walk.Listed l ->
  Forall (fun x => plain x = true) (Walk.dirs_of l) /\
  Forall (fun x => plain x = true) (Walk.files_of l).
Proof.
  intros Hn E. apply scandir_listed in E as (_ & q & _ & _ & ->).
  assert (H : forall x n, (x, n) ∈ order (Walk.entries (fs w) q) -> plain x = true).
  { intros x n Hx. apply order_incl, entries_spec in Hx.
    pose proof (proj1 (names_plain_spec _) Hn _ _ Hx) as Hk.
    apply Forall_app in Hk as [_ Hk]. apply Forall_cons in Hk as [Hk _]. exact Hk. }
  split; apply Forall_forall; intros x Hx.
  - apply dirs_of_spec in Hx. eauto.
  - apply files_of_spec in Hx as [data Hx]. eauto.
Qed.

Lemma scan_and_fix_body_safe self0 fix_folders top l s :
  tallied self0 s -> walkable top -> Walk.scandir order s.2 top = Walk.Listed l ->
  exists dirs,
    (scan_and_fix_body fix_folders top (Walk.dirs_of l) (Walk.files_of l) s).1 = Some dirs /\
    tallied self0 (scan_and_fix_body fix_folders top (Walk.dirs_of l) (Walk.files_of l) s).2 /\
    Forall (fun x => walkable (top // x)) dirs.
Proof.
  intros Hs Htop E.
  destruct Hs as (Hn & Hrest).
  destruct (listed_names_plain _ _ _ Hn E) as [Hdirs Hfiles].
  assert (Hs : tallied self0 s) by (split; assumption).
  assert (Hwalk : Forall (fun x => walkable (top // x)) (Walk.dirs_of l)).
  { eapply Forall_impl; [exact Hdirs|]. intros x Hx. cbn beta.
    rewrite (plain_truediv _ _ Hx). apply (walkable_snoc _ _ Htop Hx). }
  unfold scan_and_fix_body. rewrite bind_run.
  destruct fix_folders.
  - destruct (fix_folders_loop_tallied self0 top (Walk.dirs_of l) [] s Htop Hdirs Hwalk Hs)
      as (dirs' & Hd & Hs1 & Hw). cbn [app] in Hd, Hs1.
    rewrite Hd. rewrite bind_run. cbn [ret fst snd]. exists dirs'.
    split; [reflexivity|]. split; [|exact Hw].
    apply files_loop_tallied; assumption.
  - cbn [ret fst snd]. rewrite bind_run. cbn [ret fst snd]. exists (Walk.dirs_of l).
    split; [reflexivity|]. split; [|exact Hwalk].
    apply files_loop_tallied; assumption.
Qed.


End ScanAndFixFacts.

Lemma no_escapes_spec m :
  no_escapes m = true <->
  forall k v, m !! k = Some v -> Forall (fun x => Escape.has_escape x = false) k.
Proof.
  unfold no_escapes. rewrite forallb_forall. split.
  - intros H k v Hk. apply Forall_forall. intros x Hx.
    assert (Hin : In (k, v) (map_to_list m)) by (apply list_elem_of_In, elem_of_map_to_list, Hk).
    specialize (H _ Hin). cbn in H. rewrite forallb_forall in H.
    apply negb_true_iff, H, list_elem_of_In, Hx.
  - intros H [k v] Hin. apply list_elem_of_In, elem_of_map_to_list in Hin.
    cbn. apply forallb_forall. intros x Hx. apply list_elem_of_In in Hx.
    specialize (H _ _ Hin). rewrite Forall_forall in H. apply negb_true_iff, H, Hx.
Qed.

Section ScanAndFixMore.

Variable order : list (Py.str * node) -> list (Py.str * node).
Hypothesis order_incl : forall l x, x ∈ order l -> x ∈ l.

(** *** Files only *)

Lemma item_same_dirs m0 top x (s : (locals * UnicodeFilenameFixer) * world) :
  walkable top -> plain x = true ->
  m0 !! (norm [] top ++ [x]) <> Some Dir ->
  same_dirs m0 (fs s.2) -> same_dirs m0 (fs (item (top // x) s).2.2).
Proof.
  intros [Htop _] Hx Hfile Hs. rewrite (plain_truediv _ _ Hx).
  assert (Hx' : x <> Py.lit "..") by (apply plain_spec in Hx; tauto).
  assert (Hp : Forall part_ok (top ++ [x])).
  { apply Forall_app. split; [exact Htop | constructor; [apply plain_ok, Hx | constructor]]. }
  assert (Hitem : fs (item (top ++ [x]) s).2.2 = fs (fix_pathname (top ++ [x]) (s.1.2, s.2)).2.2).
  { unfold item. rewrite !bind_run, call_run. cbn [count_processed fst snd].
    destruct (fix_pathname (top ++ [x]) (s.1.2, s.2)).1; [rewrite bind_run|]; reflexivity. }
  rewrite Hitem.
  apply (same_dirs_renamed m0 s.2 (top ++ [x])); [exact Hs | exact Hp | |].
  - apply fix_pathname_renames_beside.
  - intros q Hq. apply resolve_norm in Hq. rewrite (norm_snoc _ _ Hx') in Hq.
    subst q. exact Hfile.
Qed.

Lemma files_only_body_keeps m0 top l (s : (locals * UnicodeFilenameFixer) * world) :
  same_dirs m0 (fs s.2) -> walkable top ->
  Walk.scandir order s.2 top = Walk.Listed l ->
  (scan_and_fix_body false top (Walk.dirs_of l) (Walk.files_of l) s).1 = Some (Walk.dirs_of l) /\
  same_dirs m0 (fs (scan_and_fix_body false top (Walk.dirs_of l) (Walk.files_of l) s).2.2).
Proof.
  intros Hs Htop E. unfold scan_and_fix_body. rewrite bind_run. cbn [ret fst snd].
  rewrite bind_run. cbn [ret fst snd]. split; [reflexivity|].
  apply scandir_listed in E as (_ & q & Hq & Hdir & ->).
  apply resolve_norm in Hq. subst q.
  apply (for_each_invariant _
           (fun x => plain x = true /\ m0 !! (norm [] top ++ [x]) <> Some Dir)
           (fun s' : (locals * UnicodeFilenameFixer) * world => same_dirs m0 (fs s'.2))).
  - intros x s' [Hx Hfile] Hs'. rewrite fix_file_item_item. cbn [snd].
    apply item_same_dirs; assumption.
  - apply Forall_forall. intros x Hx.
    apply files_of_spec in Hx as [data Hx]. apply order_incl, entries_spec in Hx.
    destruct Hs as (Hn & _ & Hd). split.
    + pose proof (proj1 (names_plain_spec _) Hn _ _ Hx) as Hk.
      apply Forall_app in Hk as [_ Hk]. apply Forall_cons in Hk as [Hk _]. exact Hk.
    + intros H. apply Hd in H. pose proof (lookup_agree _ _ _ _ Hx H). discriminate.
  - exact Hs.
Qed.


(** *** A tree without escape sequences *)

Lemma item_untouched self w p s :
  Escape.has_escape (Pathlib.name p) = false -> untouched self w s ->
  (item p s).1 = false /\ untouched self w (item p s).2.
Proof.
  intros Hfree (Hw & Hself & Hfix). unfold item.
  rewrite !bind_run, call_run. cbn [count_processed fst snd].
  rewrite fix_pathname_unfold. cbv zeta. rewrite Hfree. cbn [negb fst snd ret].
  split; [reflexivity|]. split; [exact Hw|]. split; [exact Hself | exact Hfix].
Qed.

Lemma fix_folders_loop_untouched self w root todo : forall dirs s,
  Forall (fun x => Escape.has_escape (Pathlib.name (root // x)) = false) todo ->
  untouched self w s ->
  (fix_folders_loop root todo dirs s).1 = Some dirs /\
  untouched self w (fix_folders_loop root todo dirs s).2.
Proof.
  induction todo as [|x todo IH]; intros dirs s Htodo Hs; [cbn; auto|].
  apply Forall_cons in Htodo as [Hx Htodo].
  rewrite fix_folders_loop_cons.
  destruct (item_untouched self w (root // x) s Hx Hs) as [-> Hs1].
  apply IH; assumption.
Qed.

Lemma clean_body_keeps self w fix_folders top l s :
  names_plain (fs w) = true -> no_escapes (fs w) = true ->
  untouched self w s -> Walk.scandir order s.2 top = Walk.Listed l ->
  (scan_and_fix_body fix_folders top (Walk.dirs_of l) (Walk.files_of l) s).1
  = Some (Walk.dirs_of l) /\
  untouched self w (scan_and_fix_body fix_folders top (Walk.dirs_of l) (Walk.files_of l) s).2.
Proof.
  intros Hn Hclean Hs E.
  assert (Hw : s.2 = w) by (destruct Hs as (H & _); exact H).
  rewrite Hw in E. apply scandir_listed in E as (_ & q & _ & _ & ->).
  assert (H : forall x n, (x, n) ∈ order (Walk.entries (fs w) q) ->
                          Escape.has_escape (Pathlib.name (top // x)) = false).
  { intros x n Hx. apply order_incl, entries_spec in Hx.
    pose proof (proj1 (names_plain_spec _) Hn _ _ Hx) as Hk.
    apply Forall_app in Hk as [_ Hk]. apply Forall_cons in Hk as [Hk _].
    rewrite (plain_truediv _ _ Hk), name_snoc.
    pose proof (proj1 (no_escapes_spec _) Hclean _ _ Hx) as He.
    apply Forall_app in He as [_ He]. apply Forall_cons in He as [He _]. exact He. }
  assert (Hdirs : Forall (fun x => Escape.has_escape (Pathlib.name (top // x)) = false)
                    (Walk.dirs_of (order (Walk.entries (fs w) q)))).
  { apply Forall_forall. intros x Hx. apply dirs_of_spec in Hx. eauto. }
  assert (Hfiles : Forall (fun x => Escape.has_escape (Pathlib.name (top // x)) = false)
                     (Walk.files_of (order (Walk.entries (fs w) q)))).
  { apply Forall_forall. intros x Hx. apply files_of_spec in Hx as [data Hx]. eauto. }
  unfold scan_and_fix_body. rewrite bind_run.
  assert (Hloop : forall s1, untouched self w s1 ->
            untouched self w (for_each (fix_file_item top)
                                (Walk.files_of (order (Walk.entries (fs w) q))) s1).2).
  { intros s1 Hs1.
    apply (for_each_invariant _
             (fun x => Escape.has_escape (Pathlib.name (top // x)) = false)
             (untouched self w)); [|exact Hfiles | exact Hs1].
    intros x s' Hx Hs'. rewrite fix_file_item_item. cbn [snd].
    apply item_untouched; assumption. }
  destruct fix_folders.
  - destruct (fix_folders_loop_untouched self w top _
                (Walk.dirs_of (order (Walk.entries (fs w) q))) s Hdirs Hs) as [-> Hs1].
    rewrite bind_run. cbn [ret fst snd]. split; [reflexivity|]. apply Hloop, Hs1.
  - cbn [ret fst snd]. rewrite bind_run. cbn [ret fst snd].
    split; [reflexivity|]. apply Hloop, Hs.
Qed.

(** X16: on a filesystem with plain names none of which holds an
    escape sequence, a scan that may nest deeper than the tree is high
    goes through the whole tree and changes nothing: no rename is tried,
    nothing is printed by [fix_pathname], the object is as it was and
    the counter of fixed items is zero.  With [fixed_files] empty the
    scan ends on the line that no escape sequence was found. *)
Theorem X16_scan_of_a_clean_tree depth target_path fix_folders self w :
  names_plain (fs w) = true -> no_escapes (fs w) = true ->
  walkable (scan_path_of target_path (fixer_root self)) ->
  (height (fs w) + 2 <= depth)%nat ->
  let r := scan_and_fix_directory order depth target_path fix_folders (self, w) in
  r.1.1 = Walk.Completed /\ r.2 = (self, w) /\ items_fixed r.1.2 = 0%nat /\
  (fixed_files self = [] ->
   last (report r.1.2) = Some (length (stdout w), NoEscapesFound)).
Proof.
  intros Hn Hclean Htop Hdepth r. subst r. rewrite scan_and_fix_directory_run. cbv zeta.
  set (s0 := (say (Dashes 60) (say (ScanningForEscapes _) _).2).2).
  assert (Hs0 : untouched self w s0) by (repeat split).
  destruct (walk_completes order (scan_and_fix_body fix_folders) (untouched self w)
              walkable walkable_nul (height (fs w)) order_incl) with
      (depth := depth) (top := scan_path_of target_path (fixer_root self)) (s := s0)
    as [Ho Hs1].
  - intros s (-> & _). exact Hn.
  - intros s k (-> & _) Hk. exact (height_spec _ _ _ Hk).
  - exact walkable_snoc.
  - intros top l s Hs Ht E. exact (clean_body_keeps _ _ _ _ _ _ Hn Hclean Hs E).
  - exact Hs0.
  - exact Htop.
  - lia.
  - lia.
  - rewrite Ho. cbn [fst snd].
    set (s1 := (Walk.walk order (scan_and_fix_body fix_folders) depth
                  (scan_path_of target_path (fixer_root self)) s0).2) in *.
    destruct (quiet_scan_and_fix_summary s1) as (Hw & Hself & _ & Hfix).
    destruct Hs1 as (Hw1 & Hself1 & Hfix1).
    split; [reflexivity|]. split; [rewrite Hw, Hself; congruence|].
    split; [rewrite Hfix; exact Hfix1|].
    intros Hnone. unfold scan_and_fix_summary. rewrite !bind_run.
    cbn [say local_ self_ fst snd]. rewrite Hself1, Hnone, Hw1.
    cbn [say fst snd report]. apply last_snoc.
Qed.

End ScanAndFixMore.

Lemma walkable_plain top : forallb plain top = true -> walkable top.
Proof.
  intros H. rewrite forallb_forall in H. split.
  - apply Forall_forall. intros x Hx. apply plain_ok, H, list_elem_of_In, Hx.
  - unfold Os.has_nul. destruct (existsb (existsb (Z.eqb 0)) top) eqn:E; [|reflexivity].
    apply existsb_exists in E as (x & Hx & E). rewrite (plain_no_nul _ (H _ Hx)) in E.
    discriminate.
Qed.

(** ** The mojibake table and clean names *)

Lemma startswith_elem old t h : Py.startswith old t = true -> h ∈ old -> h ∈ t.
Proof.
  intros H Hh. rewrite (startswith_split _ _ H). apply elem_of_app. left. exact Hh.
Qed.

Lemma contains_elem old s h : Py.contains old s = true -> h ∈ old -> h ∈ s.
Proof.
  intros H Hh. induction s as [|c s IH].
  - cbn in H. rewrite orb_false_r in H. exact (startswith_elem _ _ _ H Hh).
  - rewrite contains_unfold in H. apply orb_prop in H as [H | H].
    + exact (startswith_elem _ _ _ H Hh).
    + apply elem_of_cons. right. exact (IH H).
Qed.

Lemma valid_spec s : is_filename_valid s = true <-> forall c, c ∈ s -> Py.is_ascii c = true.
Proof.
  unfold is_filename_valid. rewrite forallb_forall. split.
  - intros H c Hc. apply H, list_elem_of_In, Hc.
  - intros H c Hc. apply H, list_elem_of_In, Hc.
Qed.

Lemma invalid_spec s :
  is_filename_valid s = false <-> exists c, c ∈ s /\ Py.is_ascii c = false.
Proof.
  split.
  - intros H. induction s as [|c s IH]; [discriminate|].
    cbn in H. destruct (Py.is_ascii c) eqn:E.
    + destruct (IH H) as (c' & Hin & Hc'). exists c'. split; [right; exact Hin | exact Hc'].
    + exists c. split; [left | exact E].
  - intros (c & Hin & Hc). destruct (is_filename_valid s) eqn:E; [|reflexivity].
    rewrite valid_spec in E. rewrite (E _ Hin) in Hc. discriminate.
Qed.

Lemma replace_from_keeps_high old new h s : forall k,
  h ∈ new -> Py.is_ascii h = false ->
  is_filename_valid (drop k s) = false ->
  is_filename_valid (Py.replace_from old new k s) = false.
Proof.
  intros k Hh Hhigh. revert k. induction s as [|c s IH]; intros k.
  - rewrite drop_nil. discriminate.
  - destruct k as [|k]; cbn [drop Py.replace_from]; [|apply IH].
    destruct (Py.startswith old (c :: s)).
    + intros _. apply invalid_spec. exists h. split; [|exact Hhigh].
      apply elem_of_app. left. exact Hh.
    + cbn [is_filename_valid forallb]. destruct (Py.is_ascii c); [|reflexivity].
      cbn [andb]. intros H. apply (IH 0%nat). rewrite drop_0. exact H.
Qed.

Lemma replace_keeps_high old new h s :
  h ∈ new -> Py.is_ascii h = false ->
  is_filename_valid s = false -> is_filename_valid (Py.replace old new s) = false.
Proof.
  intros Hh Hhigh Hs. unfold Py.replace. destruct old as [|a old].
  - apply invalid_spec. exists h. split; [|exact Hhigh]. apply elem_of_app. left. exact Hh.
  - apply (replace_from_keeps_high _ _ h); [exact Hh | exact Hhigh|].
    rewrite drop_0. exact Hs.
Qed.

(** X18: the mojibake table neither cleans a name nor spoils one.
    Every pattern and every replacement of the table holds a character
    outside ASCII; so a name of ASCII characters only is returned as it
    is, and a name with a character outside ASCII still has one after
    the table was applied.  A name repaired by the table therefore fails
    [is_filename_valid] again: the next scan takes the file for
    problematic once more. *)
Theorem X18_mojibake_repair_is_never_clean name :
  is_filename_valid (fix_mojibake name) = is_filename_valid name /\
  (is_filename_valid name = true -> fix_mojibake name = name).
Proof.
  assert (Hclean : is_filename_valid name = true -> fix_mojibake name = name).
  { intros Hv. apply apply_fixes_absent; [exact mojibake_patterns_nonempty|].
    rewrite valid_spec in Hv. unfold pattern_free, mojibake_fixes. cbn [forallb fst].
    assert (Hno : forall old h, h ∈ old -> Py.is_ascii h = false ->
                                negb (Py.contains old name) = true).
    { intros old h Hh Hhigh. apply negb_true_iff.
      destruct (Py.contains old name) eqn:E; [|reflexivity].
      rewrite (Hv _ (contains_elem _ _ _ E Hh)) in Hhigh. discriminate. }
    rewrite (Hno _ 0xE6) by (first [left | reflexivity]).
    rewrite !(Hno _ 0xC3) by (first [left | reflexivity]). reflexivity. }
  split; [|exact Hclean].
  destruct (is_filename_valid name) eqn:Hv; [rewrite (Hclean eq_refl); exact Hv|].
  unfold fix_mojibake, apply_fixes, mojibake_fixes. cbn [foldl fst snd].
  apply (replace_keeps_high _ _ 0xFC); [left | reflexivity|].
  apply (replace_keeps_high _ _ 0xF6); [left | reflexivity|].
  apply (replace_keeps_high _ _ 0xE4); [left | reflexivity|].
  apply (replace_keeps_high _ _ 0xF1); [left | reflexivity|].
  apply (replace_keeps_high _ _ 0xE0); [left | reflexivity|].
  apply (replace_keeps_high _ _ 0xE8); [left | reflexivity|].
  apply (replace_keeps_high _ _ 0xE9); [left | reflexivity|].
  apply (replace_keeps_high _ _ 0x6587); [left | reflexivity|].
  exact Hv.
Qed.

(** ** Content repair of a file that is ASCII already *)

Lemma ascii_decode bs :
  Forall (fun b => Py.is_ascii b = true) bs -> Codec.decode_ignore Codec.ascii bs = bs.
Proof.
  unfold Codec.decode_ignore. cbn [Codec.dinit Codec.ascii Codec.stateless].
  induction 1 as [|b bs Hb _ IH]; [reflexivity|].
  rewrite decode_from_step. cbn [Codec.dstep Codec.ascii Codec.stateless]. rewrite Hb.
  cbn [Nat.sub drop app]. f_equal. exact IH.
Qed.

Lemma cp1252_ascii_decode bs :
  Forall (fun b => Py.is_ascii b = true) bs -> Codec.decode_ignore Codec.cp1252 bs = bs.
Proof.
  unfold Codec.decode_ignore. cbn [Codec.dinit Codec.cp1252 Codec.stateless].
  induction 1 as [|b bs Hb _ IH]; [reflexivity|].
  rewrite decode_from_step. cbn [Codec.dstep Codec.cp1252 Codec.stateless].
  rewrite (cp1252_char_low _ Hb). cbn [Nat.sub drop app]. f_equal. exact IH.
Qed.

Lemma dbcs_ascii_decode table bs :
  Forall (fun b => Py.is_ascii b = true) bs -> Codec.decode_ignore (Codec.dbcs table) bs = bs.
Proof.
  unfold Codec.decode_ignore. cbn [Codec.dinit Codec.dbcs Codec.stateless].
  induction 1 as [|b bs Hb _ IH]; [reflexivity|].
  rewrite decode_from_step. cbn [Codec.dstep Codec.dbcs Codec.stateless].
  assert (Hlow : (b <? 0x80) = true) by (unfold Py.is_ascii in Hb; apply andb_prop in Hb; tauto).
  rewrite Hlow. cbn [Nat.sub drop app]. f_equal. exact IH.
Qed.

Lemma universal_newlines_plain s : 0x0D ∉ s -> universal_newlines s = s.
Proof.
  induction s as [|c s IH]; [reflexivity|].
  intros H. apply not_elem_of_cons in H as [Hc Hs]. cbn [universal_newlines].
  rewrite (proj2 (Z.eqb_neq c 0x0D)) by congruence. f_equal. exact (IH Hs).
Qed.

Lemma encode_utf8_ascii s :
  Forall (fun b => Py.is_ascii b = true) s -> Codec.encode_utf8 s = Some s.
Proof.
  induction 1 as [|c s Hc _ IH]; [reflexivity|].
  cbn [Codec.encode_utf8]. unfold Codec.utf8_char.
  unfold Py.is_ascii in Hc. apply andb_prop in Hc as [H0 H1].
  apply Z.leb_le in H0. rewrite (proj2 (Z.ltb_ge c 0)) by lia. rewrite H1.
  cbn [mbind option_bind]. rewrite IH. reflexivity.
Qed.

Lemma set_data_same q data w :
  fs w !! q = Some (File data) -> Os.set_data q data w = w.
Proof.
  intros H. destruct w as [m dn rn out]. unfold Os.set_data. cbn [fs denied renames stdout] in *.
  rewrite insert_id by exact H. reflexivity.
Qed.

Section AsciiContent.

Variable lookup_codec : string -> option Codec.decoder.
Variable chardet_detect : list Z -> option string.

Local Abbreviation fix_content := (fix_file_content_encoding lookup_codec chardet_detect).


End AsciiContent.

(** ** Which files get their content repaired *)

Lemma rfind_absent c s : c ∉ s -> Walk.rfind c s = None.
Proof.
  induction s as [|x s IH]; [reflexivity|].
  intros H. apply not_elem_of_cons in H as [Hx Hs]. cbn [Walk.rfind].
  rewrite (IH Hs). rewrite (proj2 (Z.eqb_neq x c)) by congruence. reflexivity.
Qed.

Lemma rfind_last c a b : c ∉ b -> Walk.rfind c (a ++ c :: b) = Some (length a).
Proof.
  intros Hb. induction a as [|x a IH]; cbn [app Walk.rfind length].
  - rewrite (rfind_absent _ _ Hb), Z.eqb_refl. reflexivity.
  - rewrite IH. reflexivity.
Qed.

Lemma rfind_found c s i :
  Walk.rfind c s = Some i -> exists a b, s = a ++ c :: b /\ length a = i /\ c ∉ b.
Proof.
  revert i. induction s as [|x s IH]; intros i; [discriminate|].
  cbn [Walk.rfind]. destruct (Walk.rfind c s) as [j|] eqn:E.
  - intros [= <-]. destruct (IH j eq_refl) as (a & b & -> & <- & Hb).
    exists (x :: a), b. auto.
  - destruct (x =? c) eqn:Ex; [|discriminate]. intros [= <-].
    apply Z.eqb_eq in Ex. subst x. exists [], s. split; [reflexivity|]. split; [reflexivity|].
    intros Hin. clear IH. induction s as [|y s IHs]; [inversion Hin|].
    cbn [Walk.rfind] in E. destruct (Walk.rfind c s) as [j|]; [discriminate|].
    destruct (y =? c) eqn:Ey; [discriminate|]. apply Z.eqb_neq in Ey.
    apply elem_of_cons in Hin as [-> | Hin]; [congruence | exact (IHs eq_refl Hin)].
Qed.

Lemma lower_is_txt_spec s :
  Walk.lower_is_txt s = true <->
  exists c1 c2 c3, s = [0x2E; c1; c2; c3] /\
    (c1 = 0x74 \/ c1 = 0x54) /\ (c2 = 0x78 \/ c2 = 0x58) /\ (c3 = 0x74 \/ c3 = 0x54).
Proof.
  split.
  - destruct s as [|c0 [|c1 [|c2 [|c3 [|? ?]]]]]; try discriminate. cbn [Walk.lower_is_txt].
    rewrite !andb_true_iff, !orb_true_iff, !Z.eqb_eq. intros [[[-> H1] H2] H3].
    exists c1, c2, c3. auto.
  - intros (c1 & c2 & c3 & -> & H1 & H2 & H3). cbn [Walk.lower_is_txt].
    rewrite !andb_true_iff, !orb_true_iff, !Z.eqb_eq. auto.
Qed.

Section ContentScope.

Variable gbk_table gb2312_table big5_table : Z -> Z -> option Z.
Variable lookup_codec : string -> option Codec.decoder.
Variable chardet_detect : list Z -> option string.

(** X20: the scan repairs the content of a file exactly when its name
    is a non-empty stem followed by [.txt] in any mix of upper and lower
    case; a file named [.txt] itself has no suffix and is passed over.
    A file with a clean name and no such suffix is not touched by the
    loop at all. *)
Theorem X20_content_repair_needs_a_txt_suffix file_path :
  (Walk.lower_is_txt (Walk.suffix file_path) = true <->
   exists stem c1 c2 c3,
     Pathlib.name file_path = stem ++ [0x2E; c1; c2; c3] /\ stem <> [] /\
     (c1 = 0x74 \/ c1 = 0x54) /\ (c2 = 0x78 \/ c2 = 0x58) /\ (c3 = 0x74 \/ c3 = 0x54)) /\
  (forall root filename s,
     file_path = root // filename ->
     is_filename_valid filename = true ->
     Walk.lower_is_txt (Walk.suffix file_path) = false ->
     scan_file gbk_table gb2312_table big5_table lookup_codec chardet_detect root filename s
     = (tt, s)).
Proof.
  split.
  - unfold Walk.suffix. cbv zeta. split.
    + destruct (Walk.rfind 0x2E (Pathlib.name file_path)) as [i|] eqn:E; [|discriminate].
      destruct (_ && _) eqn:R; [|discriminate].
      apply andb_prop in R as [Hpos Hlt]. apply Nat.ltb_lt in Hpos.
      intros (c1 & c2 & c3 & Hs & H1 & H2 & H3)%lower_is_txt_spec.
      exists (take i (Pathlib.name file_path)), c1, c2, c3.
      split; [rewrite <- Hs; symmetry; apply take_drop|].
      split; [|auto].
      apply rfind_found in E as (a & b & Hname & Hlen & _).
      rewrite Hname, take_app_length' by (symmetry; exact Hlen).
      destruct a; [cbn in Hlen; lia | discriminate].
    + intros (stem & c1 & c2 & c3 & -> & Hstem & H1 & H2 & H3).
      rewrite (rfind_last 0x2E stem [c1; c2; c3]).
      * assert (Hlen : (0 < length stem)%nat) by (destruct stem; [congruence | cbn; lia]).
        rewrite (proj2 (Nat.ltb_lt _ _) Hlen).
        rewrite length_app. cbn [length].
        rewrite (proj2 (Nat.ltb_lt (length stem) (length stem + 4 - 1))) by lia.
        cbn [andb]. rewrite drop_app_length. apply lower_is_txt_spec.
        exists c1, c2, c3. auto.
      * intros Hin. repeat (apply elem_of_cons in Hin as [Hin | Hin];
                            [destruct H1, H2, H3; subst; discriminate|]).
        inversion Hin.
  - intros root filename s -> Hvalid Hnot. unfold scan_file.
    rewrite Hvalid, Hnot. reflexivity.
Qed.

End ContentScope.

(** ** Decoding twice *)

Section Redecoding.
Import Escape.

Lemma hex_not_hash h : is_hex h = true -> h <> 0x23.
Proof.
  intros H ->. unfold is_hex in H. apply bool_decide_eq_true in H as [d Hd].
  discriminate Hd.
Qed.

Lemma match_escape_not_hash c t : c <> 0x23 -> match_escape (c :: t) = None.
Proof.
  intros Hc. unfold match_escape.
  destruct t as [|c1 [|c2 [|c3 [|c4 [|c5 t']]]]]; try reflexivity.
  rewrite (proj2 (Z.eqb_neq c 0x23)) by exact Hc. reflexivity.
Qed.

(** X21: decoding is not idempotent.  The escape sequence of the
    character [#], followed by [U] and four hexadecimal digits, decodes
    to an escape sequence; a second pass over the name decodes that one
    too, so a second scan renames again what the first one renamed. *)
Theorem X21_decoding_can_make_an_escape h1 h2 h3 h4 rest :
  forallb is_hex [h1; h2; h3; h4] = true ->
  let s := Py.lit "#U0023" ++ [0x55; h1; h2; h3; h4] ++ rest in
  decode_unicode_escape s = [0x23; 0x55; h1; h2; h3; h4] ++ decode_unicode_escape rest /\
  has_escape (decode_unicode_escape s) = true /\
  decode_unicode_escape (decode_unicode_escape s) <> decode_unicode_escape s.
Proof.
  intros Hhex s.
  assert (Hs : decode_unicode_escape s
               = [0x23; 0x55; h1; h2; h3; h4] ++ decode_unicode_escape rest).
  { subst s. cbn [forallb] in Hhex. rewrite !andb_true_iff in Hhex.
    destruct Hhex as (H1 & H2 & H3 & H4 & _).
    change (Py.lit "#U0023" ++ [0x55; h1; h2; h3; h4] ++ rest)
      with (0x23 :: 0x55 :: 0x30 :: 0x30 :: 0x32 :: 0x33 :: 0x55 :: h1 :: h2 :: h3 :: h4 :: rest).
    rewrite (decode_escape 0x30 0x30 0x32 0x33 0 0 2 3) by reflexivity.
    change (4096 * 0 + 256 * 0 + 16 * 2 + 3) with 0x23.
    rewrite decode_plain by (apply match_escape_not_hash; discriminate).
    rewrite !decode_plain by (apply match_escape_not_hash, hex_not_hash; assumption).
    reflexivity. }
  assert (Hesc : has_escape (decode_unicode_escape s) = true).
  { rewrite Hs. cbn [app has_escape]. apply orb_true_intro. left.
    apply bool_decide_eq_true, match_escape_here.
    cbn [forallb] in Hhex. rewrite !andb_true_iff, !is_hex_spec in Hhex.
    destruct Hhex as (H1 & H2 & H3 & H4 & _).
    exists h1, h2, h3, h4, (decode_unicode_escape rest). split; [reflexivity|].
    repeat constructor; assumption. }
  split; [exact Hs|]. split; [exact Hesc|].
  intros Heq. pose proof (sub_from_shorter (decode_unicode_escape s) 0) as Hshort.
  rewrite drop_0 in Hshort. specialize (Hshort Hesc).
  unfold decode_unicode_escape in Heq at 1. rewrite Heq in Hshort. lia.
Qed.

End Redecoding.

(** ** Closed examples *)

Import Sample.

(** A lone byte is never looked up in a double-byte table. *)
Lemma dbcs_lone_byte table b :
  Codec.decode_ignore (Codec.dbcs table) [b] = if b <? 0x80 then [b] else [].
Proof. unfold Codec.decode_ignore. cbn. destruct (b <? 0x80); reflexivity. Qed.

(** The name U+0080 reaches the brute-force loop.  Its Latin-1 candidate is
    the name itself; its Windows-1252 candidate is U+20AC, which is not
    empty, differs from the name and names no existing entry.  No rename
    is attempted for it, nor for any other candidate. *)
Lemma C1_counterexample :
  let p := [d; [0x80]] in
  let w := tree [([d], Dir); (p, File [])] [] in
  is_filename_valid [0x80] = false /\
  fix_mojibake [0x80] = [0x80] /\
  Codec.encode_latin1 [0x80] = Some [0x80] /\
  Codec.decode_ignore Codec.latin1 [0x80] = [0x80] /\
  Codec.decode_ignore Codec.cp1252 [0x80] = [0x20AC] /\
  Os.exists_ w [d; [0x20AC]] = false /\
  fix_filename_encoding unmapped unmapped unmapped p (fixer, w)
  = (None, (fixer, World (fs w) (denied w) [] [Attempting [0x80]; CouldNotFix [0x80]])).
Proof. vm_compute. repeat split. Qed.

(** The name [a] U+0081: the Windows-1252 candidate drops the undefined
    byte, the result [a] passes the guard, and the entry is renamed. *)
Lemma C1_witness :
  let p := [d; [0x61; 0x81]] in
  let w := tree [([d], Dir); (p, File [])] [] in
  let r := fix_filename_encoding unmapped unmapped unmapped p (fixer, w) in
  (exists more, renames r.2.2 = renames w ++ (p, [d; [0x61]]) :: more) /\
  r.1 = Some [d; [0x61]].
Proof.
  intros p w r.
  destruct (C1_first_valid_candidate_is_tried unmapped unmapped unmapped p fixer w
              eq_refl (or_introl eq_refl)) as [Hfirst _].
  destruct (Hfirst [0x61; 0x81] [latin1] cp1252 [gbk; gb2312; big5] eq_refl eq_refl)
    as (_ & Hcall & Hres).
  - repeat constructor.
  - vm_compute. discriminate.
  - reflexivity.
  - reflexivity.
  - split; [exact Hcall|]. apply Hres. vm_compute. eauto.
Defined.

(** C2: the mojibake rename raises and the method returns at once.  The
    name U+00C3 [ x] is repaired to U+00E0 [x], nothing exists there, the
    directory is not writable and the rename raises; the method prints the
    error and returns [None] with that one call issued.  The brute-force
    loop is not entered, though it has a candidate that passes its guard. *)
Lemma C2_mojibake_rename_failure_skips_brute_force :
  let name := [0xC3; 0x20; 0x78] in
  let p := [d; name] in
  let w := tree [([d], Dir); (p, File [])] [[d]] in
  is_filename_valid name = false /\
  fix_mojibake name = [0xE0; 0x78] /\
  Os.exists_ w [d; [0xE0; 0x78]] = false /\
  Os.renamed w p [d; [0xE0; 0x78]] = None /\
  first_accepted unmapped unmapped unmapped w p encodings_to_try = Some [0x20; 0x78] /\
  fix_filename_encoding unmapped unmapped unmapped p (fixer, w)
  = (None, (fixer, World (fs w) (denied w) [(p, [d; [0xE0; 0x78]])]
                     [Attempting name; ErrorRenaming name])).
Proof. vm_compute. repeat split. Qed.


(** C9: a decoded separator moves the entry to another directory.  The
    name [x#U002fy] decodes to [x/y]; joined to the parent [d] it is the
    path [d/x/y].  With a directory [d/x] in place the rename goes through
    and the file, which was in [d], is now in [d/x]. *)
Lemma C9_decoded_separator_moves_the_entry :
  let p := [d; Py.lit "x#U002fy"] in
  let w := tree [([d], Dir); ([d; Py.lit "x"], Dir); (p, File [1])] [] in
  let r := fix_pathname p (ufixer, w) in
  Escape.decode_unicode_escape (Pathlib.name p) = Py.lit "x/y" /\
  r.1 = true /\
  fixed_files r.2.1 = [(p, [d; Py.lit "x"; Py.lit "y"])] /\
  Pathlib.parent p = [d] /\
  Pathlib.parent [d; Py.lit "x"; Py.lit "y"] = [d; Py.lit "x"] /\
  fs r.2.2 !! p = None /\
  fs r.2.2 !! [d; Py.lit "x"; Py.lit "y"] = Some (File [1]).
Proof. vm_compute. repeat split. Qed.

(** The name U+00E9: the Latin-1 candidate is the name itself, and the
    loop goes on with the other four encodings. *)
Lemma C10_witness :
  let p := [d; [0xE9]] in
  let w := tree [([d], Dir); (p, File [])] [] in
  is_filename_valid (Pathlib.name p) = false /\
  brute_force unmapped unmapped unmapped encodings_to_try p (fixer, w)
  = brute_force unmapped unmapped unmapped [cp1252; gbk; gb2312; big5] p (fixer, w).
Proof.
  split; [reflexivity|].
  exact (proj2 (proj2 (C10_latin1_candidate_never_renames unmapped unmapped unmapped
                         [d; [0xE9]] fixer (tree [([d], Dir); ([d; [0xE9]], File [])] []) eq_refl))).
Defined.

(** A file whose second byte is NUL is left alone. *)
Lemma C8_witness :
  let p := [d; Py.lit "a.txt"] in
  let w := tree [([d], Dir); (p, File [0x61; 0x00; 0x62])] [] in
  0 ∈ take 1024 [0x61; 0x00; 0x62] /\
  fix_file_content_encoding codecs chardet p (fixer, w) = (false, (fixer, w)).
Proof.
  intros p w.
  assert (H : 0 ∈ take 1024 [0x61; 0x00; 0x62]) by (right; left).
  split; [exact H|].
  exact (C8_nul_byte_means_binary codecs chardet p fixer w [0x61; 0x00; 0x62] eq_refl H).
Defined.





(** A plain name is returned as it is. *)
Lemma X1_witness :
  let p := [d; Py.lit "notes.txt"] in
  let w := tree [([d], Dir); (p, File [])] [] in
  fix_filename_encoding unmapped unmapped unmapped p (fixer, w)
  = (None, (fixer, w)).
Proof.
  intros p w.
  refine (proj2 (X1_clean_name_is_left_alone _ _ _ p fixer w _)).
  repeat constructor; lia.
Defined.

(** [#U12] is not an escape sequence: two digits are missing. *)
Lemma X2_witness :
  let p := [d; Py.lit "notes#U12.txt"] in
  let w := tree [([d], Dir); (p, File [])] [] in
  fix_pathname p (ufixer, w) = (false, (ufixer, w)).
Proof.
  intros p w. apply X2_name_without_escape_is_left_alone.
  apply has_escape_free. reflexivity.
Defined.

(** The repaired name of [caf] U+00C3 U+00A9 stays in the directory. *)
Lemma X3_witness :
  let p := [d; Py.lit "caf" ++ [0xC3; 0xA9]] in
  let new_name := fix_mojibake (Pathlib.name p) in
  new_name = Py.lit "caf" ++ [0xE9] /\
  Pathlib.parent (Pathlib.parent p // new_name) = Pathlib.parent p /\
  Pathlib.name (Pathlib.parent p // new_name) = new_name.
Proof.
  intros p new_name. split; [reflexivity|].
  assert (Hsep : 0x2F ∉ new_name).
  { apply (bool_decide_eq_false_1 (0x2F ∈ new_name)). reflexivity. }
  destruct (X3_separator_free_name_stays_in_directory p new_name Hsep
              ltac:(discriminate) ltac:(discriminate)) as (H1 & H2 & _).
  split; [exact H1 | exact H2].
Defined.

(** X4: the two end-to-end scenarios.  The file [#U51b2#U950b#U7ebf.txt]
    is renamed to U+51B2 U+950B U+7EBF [.txt], and the file [caf] U+00C3
    U+00A9 [.txt] to [caf] U+00E9 [.txt]; each rename is recorded. *)
Theorem X4_end_to_end_renames :
  let escaped := [d; Py.lit "#U51b2#U950b#U7ebf.txt"] in
  let decoded := [d; [0x51B2; 0x950B; 0x7EBF] ++ Py.lit ".txt"] in
  let garbled := [d; Py.lit "caf" ++ [0xC3; 0xA9] ++ Py.lit ".txt"] in
  let repaired := [d; Py.lit "caf" ++ [0xE9] ++ Py.lit ".txt"] in
  let w := tree [([d], Dir); (escaped, File [1]); (garbled, File [2])] [] in
  let r1 := fix_pathname escaped (ufixer, w) in
  let r2 := fix_filename_encoding unmapped unmapped unmapped garbled
              (fixer, w) in
  r1.1 = true /\ fixed_files r1.2.1 = [(escaped, decoded)] /\
  fs r1.2.2 !! escaped = None /\ fs r1.2.2 !! decoded = Some (File [1]) /\
  r2.1 = Some repaired /\ problematic_files r2.2.1 = [(garbled, repaired)] /\
  fs r2.2.2 !! garbled = None /\ fs r2.2.2 !! repaired = Some (File [2]).
Proof. vm_compute. repeat split. Qed.



(** The name U+0081 [A]: byte 0x81 is undefined in cp1252 and dropped,
    and the file is renamed to [A]. *)
Lemma X8_witness :
  let p := [d; [0x81; 0x41]] in
  let w := tree [([d], Dir); (p, File [1])] [] in
  (forall a b u, unmapped a b = Some u -> 0x80 <= u) /\
  (fix_filename_encoding unmapped unmapped unmapped p (fixer, w)).1 = Some [d; [0x41]] /\
  ([d; [0x41]] = Pathlib.parent p // fix_mojibake (Pathlib.name p) \/
   [d; [0x41]] = Pathlib.parent p // List.filter Py.is_ascii (Pathlib.name p)).
Proof.
  intros p w.
  assert (H : forall a b u, unmapped a b = Some u -> 0x80 <= u) by (intros a b u [=]).
  split; [exact H|]. split; [reflexivity|].
  exact (X8_brute_force_only_deletes unmapped unmapped unmapped H H H p fixer w [d; [0x41]] eq_refl).
Defined.

(** The name U+6587: no encoding of the loop is tried on it. *)
Lemma X9_witness :
  let p := [d; [0x6587]] in
  let w := tree [([d], Dir); (p, File [1])] [] in
  let r := fix_filename_encoding unmapped unmapped unmapped p (fixer, w) in
  r.1 = None /\ fs r.2.2 = fs w /\ renames r.2.2 = [] /\ length (stdout r.2.2) = 7%nat.
Proof.
  intros p w r.
  assert (H := X9_no_brute_force_beyond_latin1 unmapped unmapped unmapped p fixer w 0x6587
                 ltac:(left) ltac:(reflexivity) (or_introl eq_refl)).
  cbv zeta in H. subst r. rewrite H. repeat split.
Defined.


(** An ASCII file, with a registry that knows no codec. *)
Lemma X11_witness :
  let p := [d; Py.lit "a.txt"] in
  let w := tree [([d], Dir); (p, File (Py.lit "ab"))] [] in
  fix_file_content_encoding (fun _ => None) chardet p (fixer, w)
  = (false, (fixer, Os.print (ErrorFixingContent p) w)).
Proof.
  intros p w.
  apply (X11_unknown_codec_is_reported (fun _ => None) chardet p fixer w (Py.lit "ab") "ascii").
  - reflexivity.
  - discriminate.
  - apply (bool_decide_eq_false_1 (0 ∈ take 1024 (Py.lit "ab"))). reflexivity.
  - reflexivity.
  - discriminate.
  - discriminate.
  - reflexivity.
Defined.


(** The file [d/] U+00C3 U+00A9 [.txt] with the bytes [a CR LF b]: the
    name is repaired, the bytes stay. *)
Lemma X14_witness :
  let name := [0xC3; 0xA9] ++ Py.lit ".txt" in
  let raw := Py.lit "a" ++ [13; 10] ++ Py.lit "b" in
  let w := tree [([d], Dir); ([d; name], File raw)] [] in
  let loc := Locals 0 0 [] in
  let s := scan_file unmapped unmapped unmapped codecs chardet [d] name ((loc, fixer), w) in
  parents_exist (fs w) = true /\
  (fix_filename_encoding unmapped unmapped unmapped ([d] // name) (fixer, w)).1
  = Some [d; [0xE9] ++ Py.lit ".txt"] /\
  fs s.2.2 !! [d; [0xE9] ++ Py.lit ".txt"] = Some (File raw) /\
  encoding_issues s.2.1.2 = [].
Proof.
  intros name raw w loc s.
  destruct (X14_renamed_file_keeps_its_content unmapped unmapped unmapped codecs chardet
              [d] name loc fixer w [d; [0xE9] ++ Py.lit ".txt"] eq_refl eq_refl eq_refl)
    as (Hw & _ & Hissues & _).
  split; [reflexivity|]. split; [reflexivity|]. split; [|exact Hissues].
  fold s in Hw. rewrite Hw. reflexivity.
Defined.


(** A tree without escape sequences. *)
Lemma X16_witness :
  let w := tree [([d], Dir); ([d; Py.lit "sub"], Dir);
                 ([d; Py.lit "sub"; Py.lit "c.txt"], File [1])] [] in
  let r := scan_and_fix_directory (fun l => l) 5 None true (ufixer, w) in
  r.1.1 = Walk.Completed /\ r.2 = (ufixer, w) /\
  last (report r.1.2) = Some (0%nat, NoEscapesFound).
Proof.
  intros w r.
  destruct (X16_scan_of_a_clean_tree (fun l => l) (fun l x H => H) 5 None true ufixer w
              eq_refl eq_refl (walkable_plain [d] eq_refl) ltac:(vm_compute; lia))
    as (Hdone & Hsame & _ & Hlast).
  split; [exact Hdone|]. split; [exact Hsame | exact (Hlast eq_refl)].
Defined.



(** [#U0023U0041] decodes to [#U0041], which decodes to [A]. *)
Lemma X21_witness :
  Escape.decode_unicode_escape (Py.lit "#U0023U0041") = Py.lit "#U0041" /\
  Escape.has_escape (Escape.decode_unicode_escape (Py.lit "#U0023U0041")) = true.
Proof.
  destruct (X21_decoding_can_make_an_escape 0x30 0x30 0x34 0x31 [] eq_refl) as (Hs & Hesc & _).
  split; [exact Hs | exact Hesc].
Defined.
